(** * NYC taxi data pipeline: download, import and the pipeline service

    A shallow embedding of [src/download_data.py], [src/import_to_postgres.py],
    [src/import_to_duckdb.py] and [PipelineService.run_pipeline] of
    [src/services.py], followed by the properties of the import pipeline.

    Python code that touches the file system, the network or a database is
    written in a state-and-exception monad over an explicit [World]. *)

From Stdlib Require Import ZArith Lia Ascii.
From stdpp Require Import gmap strings list fin_maps pretty sorting.

Local Open Scope Z_scope.

(** ** Data model *)

(** A value held by one field of a trip record.  No arithmetic is performed on
    the monetary columns by the import path, so a DOUBLE is kept as its 64-bit
    pattern.  A timestamp is a wall-clock time with the zone it is anchored
    to, if any; it has no digits below the microsecond, the resolution of the
    Parquet files and of both stores. *)
Inductive cell : Type :=
| CInt (n : Z)
| CDouble (bits : Z)
| CStr (s : string)
| CTimestamp (t : Z) (tz : option string).

(** A row is positional; [None] is a missing value (NaN, NaT, NULL). *)
Definition row : Type := list (option cell).

(** The type of a column of a frame, as [df.dtypes] shows it: [int64],
    [float64], [object] (text, or a column with no type of its own),
    [datetime64] without or with a zone. *)
Inductive dtype : Type :=
| DtInt
| DtFloat
| DtObject
| DtDatetime (tz : option string).

(** A pandas frame, or the table a Parquet file decodes to.  [dtypes] runs
    along [columns]. *)
Record DataFrame : Type := mkDataFrame {
  columns : list string;
  dtypes : list dtype;
  rows : list row }.

(** The column types of the trip table of Postgres (what SQLModel makes of
    [int], [float], [str] with [max_length] and [datetime]) and of the trip
    table of DuckDB. *)
Inductive pgtype : Type :=
| PgInteger
| PgDouble
| PgVarchar (n : nat)
| PgTimestamp.

Inductive ducktype : Type :=
| DkBigint
| DkDouble
| DkVarchar
| DkTimestamp.

(** [ImportLog] of [src/models.py], and the [import_log] table of DuckDB. *)
Record ImportLog : Type := mkImportLog {
  file_name : string;
  import_date : Z;
  rows_imported : Z }.

(** The two tables behind the SQLModel [engine].  The surrogate key [id] is
    assigned by the store and plays no part in the import path; rows are kept
    without it, aligned with [table_columns] below. *)
Record PgDB : Type := mkPgDB {
  yellow_taxi_trips : list row;
  import_log : list ImportLog }.

(** The DuckDB database of [DuckDBImporter], with the transaction opened by
    [conn.begin()] when there is one. *)
Record DuckTables : Type := mkDuckTables {
  duck_trips : list row;
  duck_log : list ImportLog }.

Record DuckConn : Type := mkDuckConn {
  committed : DuckTables;
  txn : option DuckTables }.

(** What the remote archive does with one GET: the connection fails, or a
    response arrives whose streamed body may break off. *)
Inductive body_event : Type :=
| Chunk (data : list Byte.byte)
| ConnectionLost.

Record Response : Type := mkResponse {
  status_code : Z;
  body : list body_event }.

Inductive get_outcome : Type :=
| Unreachable
| Responds (r : Response).

(** The part of the world the code only reads. *)
Record Env : Type := mkEnv {
  cwd : string;
  clock_year : Z;
  clock_month : Z;
  clock_utc : Z;
  (** how the bytes of a file read as Parquet, when they do *)
  parquet_codec : list Byte.byte → option DataFrame;
  (** whether a naive wall-clock time exists exactly once in America/New_York *)
  ny_wall_time_ok : Z → bool;
  (** what the input function of a Postgres column type makes of the text
      that [to_csv] writes for a value of another kind (a number for a text
      column, text for a number, ...), when it takes that text *)
  pg_coerce : pgtype → cell → option cell;
  (** whether DuckDB has a cast from a column of a Parquet file to a table
      column of another type, and what that cast makes of a value, when it
      takes it *)
  duck_cast_bound : ducktype → dtype → bool;
  duck_cast : ducktype → cell → option cell;
  (** the order in which the tasks of a thread pool finish *)
  completion_order : list string → list string }.

Record World : Type := mkWorld {
  env : Env;
  fs : gmap string (list Byte.byte);
  (** scripted outcomes of the HTTP requests still to come *)
  remote : list get_outcome;
  (** URLs requested so far, oldest first *)
  requests : list string;
  (** scripted outcomes of the fallible I/O calls still to come (opening and
      writing a file, a database statement): [true] is an error raised by the
      operating system or the store for a reason outside the program *)
  io_faults : list bool;
  postgres : PgDB;
  duckdb : DuckConn }.

Definition set_fs (f : gmap string (list Byte.byte) → gmap string (list Byte.byte))
    (w : World) : World :=
  {| env := env w; fs := f (fs w); remote := remote w; requests := requests w;
     io_faults := io_faults w; postgres := postgres w; duckdb := duckdb w |}.

Definition set_remote (r : list get_outcome) (q : list string) (w : World) : World :=
  {| env := env w; fs := fs w; remote := r; requests := q;
     io_faults := io_faults w; postgres := postgres w; duckdb := duckdb w |}.

Definition set_io_faults (l : list bool) (w : World) : World :=
  {| env := env w; fs := fs w; remote := remote w; requests := requests w;
     io_faults := l; postgres := postgres w; duckdb := duckdb w |}.

Definition set_postgres (f : PgDB → PgDB) (w : World) : World :=
  {| env := env w; fs := fs w; remote := remote w; requests := requests w;
     io_faults := io_faults w; postgres := f (postgres w); duckdb := duckdb w |}.

Definition set_duckdb (f : DuckConn → DuckConn) (w : World) : World :=
  {| env := env w; fs := fs w; remote := remote w; requests := requests w;
     io_faults := io_faults w; postgres := postgres w; duckdb := f (duckdb w) |}.

(** ** Exceptions and the monad *)

Inductive exn : Type :=
(* requests.exceptions.RequestException and its subclasses *)
| ConnectionError
| HTTPError (status : Z)
| ChunkedEncodingError
(* other subclasses of Exception *)
| OSError
| FileNotFoundError
| ArrowInvalid
| KeyError (key : string)
| AttributeError
| TypeError
| AmbiguousTimeError
| OperationalError
| BadCopyFileFormat
| DataError
| NotNullViolation
| IntegrityError
| TransactionException
| ParserException
| BinderException
| ConversionException
| ValidationError (field : string).

Definition is_RequestException (e : exn) : bool :=
  match e with
  | ConnectionError | HTTPError _ | ChunkedEncodingError => true
  | _ => false
  end.

Inductive result (A : Type) : Type :=
| Ok (a : A)
| Raise (e : exn).
Arguments Ok {A} a.
Arguments Raise {A} e.

Definition M (A : Type) : Type := World → result A * World.

Definition ret {A} (a : A) : M A := λ w, (Ok a, w).
Definition raise {A} (e : exn) : M A := λ w, (Raise e, w).
Definition bind {A B} (m : M A) (k : A → M B) : M B := λ w,
  match m w with
  | (Ok a, w') => k a w'
  | (Raise e, w') => (Raise e, w')
  end.

Notation "'let*' x ':=' m 'in' k" := (bind m (λ x, k))
  (at level 10, x pattern, m at level 100, k at level 200).

(** [try: body except Exception as e: handler] *)
Definition try_except {A} (body : M A) (handler : exn → M A) : M A := λ w,
  match body w with
  | (Ok a, w') => (Ok a, w')
  | (Raise e, w') => handler e w'
  end.

(** [try: body finally: cleanup] *)
Definition try_finally {A} (body : M A) (cleanup : M unit) : M A := λ w,
  match body w with
  | (r, w') =>
      match cleanup w' with
      | (Ok _, w'') => (r, w'')
      | (Raise e, w'') => (Raise e, w'')
      end
  end.

Definition ask : M Env := λ w, (Ok (env w), w).

(** One fallible I/O call: consumes the next scripted outcome.  The calls that
    go through it are opening and writing the local file, reading a Parquet
    file, and every statement, connection and commit of Postgres and DuckDB
    that the [try] blocks contain. *)
Definition io_call (e : exn) : M unit := λ w,
  match io_faults w with
  | [] => (Ok tt, w)
  | false :: l => (Ok tt, set_io_faults l w)
  | true :: l => (Raise e, set_io_faults l w)
  end.

(** Values that cross the boundary to pydantic in [run_pipeline]. *)
Inductive pyvalue : Type :=
| PyNone
| PyInt (n : Z).

(** ** src/download_data.py *)

Module download_data.

Record NYCTaxiDataDownloader : Type := mkDownloader {
  base_url : string;
  data_dir : string;
  year : Z;
  file_extension : string;
  file_name_base : string }.

(** [__init__] *)
Definition init (base_url data_dir : string) (year : Z) : NYCTaxiDataDownloader :=
  {| base_url := base_url; data_dir := data_dir; year := year;
     file_extension := ".parquet"; file_name_base := "yellow_tripdata_" |}.

(** [f"{month:02d}"] *)
Definition format_02d (n : Z) : string :=
  if decide (0 ≤ n < 10) then "0" +:+ pretty n else pretty n.

Definition get_file_name (self : NYCTaxiDataDownloader) (month : Z) : string :=
  file_name_base self +:+ pretty (year self) +:+ "-" +:+ format_02d month
    +:+ file_extension self.

Definition get_file_path (self : NYCTaxiDataDownloader) (month : Z) : string :=
  data_dir self +:+ "/" +:+ get_file_name self month.

Definition path_exists (p : string) : M bool := λ w,
  (Ok (bool_decide (is_Some (fs w !! p))), w).

Definition file_exists (self : NYCTaxiDataDownloader) (month : Z) : M bool :=
  let file_path := get_file_path self month in
  let* e := path_exists file_path in
  if e then ret true else ret false.

(** [requests.get(url, stream=True, timeout=30)] *)
Definition requests_get (url : string) : M Response := λ w,
  match remote w with
  | [] => (Raise ConnectionError, set_remote [] (requests w ++ [url]) w)
  | Unreachable :: l => (Raise ConnectionError, set_remote l (requests w ++ [url]) w)
  | Responds r :: l => (Ok r, set_remote l (requests w ++ [url]) w)
  end.

Definition raise_for_status (r : Response) : M unit :=
  if decide (400 ≤ status_code r < 600) then raise (HTTPError (status_code r))
  else ret tt.

(** [open(file_path, "wb")]: creates the file, or empties it. *)
Definition open_wb (p : string) : M unit :=
  let* _ := io_call OSError in
  λ w, (Ok tt, set_fs (<[p := []]>) w).

(** [f.write(chunk)] *)
Definition f_write (p : string) (data : list Byte.byte) : M unit :=
  let* _ := io_call OSError in
  λ w, (Ok tt, set_fs (alter (λ old, old ++ data) p) w).

(** [for chunk in r.iter_content(chunk_size=8192): f.write(chunk)] *)
Fixpoint write_chunks (p : string) (stream : list body_event) : M unit :=
  match stream with
  | [] => ret tt
  | ConnectionLost :: _ => raise ChunkedEncodingError
  | Chunk data :: rest =>
      let* _ := f_write p data in
      write_chunks p rest
  end.

(** [if file_path.exists(): file_path.unlink()]; removing a file that exists
    is taken not to fail. *)
Definition unlink_if_exists (p : string) : M unit :=
  let* e := path_exists p in
  if e then λ w, (Ok tt, set_fs (delete p) w) else ret tt.

(** The body of the [try] block of [download_month]. *)
Definition download_month_try (self : NYCTaxiDataDownloader)
    (file_name file_path : string) : M (option bool) :=
  let* r := requests_get (base_url self +:+ "/" +:+ file_name) in
  let* _ := raise_for_status r in
  if decide (status_code r = 200) then
    let* _ := open_wb file_path in
    let* _ := write_chunks file_path (body r) in
    ret (Some true)
  else ret None.

(** The result is [Some true], [Some false], or [None] when the function falls
    off its end (the branch that only prints the status code). *)
Definition download_month (self : NYCTaxiDataDownloader) (month : Z) : M (option bool) :=
  let* e := file_exists self month in
  if e then ret (Some true)
  else
    let file_name := get_file_name self month in
    let file_path := get_file_path self month in
    try_except
      (download_month_try self file_name file_path)
      (λ e,
         if is_RequestException e then
           let* _ := unlink_if_exists file_path in
           ret (Some false)
         else
           let* _ := unlink_if_exists file_path in
           ret (Some false)).

(** [list(range(a, b))] *)
Definition py_range (a b : Z) : list Z := seqZ a (b - a).

(** The body of [for month in month_list]. *)
Fixpoint for_month (self : NYCTaxiDataDownloader) (month_list liste_fichiers : list Z)
    : M (list Z) :=
  match month_list with
  | [] => ret liste_fichiers
  | month :: rest =>
      let* _ := download_month self month in
      for_month self rest (liste_fichiers ++ [month])
  end.

Definition download_all_available (self : NYCTaxiDataDownloader) : M (list Z) :=
  let* e := ask in
  let current_month :=
    if decide (year self ≠ clock_year e) then 12 else clock_month e in
  let liste_fichiers := [] in
  let month_list :=
    if decide (current_month ≠ 1) then py_range 1 (current_month + 1)
    else [1] in
  for_month self month_list liste_fichiers.

(** [main] has no [return] statement: its value is [None].  The test
    [if not data_dir.exists] looks at a bound method, which is always true, so
    [os.mkdir] is never reached. *)
Definition main : M pyvalue :=
  let* e := ask in
  let data_dir := cwd e +:+ "/data/raw" in
  let base_url := "https://d37ci6vzurychx.cloudfront.net/trip-data" in
  let classe_nyctaxi_download := init base_url data_dir (clock_year e) in
  let* fichiers_telecharges := download_all_available classe_nyctaxi_download in
  ret PyNone.

End download_data.

(** ** pandas operations used by the transform *)

Module pandas.

(** The value of column [c] in a row laid out along [cols] (the first column
    of that name); [None] when it is missing. *)
Fixpoint row_get (cols : list string) (r : row) (c : string) : option cell :=
  match cols, r with
  | k :: cols', v :: r' => if decide (k = c) then v else row_get cols' r' c
  | _, _ => None
  end.

Fixpoint row_set (cols : list string) (r : row) (c : string) (v : option cell) : row :=
  match cols, r with
  | k :: cols', x :: r' =>
      if decide (k = c) then v :: r' else x :: row_set cols' r' c v
  | _, _ => r
  end.

Fixpoint dict_get (d : list (string * string)) (k : string) : option string :=
  match d with
  | [] => None
  | (k', v) :: d' => if decide (k' = k) then Some v else dict_get d' k
  end.

(** The entries of [xs] under every column labelled [c], in the order of the
    header; a list that is shorter than the header is filled up with [d]. *)
Fixpoint select_all {A} (cols : list string) (xs : list A) (d : A) (c : string)
    : list A :=
  match cols with
  | [] => []
  | k :: cols' =>
      let rest := select_all cols' (tail xs) d c in
      if decide (k = c) then default d (head xs) :: rest else rest
  end.

Fixpoint set_dtype (cols : list string) (tys : list dtype) (c : string) (t : dtype)
    : list dtype :=
  match cols, tys with
  | k :: cols', y :: tys' =>
      if decide (k = c) then t :: tys' else y :: set_dtype cols' tys' c t
  | _, _ => tys
  end.

(** [df.rename(columns=mapping)] *)
Definition rename (mapping : list (string * string)) (df : DataFrame) : DataFrame :=
  {| columns := (λ c, default c (dict_get mapping c)) <$> columns df;
     dtypes := dtypes df;
     rows := rows df |}.

Definition notna (cols : list string) (subset : list string) (r : row) : Prop :=
  Forall (λ c, is_Some (row_get cols r c)) subset.

Global Instance notna_dec cols subset r : Decision (notna cols subset r).
Proof. unfold notna. apply _. Defined.

(** [df.dropna(subset=subset)]: a label of [subset] that is not a column is a
    [KeyError]. *)
Definition dropna (subset : list string) (df : DataFrame) : result DataFrame :=
  match list_find (λ c, c ∉ columns df) subset with
  | Some (_, c) => Raise (KeyError c)
  | None =>
      Ok {| columns := columns df;
            dtypes := dtypes df;
            rows := filter (notna (columns df) subset) (rows df) |}
  end.

(** [.dt.tz_localize("America/New_York")] on one value: a zone assignment, which
    pandas refuses for a wall-clock time that is ambiguous or does not exist,
    for a value that already has a zone, and for a value that is not a
    timestamp. *)
Definition tz_localize (ok : Z → bool) (v : option cell) : result (option cell) :=
  match v with
  | None => Ok None
  | Some (CTimestamp t None) =>
      if ok t then Ok (Some (CTimestamp t (Some "America/New_York")))
      else Raise AmbiguousTimeError
  | Some (CTimestamp t (Some _)) => Raise TypeError
  | Some _ => Raise AttributeError
  end.

Fixpoint localize_rows (ok : Z → bool) (cols : list string) (c : string)
    (rs : list row) : result (list row) :=
  match rs with
  | [] => Ok []
  | r :: rs' =>
      match tz_localize ok (row_get cols r c) with
      | Raise e => Raise e
      | Ok v =>
          match localize_rows ok cols c rs' with
          | Raise e => Raise e
          | Ok rs'' => Ok (row_set cols r c v :: rs'')
          end
      end
  end.

(** [df[c] = df[c].dt.tz_localize("America/New_York")].  [df[c]] is a
    [KeyError] when no column has the label, and a frame, which has no [.dt],
    when several have it.  [.dt] looks at the type of the column, whatever
    the number of its rows: it is there for a datetime column only, and
    [tz_localize] refuses a column that has a zone already. *)
Definition localize_column (ok : Z → bool) (c : string) (df : DataFrame)
    : result DataFrame :=
  match select_all (columns df) (dtypes df) DtObject c with
  | [] => Raise (KeyError c)
  | [DtDatetime None] =>
      match localize_rows ok (columns df) c (rows df) with
      | Raise e => Raise e
      | Ok rs =>
          Ok {| columns := columns df;
                dtypes := set_dtype (columns df) (dtypes df) c
                            (DtDatetime (Some "America/New_York"));
                rows := rs |}
      end
  | [DtDatetime (Some _)] => Raise TypeError
  | _ => Raise AttributeError
  end.

(** [df.empty]: some axis has length 0. *)
Definition empty (df : DataFrame) : bool :=
  match rows df, columns df with
  | [], _ | _, [] => true
  | _, _ => false
  end.

(** [df[cols]]: for each label of [cols] in turn, every column of the frame
    that has this label. *)
Definition project (cols : list string) (df : DataFrame) : DataFrame :=
  {| columns := cols ≫= (λ c, select_all (columns df) (columns df) c c);
     dtypes := cols ≫= (λ c, select_all (columns df) (dtypes df) DtObject c);
     rows := (λ r, cols ≫= (λ c, select_all (columns df) r None c)) <$> rows df |}.

(** [len(df)] *)
Definition len (df : DataFrame) : Z := Z.of_nat (length (rows df)).

End pandas.

(** ** pathlib *)

Module pathlib.

Fixpoint has_slash (s : string) : bool :=
  match s with
  | EmptyString => false
  | String c s' => if decide (c = "/"%char) then true else has_slash s'
  end.

(** [Path.name]: the last component. *)
Fixpoint name (p : string) : string :=
  match p with
  | EmptyString => ""
  | String c rest =>
      if has_slash rest then name rest
      else if decide (c = "/"%char) then rest else p
  end.

Fixpoint strip_prefix (pre s : string) : option string :=
  match pre, s with
  | EmptyString, _ => Some s
  | String a pre', String b s' =>
      if decide (a = b) then strip_prefix pre' s' else None
  | _, _ => None
  end.

Definition ends_with (suffix s : string) : bool :=
  String.prefix (String.rev suffix) (String.rev s).

(** Whether [p] is an entry of directory [dir] that matches [*.parquet]. *)
Definition matches_parquet (dir p : string) : bool :=
  match strip_prefix (dir +:+ "/") p with
  | Some entry => negb (has_slash entry) && ends_with ".parquet" entry
  | None => false
  end.

(** [dir.glob("*.parquet")], in the arbitrary order of the directory scan. *)
Definition glob_parquet (dir : string) : M (list string) := λ w,
  (Ok (filter (λ p, Is_true (matches_parquet dir p)) (fst <$> map_to_list (fs w))), w).

(** [sorted(paths)] *)
Definition sorted (paths : list string) : list string :=
  merge_sort (λ a b, Is_true (String.leb a b)) paths.

End pathlib.

(** ** src/database.py *)

Module database.

(** [SQLModel.metadata.create_all(bind=engine)]: connects and creates the
    tables that are missing.  The tables of [PgDB] stand for their content
    once created, so a successful call changes nothing. *)
Definition init_db : M unit := io_call OperationalError.

End database.

(** ** src/import_to_postgres.py *)

Module import_to_postgres.

Definition column_mapping : list (string * string) :=
  [ ("VendorID", "vendor_id");
    ("tpep_pickup_datetime", "tpep_pickup_datetime");
    ("tpep_dropoff_datetime", "tpep_dropoff_datetime");
    ("passenger_count", "passenger_count");
    ("trip_distance", "trip_distance");
    ("RatecodeID", "ratecode_id");
    ("store_and_fwd_flag", "store_and_fwd_flag");
    ("PULocationID", "pu_location_id");
    ("DOLocationID", "do_location_id");
    ("payment_type", "payment_type");
    ("fare_amount", "fare_amount");
    ("extra", "extra");
    ("mta_tax", "mta_tax");
    ("tip_amount", "tip_amount");
    ("tolls_amount", "tolls_amount");
    ("improvement_surcharge", "improvement_surcharge");
    ("total_amount", "total_amount");
    ("congestion_surcharge", "congestion_surcharge");
    ("Airport_fee", "airport_fee");
    ("cbd_congestion_fee", "cbd_congestion_fee") ].

Definition target_cols : list string :=
  [ "vendor_id"; "tpep_pickup_datetime"; "tpep_dropoff_datetime";
    "passenger_count"; "trip_distance"; "ratecode_id"; "store_and_fwd_flag";
    "pu_location_id"; "do_location_id"; "payment_type"; "fare_amount";
    "extra"; "mta_tax"; "tip_amount"; "tolls_amount";
    "improvement_surcharge"; "total_amount"; "congestion_surcharge";
    "airport_fee"; "cbd_congestion_fee" ].

(** The columns of [YellowTaxiTrip] in [src/models.py] after [id], and those
    whose field is not [Optional], which SQLModel declares NOT NULL. *)
Definition table_columns : list string :=
  [ "vendor_id"; "tpep_pickup_datetime"; "tpep_dropoff_datetime";
    "passenger_count"; "trip_distance"; "ratecode_id"; "store_and_fwd_flag";
    "pu_location_id"; "do_location_id"; "payment_type"; "fare_amount";
    "extra"; "mta_tax"; "tip_amount"; "tolls_amount";
    "improvement_surcharge"; "total_amount"; "congestion_surcharge";
    "airport_fee"; "cbd_congestion_fee" ].

Definition not_null_columns : list string :=
  [ "vendor_id"; "tpep_pickup_datetime"; "tpep_dropoff_datetime";
    "pu_location_id"; "do_location_id"; "payment_type"; "fare_amount";
    "extra"; "mta_tax"; "tip_amount"; "tolls_amount";
    "improvement_surcharge"; "total_amount" ].

Definition lift {A} (r : result A) : M A := λ w, (r, w).

(** [pd.read_parquet(file_path)] *)
Definition read_parquet (file_path : string) : M DataFrame :=
  let* _ := io_call OSError in
  λ w,
    match fs w !! file_path with
    | None => (Raise FileNotFoundError, w)
    | Some bytes =>
        match parquet_codec (env w) bytes with
        | None => (Raise ArrowInvalid, w)
        | Some df => (Ok df, w)
        end
    end.

Definition clean_df (file_path : string) : M DataFrame :=
  let* df := read_parquet file_path in
  let df := pandas.rename column_mapping df in
  let* df := lift (pandas.dropna ["tpep_pickup_datetime"; "tpep_dropoff_datetime"] df) in
  let* e := ask in
  let* df := lift (pandas.localize_column (ny_wall_time_ok e) "tpep_pickup_datetime" df) in
  let* df := lift (pandas.localize_column (ny_wall_time_ok e) "tpep_dropoff_datetime" df) in
  ret df.

(** [log_import]: one [ImportLog] row added and committed in a session of its
    own; [file_name] is the primary key. *)
Definition log_import (name : string) (n : Z) : M unit :=
  let* e := ask in
  let log := {| file_name := name; import_date := clock_utc e; rows_imported := n |} in
  let* _ := io_call OperationalError in
  λ w,
    if decide (name ∈ file_name <$> import_log (postgres w)) then (Raise IntegrityError, w)
    else
      (Ok tt,
       set_postgres
         (λ db, {| yellow_taxi_trips := yellow_taxi_trips db;
                   import_log := import_log db ++ [log] |}) w).

(** The types of the columns of [YellowTaxiTrip]: [int] is INTEGER, [float]
    is DOUBLE PRECISION, [str] with [max_length=1] is VARCHAR(1) and
    [datetime] is TIMESTAMP WITHOUT TIME ZONE. *)
Definition column_type (c : string) : pgtype :=
  if decide (c ∈ ["vendor_id"; "pu_location_id"; "do_location_id"; "payment_type"])
  then PgInteger
  else if decide (c ∈ ["tpep_pickup_datetime"; "tpep_dropoff_datetime"])
  then PgTimestamp
  else if decide (c = "store_and_fwd_flag") then PgVarchar 1
  else PgDouble.

(** What the input function of a column type makes of the CSV field that
    [to_csv] writes for a value; [None] when it refuses the field.  An
    integer must fit 32 bits, and the decimal point that [to_csv] writes for
    a float is not the syntax of an integer; text must fit the length of the
    column; a timestamp column without time zone drops the offset and keeps
    the wall-clock time. *)
Definition pg_input (e : Env) (ty : pgtype) (v : cell) : option cell :=
  match ty, v with
  | PgInteger, CInt n =>
      if decide (-2147483648 ≤ n ≤ 2147483647) then Some (CInt n) else None
  | PgInteger, CDouble _ => None
  | PgInteger, CTimestamp _ _ => None
  | PgDouble, CDouble bits => Some (CDouble bits)
  | PgDouble, CTimestamp _ _ => None
  | PgVarchar k, CStr s =>
      if decide (String.length s ≤ k)%nat then Some (CStr s) else None
  | PgVarchar k, CInt n =>
      if decide (String.length (pretty n) ≤ k)%nat then Some (CStr (pretty n))
      else None
  | PgTimestamp, CTimestamp t _ => Some (CTimestamp t None)
  | _, _ => pg_coerce e ty v
  end.

(** One field of a CSV line: [na_rep] is the NULL marker of the COPY, and so
    is a text value that reads the same. *)
Definition pg_field (e : Env) (ty : pgtype) (v : option cell)
    : option (option cell) :=
  match v with
  | None => Some None
  | Some (CStr s) =>
      if decide (s = "\N") then Some None else Some <$> pg_input e ty (CStr s)
  | Some c => Some <$> pg_input e ty c
  end.

(** The table row that the fields of a line become under
    [COPY yellow_taxi_trips (cols)]: the columns that are not listed are
    NULL. *)
Definition copy_row (cols : list string) (r : row) : row :=
  (λ c, pandas.row_get cols r c) <$> table_columns.

Definition not_null_ok (r : row) : Prop :=
  pandas.notna table_columns not_null_columns r.

(** One line of the COPY: it must have one field for each listed column,
    every field must be taken by the type of its column, and the row must
    fill the NOT NULL columns. *)
Definition copy_line (e : Env) (cols : list string) (line : row) : result row :=
  if decide (length line = length cols) then
    match mapM (λ cv, pg_field e (column_type cv.1) cv.2) (zip cols line) with
    | None => Raise DataError
    | Some fields =>
        if decide (not_null_ok (copy_row cols fields))
        then Ok (copy_row cols fields)
        else Raise NotNullViolation
    end
  else Raise BadCopyFileFormat.

(** The lines of the buffer in turn; the first line that is refused ends the
    COPY. *)
Fixpoint copy_lines (e : Env) (cols : list string) (buf : list row)
    : result (list row) :=
  match buf with
  | [] => Ok []
  | line :: rest =>
      match copy_line e cols line with
      | Raise x => Raise x
      | Ok r =>
          match copy_lines e cols rest with
          | Raise x => Raise x
          | Ok rs => Ok (r :: rs)
          end
      end
  end.

(** [engine.raw_connection()] *)
Definition raw_connection : M unit := io_call OperationalError.

(** [cur.copy_expert(copy_sql, buf)]: the rows are staged in the transaction
    of the connection, each checked as it is read; nothing is visible before
    the commit. *)
Definition copy_expert (cols : list string) (buf : list row) : M (list row) :=
  let* _ := io_call OperationalError in
  let* e := ask in
  lift (copy_lines e cols buf).

(** [raw_conn.commit()] *)
Definition commit (staged : list row) : M unit :=
  let* _ := io_call OperationalError in
  λ w,
    (Ok tt,
     set_postgres
       (λ db, {| yellow_taxi_trips := yellow_taxi_trips db ++ staged;
                 import_log := import_log db |}) w).

(** [cur.close()] and [raw_conn.close()]: what was not committed is dropped;
    closing is taken not to fail. *)
Definition close : M unit := ret tt.

(** The body of the [try] block of [import_parquet_copy]. *)
Definition import_parquet_copy_try (file_path : string) : M (option Z) :=
  let* df := clean_df file_path in
  if pandas.empty df then ret (Some 0)
  else
    let cols := filter (λ c, c ∈ columns df) target_cols in
    let df := pandas.project cols df in
    let buf := rows df in
    let* _ := raw_connection in
    let* _ :=
      try_finally
        (try_finally
           (let* staged := copy_expert cols buf in
            commit staged)
           close)
        close in
    ret (Some (pandas.len df)).

(** The result is [Some n] for [return n] and [None] for [return None]. *)
Definition import_parquet_copy (file_path : string) : M (option Z) :=
  try_except
    (import_parquet_copy_try file_path)
    (λ e, ret None).

Record ImportStats : Type := mkImportStats {
  files_imported : Z;
  total_rows : Z }.

(** The loop [for fut in as_completed(futures)].  Each task is one call of
    [import_parquet_copy], whose only effect on the store is the single
    transaction of its COPY into the trip table, while the loop writes the
    ledger only: the two do not see each other, and a run of the pool is the
    same as running each task at the point where its future is collected,
    which is what is written here.  The tasks thus take effect in completion
    order. *)
Fixpoint collect (completed : list string) (total_rows ok : Z) : M (Z * Z) :=
  match completed with
  | [] => ret (total_rows, ok)
  | fpath :: rest =>
      let* rows := import_parquet_copy fpath in
      let* counts :=
        try_except
          (match rows with
           | Some n =>
               if decide (n >= 0) then
                 let* _ := log_import (pathlib.name fpath) n in
                 ret (total_rows + n, ok + 1)
               else ret (total_rows, ok)
           | None => ret (total_rows, ok)
           end)
          (λ e, ret (total_rows, ok)) in
      collect rest (fst counts) (snd counts)
  end.

(** The result is [None] for the bare [return] of an empty directory. *)
Definition main : M (option ImportStats) :=
  let* _ := database.init_db in
  let* e := ask in
  let parquet_dir := cwd e +:+ "/data/raw" in
  let* found := pathlib.glob_parquet parquet_dir in
  let files := pathlib.sorted found in
  match files with
  | [] => ret None
  | _ =>
      let* counts := collect (completion_order e files) 0 0 in
      ret (Some {| files_imported := snd counts; total_rows := fst counts |})
  end.

End import_to_postgres.

(** ** src/import_to_duckdb.py *)

Module import_to_duckdb.

(** The columns of [CREATE TABLE yellow_taxi_trips]; none is declared NOT NULL. *)
Definition duck_columns : list string :=
  [ "VendorID"; "tpep_pickup_datetime"; "tpep_dropoff_datetime";
    "passenger_count"; "trip_distance"; "RatecodeID"; "store_and_fwd_flag";
    "PULocationID"; "DOLocationID"; "payment_type"; "fare_amount"; "extra";
    "mta_tax"; "tip_amount"; "tolls_amount"; "improvement_surcharge";
    "total_amount"; "congestion_surcharge"; "Airport_fee"; "cdb_congestion_fee" ].

(** The types of these columns. *)
Definition duck_types : list ducktype :=
  [ DkBigint; DkTimestamp; DkTimestamp; DkDouble; DkDouble; DkDouble; DkVarchar;
    DkBigint; DkBigint; DkBigint; DkDouble; DkDouble; DkDouble; DkDouble;
    DkDouble; DkDouble; DkDouble; DkDouble; DkDouble; DkDouble ].

(** What a statement sees and changes: the open transaction when there is
    one, the committed tables otherwise. *)
Definition view (c : DuckConn) : DuckTables := default (committed c) (txn c).

Definition write (f : DuckTables → DuckTables) (c : DuckConn) : DuckConn :=
  match txn c with
  | Some t => {| committed := committed c; txn := Some (f t) |}
  | None => {| committed := f (committed c); txn := None |}
  end.

(** The count of the rows of [import_log] whose [file_name] is the argument, then
    [result[0] > 0].  Counting rows on the open connection is taken not to
    fail. *)
Definition is_file_imported (name : string) : M bool := λ w,
  let result :=
    Z.of_nat (length (filter (λ l, file_name l = name) (duck_log (view (duckdb w))))) in
  (Ok (bool_decide (result > 0)), w).

(** [conn.begin()], [conn.commit()], [conn.rollback()]: DuckDB refuses to begin
    inside a transaction and to commit or roll back outside one. *)
Definition conn_begin : M unit := λ w,
  match txn (duckdb w) with
  | Some _ => (Raise TransactionException, w)
  | None =>
      (Ok tt, set_duckdb (λ c, {| committed := committed c; txn := Some (committed c) |}) w)
  end.

(** A commit that fails ends the transaction all the same: what it held is
    dropped and the connection is outside a transaction again. *)
Definition conn_commit : M unit := λ w,
  match txn (duckdb w) with
  | None => (Raise TransactionException, w)
  | Some t =>
      match io_call OSError w with
      | (Ok _, w') =>
          (Ok tt, set_duckdb (λ c, {| committed := t; txn := None |}) w')
      | (Raise e, w') =>
          (Raise e,
           set_duckdb (λ c, {| committed := committed c; txn := None |}) w')
      end
  end.

Definition conn_rollback : M unit := λ w,
  match txn (duckdb w) with
  | Some _ => (Ok tt, set_duckdb (λ c, {| committed := committed c; txn := None |}) w)
  | None => (Raise TransactionException, w)
  end.

(** The count of the rows of [yellow_taxi_trips]. *)
Definition count_trips : M Z := λ w,
  (Ok (Z.of_nat (length (duck_trips (view (duckdb w))))), w).

Fixpoint has_quote (s : string) : bool :=
  match s with
  | EmptyString => false
  | String c s' => if decide (c = "'"%char) then true else has_quote s'
  end.

(** The column of the file has the type of the table column. *)
Definition duck_natural (ty : ducktype) (src : dtype) : bool :=
  match ty, src with
  | DkBigint, DtInt | DkDouble, DtFloat | DkVarchar, DtObject
  | DkTimestamp, DtDatetime None => true
  | _, _ => false
  end.

(** Every column of the file can be cast to the table column in its
    position; this is looked at before any row is read. *)
Definition duck_binds (e : Env) (df : DataFrame) : bool :=
  forallb (λ p, duck_natural p.1 p.2 || duck_cast_bound e p.1 p.2)
    (zip duck_types (dtypes df)).

(** The cast of one value to the type of a table column: NULL stays NULL, a
    value of the type stays what it is (an integer must fit 64 bits), and a
    value of another kind is converted, or refused. *)
Definition duck_cast_value (e : Env) (ty : ducktype) (v : option cell)
    : option (option cell) :=
  match v with
  | None => Some None
  | Some c =>
      Some <$>
        match ty, c with
        | DkBigint, CInt n =>
            if decide (-9223372036854775808 ≤ n ≤ 9223372036854775807)
            then Some c else None
        | DkDouble, CDouble _ => Some c
        | DkVarchar, CStr _ => Some c
        | DkTimestamp, CTimestamp _ None => Some c
        | _, _ => duck_cast e ty c
        end
  end.

(** The row of the table that a row of the file becomes, by position. *)
Definition duck_cast_row (e : Env) (r : row) : option row :=
  mapM (λ p, duck_cast_value e p.1 p.2)
    (zip duck_types (take (length duck_types) (r ++ replicate (length duck_types) None))).

Definition duck_rows (e : Env) (df : DataFrame) : option (list row) :=
  if duck_binds e df then mapM (duck_cast_row e) (rows df) else None.

(** [INSERT INTO yellow_taxi_trips SELECT * FROM read_parquet('path')].  The
    path is written into the text of the statement between single quotes, so
    a path with a quote in it ends the literal early and the statement does
    not parse.  Otherwise every row of the file is inserted, by position:
    the file must have as many columns as the table, and each column is cast
    to the type of the table column. *)
Definition insert_select_parquet (path : string) : M unit :=
  if has_quote path then raise ParserException
  else
    let* _ := io_call OSError in
    λ w,
      match fs w !! path with
      | None => (Raise FileNotFoundError, w)
      | Some bytes =>
          match parquet_codec (env w) bytes with
          | None => (Raise ArrowInvalid, w)
          | Some df =>
              if decide (length (columns df) = length duck_columns) then
                match duck_rows (env w) df with
                | Some rs =>
                    (Ok tt,
                     set_duckdb
                       (write (λ t, {| duck_trips := duck_trips t ++ rs;
                                       duck_log := duck_log t |})) w)
                | None => (Raise ConversionException, w)
                end
              else (Raise BinderException, w)
          end
      end.

(** [INSERT INTO import_log (file_name, rows_imported) VALUES (?, ?)];
    [file_name] is the primary key and [import_date] takes its default. *)
Definition insert_import_log (name : string) (n : Z) : M unit :=
  let* e := ask in
  let log := {| file_name := name; import_date := clock_utc e; rows_imported := n |} in
  let* _ := io_call OSError in
  λ w,
    if decide (name ∈ file_name <$> duck_log (view (duckdb w))) then
      (Raise IntegrityError, w)
    else
      (Ok tt,
       set_duckdb
         (write (λ t, {| duck_trips := duck_trips t;
                         duck_log := duck_log t ++ [log] |})) w).

(** The body of the [try] block of [import_parquet]. *)
Definition import_parquet_try (file_path filename : string) : M bool :=
  let* _ := conn_begin in
  let* count_before := count_trips in
  let* _ := insert_select_parquet file_path in
  let* count_after := count_trips in
  let rows_imported := count_after - count_before in
  let* _ := insert_import_log filename rows_imported in
  let* _ := conn_commit in
  ret true.

Definition import_parquet (file_path : string) : M bool :=
  let filename := pathlib.name file_path in
  let* imported := is_file_imported filename in
  if imported then ret true
  else
    try_except
      (import_parquet_try file_path filename)
      (λ e,
         let* _ := conn_rollback in
         ret false).

(** The body of [for file_path in parquet_files]. *)
Fixpoint for_file (parquet_files : list string) (imported_count : Z) : M Z :=
  match parquet_files with
  | [] => ret imported_count
  | file_path :: rest =>
      let* ok := import_parquet file_path in
      if ok then for_file rest (imported_count + 1)
      else for_file rest imported_count
  end.

Definition import_all_parquet (data_dir : string) : M Z :=
  let* found := pathlib.glob_parquet data_dir in
  let parquet_files := pathlib.sorted found in
  let imported_count := 0 in
  for_file parquet_files imported_count.

End import_to_duckdb.

(** ** src/schemas.py and src/services.py *)

Module services.

Record PipelineResponse : Type := mkPipelineResponse {
  status : string;
  downloaded : Z;
  imported_files : Z;
  imported_rows : Z }.

(** Validation of a field annotated [int]: [None] is refused. *)
Definition validate_int (field : string) (v : pyvalue) : M Z :=
  match v with
  | PyInt n => ret n
  | PyNone => raise (ValidationError field)
  end.

(** Validation of [Literal["started", "done", "error"]]. *)
Definition validate_status (s : string) : M string :=
  if decide (s ∈ ["started"; "done"; "error"]) then ret s
  else raise (ValidationError "status").

(** [PipelineResponse(status=..., downloaded=..., imported_files=...,
    imported_rows=...)]: a SQLModel that is not a table validates its fields
    when it is built. *)
Definition new_PipelineResponse (status : string)
    (downloaded imported_files imported_rows : pyvalue) : M PipelineResponse :=
  let* s := validate_status status in
  let* d := validate_int "downloaded" downloaded in
  let* f := validate_int "imported_files" imported_files in
  let* r := validate_int "imported_rows" imported_rows in
  ret {| status := s; downloaded := d; imported_files := f; imported_rows := r |}.

(** [imported_stats[key]]: [None] is not subscriptable. *)
Definition subscript (stats : option import_to_postgres.ImportStats) (key : string)
    : M pyvalue :=
  match stats with
  | None => raise TypeError
  | Some s =>
      if decide (key = "files_imported") then
        ret (PyInt (import_to_postgres.files_imported s))
      else if decide (key = "total_rows") then
        ret (PyInt (import_to_postgres.total_rows s))
      else raise (KeyError key)
  end.

Definition run_pipeline : M PipelineResponse :=
  let* _ := database.init_db in
  let* downloaded_files := download_data.main in
  let* imported_stats := import_to_postgres.main in
  let* files := subscript imported_stats "files_imported" in
  let* total := subscript imported_stats "total_rows" in
  new_PipelineResponse "done" downloaded_files files total.

End services.

(** * Vocabulary of the statements *)

(** Two worlds that differ at most in the script of faults still to come. *)
Definition same_but_faults (w w' : World) : Prop :=
  env w' = env w ∧ fs w' = fs w ∧ remote w' = remote w
  ∧ requests w' = requests w ∧ postgres w' = postgres w ∧ duckdb w' = duckdb w.

(** Two file systems that can differ at [p] only. *)
Definition agree_off (p : string) (m1 m2 : gmap string (list Byte.byte)) : Prop :=
  ∀ q, q ≠ p → m1 !! q = m2 !! q.

(** The rows [staged] were appended to the trip table of Postgres and nothing
    else changed, the script of faults apart. *)
Definition trips_extended_by (staged : list row) (w w' : World) : Prop :=
  env w' = env w ∧ fs w' = fs w ∧ remote w' = remote w
  ∧ requests w' = requests w ∧ duckdb w' = duckdb w
  ∧ import_log (postgres w') = import_log (postgres w)
  ∧ yellow_taxi_trips (postgres w') = yellow_taxi_trips (postgres w) ++ staged.

(** The world after the COPY of [staged] is committed, and after one ledger
    entry is committed. *)
Definition with_trips (staged : list row) (w : World) : World :=
  set_postgres
    (λ db, {| yellow_taxi_trips := yellow_taxi_trips db ++ staged;
              import_log := import_log db |}) w.

Definition with_log_entry (name : string) (n : Z) (w : World) : World :=
  set_postgres
    (λ db, {| yellow_taxi_trips := yellow_taxi_trips db;
              import_log := import_log db
                ++ [{| file_name := name; import_date := clock_utc (env w);
                       rows_imported := n |}] |}) w.

(** Both timestamps of a row laid out along [cols] are present. *)
Definition has_timestamps (cols : list string) (r : row) : Prop :=
  pandas.notna cols ["tpep_pickup_datetime"; "tpep_dropoff_datetime"] r.

Global Instance has_timestamps_dec cols r : Decision (has_timestamps cols r).
Proof. unfold has_timestamps. apply _. Defined.

(** Both timestamps of a row are present and anchored to America/New_York. *)
Definition has_ny_timestamps (cols : list string) (r : row) : Prop :=
  (∃ t, pandas.row_get cols r "tpep_pickup_datetime"
        = Some (CTimestamp t (Some "America/New_York")))
  ∧ (∃ t, pandas.row_get cols r "tpep_dropoff_datetime"
          = Some (CTimestamp t (Some "America/New_York"))).

(** [clean_df] on the content of a file, without the I/O. *)
Definition transform (e : Env) (content : option (list Byte.byte)) : result DataFrame :=
  match content with
  | None => Raise FileNotFoundError
  | Some bytes =>
      match parquet_codec e bytes with
      | None => Raise ArrowInvalid
      | Some raw =>
          match pandas.dropna ["tpep_pickup_datetime"; "tpep_dropoff_datetime"]
                  (pandas.rename import_to_postgres.column_mapping raw) with
          | Raise x => Raise x
          | Ok df =>
              match pandas.localize_column (ny_wall_time_ok e)
                      "tpep_pickup_datetime" df with
              | Raise x => Raise x
              | Ok df =>
                  pandas.localize_column (ny_wall_time_ok e)
                    "tpep_dropoff_datetime" df
              end
          end
      end
  end.

(** The table rows that the COPY of a cleaned frame stages, when it takes
    every line. *)
Definition staged_rows (e : Env) (df : DataFrame) : result (list row) :=
  let cols := filter (λ c, c ∈ columns df) import_to_postgres.target_cols in
  import_to_postgres.copy_lines e cols (rows (pandas.project cols df)).

(** The paths that [glob("*.parquet")] finds in [dir]. *)
Definition listing (dir : string) (files : gmap string (list Byte.byte)) : list string :=
  filter (λ p, Is_true (pathlib.matches_parquet dir p)) (fst <$> map_to_list files).

(** The body of the loop of [import_to_postgres.main] for one future. *)
Definition collect_one (fpath : string) (total_rows ok : Z) : M (Z * Z) :=
  let* rows := import_to_postgres.import_parquet_copy fpath in
  try_except
    (match rows with
     | Some n =>
         if decide (n >= 0) then
           let* _ := import_to_postgres.log_import (pathlib.name fpath) n in
           ret (total_rows + n, ok + 1)
         else ret (total_rows, ok)
     | None => ret (total_rows, ok)
     end)
    (λ e, ret (total_rows, ok)).

(** The sum of the row counts of ledger entries. *)
Definition logged_rows (entries : list ImportLog) : Z :=
  foldr (λ entry acc, rows_imported entry + acc) 0 entries.

(** What a batch did to Postgres: the rows [staged] were appended to the trip
    table and the entries [added] to the ledger; nothing else changed, the
    script of faults apart. *)
Definition batch_effect (staged : list row) (added : list ImportLog)
    (w w' : World) : Prop :=
  env w' = env w ∧ fs w' = fs w ∧ remote w' = remote w
  ∧ requests w' = requests w ∧ duckdb w' = duckdb w
  ∧ yellow_taxi_trips (postgres w') = yellow_taxi_trips (postgres w) ++ staged
  ∧ import_log (postgres w') = import_log (postgres w) ++ added.

(** Two worlds that differ at most in the DuckDB connection and in the script
    of faults. *)
Definition same_but_duckdb (w w' : World) : Prop :=
  env w' = env w ∧ fs w' = fs w ∧ remote w' = remote w
  ∧ requests w' = requests w ∧ postgres w' = postgres w.

(** A transaction is open on top of the committed tables [base]. *)
Definition in_txn (base : DuckTables) (w : World) : Prop :=
  committed (duckdb w) = base ∧ is_Some (txn (duckdb w)).

(** The committed tables once the rows [rs] of a file and the ledger entry
    of the file are in. *)
Definition duck_imported (name : string) (stamp : Z) (rs : list row)
    (t : DuckTables) : DuckTables :=
  {| duck_trips := duck_trips t ++ rs;
     duck_log := duck_log t
       ++ [{| file_name := name; import_date := stamp;
              rows_imported := Z.of_nat (length rs) |}] |}.



(** The environment and the two stores are what they were. *)
Definition stores_untouched (w w' : World) : Prop :=
  env w' = env w ∧ postgres w' = postgres w ∧ duckdb w' = duckdb w.

(** The bytes of a streamed body that arrives whole. *)
Fixpoint chunks_of (stream : list body_event) : option (list Byte.byte) :=
  match stream with
  | [] => Some []
  | ConnectionLost :: _ => None
  | Chunk data :: rest => (λ tail, data ++ tail) <$> chunks_of rest
  end.

(** What the transform does to one kept row: the two timestamps keep their
    instant and get the zone of New York, the other columns are as they
    were. *)
Definition cleaned (cols : list string) (r r' : row) : Prop :=
  (∀ c, c ≠ "tpep_pickup_datetime" → c ≠ "tpep_dropoff_datetime" →
        pandas.row_get cols r' c = pandas.row_get cols r c)
  ∧ (∃ t, pandas.row_get cols r "tpep_pickup_datetime" = Some (CTimestamp t None)
          ∧ pandas.row_get cols r' "tpep_pickup_datetime"
            = Some (CTimestamp t (Some "America/New_York")))
  ∧ (∃ t, pandas.row_get cols r "tpep_dropoff_datetime" = Some (CTimestamp t None)
          ∧ pandas.row_get cols r' "tpep_dropoff_datetime"
            = Some (CTimestamp t (Some "America/New_York"))).

(** The wall-clock times of a row that the transform localizes exist in New
    York. *)
Definition localizable (e : Env) (cols : list string) (r : row) : Prop :=
  ∀ c t, c ∈ ["tpep_pickup_datetime"; "tpep_dropoff_datetime"] →
         pandas.row_get cols r c = Some (CTimestamp t None) →
         ny_wall_time_ok e t = true.

(** DuckDB can load the file: the path holds no quote, the file is readable
    Parquet with as many columns as the trip table, and every column and
    value is taken by the cast to its table column; [rs] are the rows that
    are inserted. *)
Definition duck_loadable (e : Env) (files : gmap string (list Byte.byte))
    (file_path : string) (rs : list row) : Prop :=
  import_to_duckdb.has_quote file_path = false
  ∧ ∃ bytes df,
      files !! file_path = Some bytes ∧ parquet_codec e bytes = Some df
      ∧ length (columns df) = length import_to_duckdb.duck_columns
      ∧ import_to_duckdb.duck_rows e df = Some rs.



(** * Concrete worlds *)

Module example.

Definition NY : option string := Some "America/New_York".

Definition no_db : PgDB := {| yellow_taxi_trips := []; import_log := [] |}.

Definition no_duck : DuckConn :=
  {| committed := {| duck_trips := []; duck_log := [] |}; txn := None |}.

Definition env_march_2025 (codec : list Byte.byte → option DataFrame) : Env :=
  {| cwd := "/app"; clock_year := 2025; clock_month := 3; clock_utc := 1741000000;
     parquet_codec := codec; ny_wall_time_ok := λ t, true;
     pg_coerce := λ _ _, None; duck_cast_bound := λ _ _, false;
     duck_cast := λ _ _, None;
     completion_order := λ l, l |}.

Definition fetcher : download_data.NYCTaxiDataDownloader :=
  download_data.init "https://d37ci6vzurychx.cloudfront.net/trip-data"
    "/app/data/raw" 2025.

(** An empty data directory and an archive whose answer to the first request
    breaks off after one chunk. *)
Definition broken_stream : World :=
  {| env := env_march_2025 (λ _, None); fs := ∅;
     remote := [Responds {| status_code := 200;
                            body := [Chunk [Byte.x50; Byte.x41]; ConnectionLost] |}];
     requests := []; io_faults := [];
     postgres := no_db; duckdb := no_duck |}.

(** An empty data directory and an archive that serves the file in two chunks. *)
Definition healthy_archive : World :=
  {| env := env_march_2025 (λ _, None); fs := ∅;
     remote := [Responds {| status_code := 200;
                            body := [Chunk [Byte.x50; Byte.x41]; Chunk [Byte.x52]] |}];
     requests := []; io_faults := [];
     postgres := no_db; duckdb := no_duck |}.

(** The column names of a raw Yellow Taxi file. *)
Definition raw_columns : list string :=
  [ "VendorID"; "tpep_pickup_datetime"; "tpep_dropoff_datetime";
    "passenger_count"; "trip_distance"; "RatecodeID"; "store_and_fwd_flag";
    "PULocationID"; "DOLocationID"; "payment_type"; "fare_amount"; "extra";
    "mta_tax"; "tip_amount"; "tolls_amount"; "improvement_surcharge";
    "total_amount"; "congestion_surcharge"; "Airport_fee"; "cbd_congestion_fee" ].

(** The column types of a raw Yellow Taxi file. *)
Definition raw_dtypes : list dtype :=
  [ DtInt; DtDatetime None; DtDatetime None; DtFloat; DtFloat; DtFloat; DtObject;
    DtInt; DtInt; DtInt; DtFloat; DtFloat; DtFloat; DtFloat; DtFloat; DtFloat;
    DtFloat; DtFloat; DtFloat; DtFloat ].

(** The column types of a cleaned frame. *)
Definition cleaned_dtypes : list dtype :=
  [ DtInt; DtDatetime NY; DtDatetime NY; DtFloat; DtFloat; DtFloat; DtObject;
    DtInt; DtInt; DtInt; DtFloat; DtFloat; DtFloat; DtFloat; DtFloat; DtFloat;
    DtFloat; DtFloat; DtFloat; DtFloat ].

(** A trip picked up at [pickup] (when known) and dropped off ten minutes
    after [t]. *)
Definition trip (pickup : option cell) (t : Z) : row :=
  [ Some (CInt 2); pickup; Some (CTimestamp (t + 600) None);
    Some (CDouble 1); Some (CDouble 3); Some (CDouble 1); Some (CStr "N");
    Some (CInt 142); Some (CInt 236); Some (CInt 1); Some (CDouble 14);
    Some (CDouble 1); Some (CDouble 0); Some (CDouble 3); Some (CDouble 0);
    Some (CDouble 1); Some (CDouble 22); Some (CDouble 2); Some (CDouble 0);
    Some (CDouble 0) ].

Definition good_trip (t : Z) : row := trip (Some (CTimestamp t None)) t.
Definition trip_without_pickup (t : Z) : row := trip None t.

(** Files are told apart by their first byte: two complete trips; one trip
    without pickup time; one complete trip; anything else is not Parquet. *)
Definition codec (bytes : list Byte.byte) : option DataFrame :=
  match bytes with
  | Byte.x01 :: _ =>
      Some {| columns := raw_columns; dtypes := raw_dtypes;
              rows := [good_trip 1735700000; good_trip 1735703600] |}
  | Byte.x02 :: _ =>
      Some {| columns := raw_columns; dtypes := raw_dtypes;
              rows := [trip_without_pickup 1738400000] |}
  | Byte.x03 :: _ =>
      Some {| columns := raw_columns; dtypes := raw_dtypes;
              rows := [good_trip 1740800000] |}
  | _ => None
  end.

Definition january : string := "/app/data/raw/yellow_tripdata_2025-01.parquet".
Definition february : string := "/app/data/raw/yellow_tripdata_2025-02.parquet".
Definition march : string := "/app/data/raw/yellow_tripdata_2025-03.parquet".
Definition april : string := "/app/data/raw/yellow_tripdata_2025-04.parquet".

Definition on_disk (files : gmap string (list Byte.byte)) (faults : list bool) : World :=
  {| env := env_march_2025 codec; fs := files; remote := []; requests := [];
     io_faults := faults; postgres := no_db; duckdb := no_duck |}.

(** January alone on disk. *)
Definition january_only : World := on_disk {[ january := [Byte.x01] ]} [].

(** January alone, and the sixth I/O call of the run fails: in
    [import_to_postgres.main] that is the commit of the ledger entry. *)
Definition january_ledger_fault : World :=
  on_disk {[ january := [Byte.x01] ]} [false; false; false; false; false; true].

(** January alone, and the third I/O call fails: in
    [import_to_duckdb.import_parquet] that is the commit. *)
Definition january_commit_fault : World :=
  on_disk {[ january := [Byte.x01] ]} [false; false; true].


(** February alone: its only trip has no pickup time. *)
Definition february_only : World := on_disk {[ february := [Byte.x02] ]} [].

(** Four months on disk, April unreadable, next to a file that is not
    Parquet by name. *)
Definition four_months : World :=
  on_disk (<[ january := [Byte.x01] ]> (<[ february := [Byte.x02] ]>
            (<[ march := [Byte.x03] ]> (<[ april := [Byte.xff] ]>
              {[ "/app/data/raw/README.txt" := [Byte.x00] ]})))) [].

(** An archive that serves the three months of 2025 as the files above. *)
Definition three_months_served : World :=
  {| env := env_march_2025 codec; fs := ∅;
     remote := [Responds {| status_code := 200; body := [Chunk [Byte.x01]] |};
                Responds {| status_code := 200; body := [Chunk [Byte.x02]] |};
                Responds {| status_code := 200; body := [Chunk [Byte.x03]] |}];
     requests := []; io_faults := [];
     postgres := no_db; duckdb := no_duck |}.

(** January alone on disk, already imported into DuckDB. *)
Definition january_in_duckdb : World :=
  {| env := env_march_2025 codec; fs := {[ january := [Byte.x01] ]};
     remote := []; requests := []; io_faults := [];
     postgres := no_db;
     duckdb :=
       {| committed :=
            {| duck_trips := [good_trip 1735700000; good_trip 1735703600];
               duck_log := [{| file_name := "yellow_tripdata_2025-01.parquet";
                               import_date := 1740000000;
                               rows_imported := 2 |}] |};
          txn := None |} |}.

(** A trip whose fare is unknown. *)
Definition trip_without_fare (t : Z) : row := <[10%nat := None]> (good_trip t).

(** Further files, told apart in the same way: a complete trip followed by
    one without fare; a file that has no drop-off column; a complete trip
    followed by one picked up at 02:30 on 9 March 2025, an hour that the
    clocks of New York skipped; a file whose vendor column is text; a file
    with no column and no row; a file with no row whose timestamp columns
    were written without a type, which pandas reads as [object]. *)
Definition codec_more (bytes : list Byte.byte) : option DataFrame :=
  match bytes with
  | [] => None
  | b :: _ =>
      if Byte.eqb b Byte.x04 then
        Some {| columns := raw_columns; dtypes := raw_dtypes;
                rows := [good_trip 1735700000; trip_without_fare 1735703600] |}
      else if Byte.eqb b Byte.x05 then
        Some {| columns := ["VendorID"; "tpep_pickup_datetime"];
                dtypes := [DtInt; DtDatetime None];
                rows := [[Some (CInt 2); Some (CTimestamp 1735700000 None)]] |}
      else if Byte.eqb b Byte.x06 then
        Some {| columns := raw_columns; dtypes := raw_dtypes;
                rows := [good_trip 1735700000; good_trip 1741487400] |}
      else if Byte.eqb b Byte.x07 then
        Some {| columns := raw_columns;
                dtypes := <[0%nat := DtObject]> raw_dtypes;
                rows := [<[0%nat := Some (CStr "CMT")]> (good_trip 1735700000)] |}
      else if Byte.eqb b Byte.x08 then
        Some {| columns := []; dtypes := []; rows := [] |}
      else if Byte.eqb b Byte.x09 then
        Some {| columns := raw_columns;
                dtypes := <[1%nat := DtObject]> (<[2%nat := DtObject]> raw_dtypes);
                rows := [] |}
      else codec bytes
  end.

(** 02:30 on 9 March 2025 is a wall-clock time that does not exist. *)
Definition outside_skipped_hour (t : Z) : bool := negb (t =? 1741487400)%Z.

Definition on_disk_more (files : gmap string (list Byte.byte)) (faults : list bool)
    : World :=
  {| env := {| cwd := "/app"; clock_year := 2025; clock_month := 3;
               clock_utc := 1741000000; parquet_codec := codec_more;
               ny_wall_time_ok := outside_skipped_hour;
               pg_coerce := λ _ _, None; duck_cast_bound := λ _ _, false;
               duck_cast := λ _ _, None;
               completion_order := λ l, l |};
     fs := files; remote := []; requests := [];
     io_faults := faults; postgres := no_db; duckdb := no_duck |}.

(** A trip of the tables above once [clean_df] anchored its timestamps, and
    as the trip table of Postgres keeps it. *)
Definition ny_trip (t : Z) : row :=
  <[1%nat := Some (CTimestamp t NY)]>
    (<[2%nat := Some (CTimestamp (t + 600) NY)]> (good_trip t)).


Definition fare_missing_cleaned : DataFrame :=
  {| columns := import_to_postgres.target_cols; dtypes := cleaned_dtypes;
     rows := [ny_trip 1735700000; <[10%nat := None]> (ny_trip 1735703600)] |}.


End example.

(** * Properties *)

(** Closes a decidable goal on concrete data by evaluation. *)
Ltac by_evaluation := apply (bool_decide_unpack _); vm_compute; exact I.

(** ** The monad *)

Lemma bind_Ok {A B} (m : M A) (k : A → M B) w a w' :
  m w = (Ok a, w') → bind m k w = k a w'.
Proof. intros H. unfold bind. by rewrite H. Qed.

Lemma bind_Raise {A B} (m : M A) (k : A → M B) w e w' :
  m w = (Raise e, w') → bind m k w = (Raise e, w').
Proof. intros H. unfold bind. by rewrite H. Qed.

Lemma bind_inv {A B} (m : M A) (k : A → M B) w r w2 :
  bind m k w = (r, w2) →
  (∃ a w1, m w = (Ok a, w1) ∧ k a w1 = (r, w2))
  ∨ (∃ e, m w = (Raise e, w2) ∧ r = Raise e).
Proof.
  unfold bind. destruct (m w) as [[a|e] w1]; intros H.
  - left. eauto.
  - right. exists e. by inversion H.
Qed.

Lemma same_but_faults_refl w : same_but_faults w w.
Proof. by repeat split. Qed.

Lemma same_but_faults_trans w1 w2 w3 :
  same_but_faults w1 w2 → same_but_faults w2 w3 → same_but_faults w1 w3.
Proof.
  intros (?&?&?&?&?&?) (?&?&?&?&?&?). repeat split; congruence.
Qed.

Lemma io_call_frame e w r w' : io_call e w = (r, w') → same_but_faults w w'.
Proof.
  unfold io_call. destruct (io_faults w) as [|[] l]; intros [= <- <-];
    by repeat split.
Qed.

Lemma io_call_no_fault e w : io_faults w = [] → io_call e w = (Ok tt, w).
Proof. intros H. unfold io_call. by rewrite H. Qed.

(** ** The fetcher *)

Module fetcher_props.
Import download_data.

Lemma file_exists_eq self month w :
  file_exists self month w
  = (Ok (bool_decide (is_Some (fs w !! get_file_path self month))), w).
Proof.
  unfold file_exists, bind, path_exists, ret.
  by destruct (bool_decide _).
Qed.

Lemma agree_off_delete p m1 m2 :
  agree_off p m1 m2 → m2 !! p = None → delete p m1 = m2.
Proof.
  intros Hag Hp. apply map_eq. intros q.
  destruct (decide (q = p)) as [->|Hne].
  - by rewrite lookup_delete_eq, Hp.
  - rewrite lookup_delete_ne by done. by apply Hag.
Qed.

Lemma f_write_spec p data w r w' :
  f_write p data w = (r, w') →
  agree_off p (fs w') (fs w) ∧ requests w' = requests w
  ∧ (is_Some (fs w !! p) → is_Some (fs w' !! p)).
Proof.
  unfold f_write, bind. destruct (io_call OSError w) as [[[]|e] w1] eqn:Hio;
    apply io_call_frame in Hio as (_&Hfs&_&Hrq&_); intros [= <- <-]; simpl.
  - rewrite Hfs, Hrq. split_and!; [|done|].
    + intros q Hq. by rewrite lookup_alter_ne.
    + intros [x Hx]. rewrite lookup_alter_eq, Hx. by eexists.
  - rewrite Hfs, Hrq. by split_and!.
Qed.

Lemma write_chunks_spec p stream : ∀ w r w',
  write_chunks p stream w = (r, w') →
  agree_off p (fs w') (fs w) ∧ requests w' = requests w
  ∧ (is_Some (fs w !! p) → is_Some (fs w' !! p)).
Proof.
  induction stream as [|[data|] rest IH]; intros w r w'; simpl.
  - intros [= <- <-]. by split_and!.
  - intros H. apply bind_inv in H as [(a&w1&Hw&Hk)|(e&Hw&->)].
    + apply f_write_spec in Hw as (Hag1&Hrq1&Hs1).
      apply IH in Hk as (Hag2&Hrq2&Hs2). split_and!.
      * intros q Hq. by rewrite Hag2, Hag1.
      * congruence.
      * auto.
    + by apply f_write_spec in Hw.
  - intros [= <- <-]. by split_and!.
Qed.

Lemma open_wb_spec p w r w' :
  open_wb p w = (r, w') →
  agree_off p (fs w') (fs w) ∧ requests w' = requests w
  ∧ (r = Ok tt → is_Some (fs w' !! p)).
Proof.
  unfold open_wb, bind. destruct (io_call OSError w) as [[[]|e] w1] eqn:Hio;
    apply io_call_frame in Hio as (_&Hfs&_&Hrq&_); intros [= <- <-]; simpl.
  - rewrite Hfs, Hrq. split_and!; [|done|].
    + intros q Hq. by rewrite lookup_insert_ne.
    + intros _. rewrite lookup_insert_eq. by eexists.
  - rewrite Hfs, Hrq. by split_and!.
Qed.

Lemma requests_get_spec url w r w' :
  requests_get url w = (r, w') →
  fs w' = fs w ∧ requests w' = requests w ++ [url].
Proof.
  unfold requests_get. destruct (remote w) as [|[|resp] l]; by intros [= <- <-].
Qed.

Lemma raise_for_status_frame resp w r w' :
  raise_for_status resp w = (r, w') → w' = w.
Proof.
  unfold raise_for_status, raise, ret. by case_decide; intros [= <- <-].
Qed.

(** What the [try] block does to the file system and to the request log. *)
Lemma download_month_try_spec self file_name file_path w r w' :
  download_month_try self file_name file_path w = (r, w') →
  agree_off file_path (fs w') (fs w)
  ∧ requests w' = requests w ++ [base_url self +:+ "/" +:+ file_name]
  ∧ (r = Ok (Some true) → is_Some (fs w' !! file_path))
  ∧ (r = Ok None → fs w' = fs w)
  ∧ (r ≠ Ok (Some false)).
Proof.
  unfold download_month_try. intros H.
  apply bind_inv in H as [(resp&w1&Hget&H)|(e&Hget&->)];
    apply requests_get_spec in Hget as (Hfs1&Hrq1).
  2:{ rewrite Hfs1. by split_and!. }
  apply bind_inv in H as [([]&w2&Hst&H)|(e&Hst&->)];
    apply raise_for_status_frame in Hst as ->.
  2:{ rewrite Hfs1. by split_and!. }
  case_decide.
  2:{ inversion H; subst. rewrite Hfs1. by split_and!. }
  apply bind_inv in H as [([]&w3&Hop&H)|(e&Hop&->)];
    apply open_wb_spec in Hop as (Hag3&Hrq3&Hs3).
  2:{ rewrite <-Hfs1. split_and!; try done. congruence. }
  apply bind_inv in H as [([]&w4&Hwr&H)|(e&Hwr&->)];
    apply write_chunks_spec in Hwr as (Hag4&Hrq4&Hs4).
  2:{ split_and!; try done; [|congruence].
      intros q Hq. by rewrite Hag4, Hag3, Hfs1. }
  inversion H; subst. split_and!; try done.
  - intros q Hq. by rewrite Hag4, Hag3, Hfs1.
  - congruence.
  - auto.
Qed.

Lemma unlink_if_exists_spec p w :
  ∃ w', unlink_if_exists p w = (Ok tt, w') ∧ fs w' = delete p (fs w)
        ∧ requests w' = requests w.
Proof.
  unfold unlink_if_exists, bind, path_exists.
  case_bool_decide as Hp.
  - eexists. by split_and!.
  - exists w. split_and!; try done.
    symmetry. apply delete_id. by apply eq_None_not_Some.
Qed.

(** The handlers of [download_month] catch every exception. *)
Lemma download_month_absent self month w :
  fs w !! get_file_path self month = None →
  download_month self month w =
    match download_month_try self (get_file_name self month)
            (get_file_path self month) w with
    | (Ok o, w1) => (Ok o, w1)
    | (Raise e, w1) =>
        (Ok (Some false), (unlink_if_exists (get_file_path self month) w1).2)
    end.
Proof.
  intros Hp. unfold download_month.
  rewrite (bind_Ok _ _ _ _ _ (file_exists_eq self month w)).
  rewrite bool_decide_eq_false_2 by (rewrite Hp; by intros [? ?]).
  unfold try_except.
  destruct (download_month_try _ _ _ w) as [[o|e] w1]; [done|].
  destruct (unlink_if_exists_spec (get_file_path self month) w1) as (w2&Hu&_).
  destruct (is_RequestException e); unfold bind; by rewrite Hu.
Qed.

Lemma download_month_present self month w :
  is_Some (fs w !! get_file_path self month) →
  download_month self month w = (Ok (Some true), w).
Proof.
  intros Hp. unfold download_month.
  rewrite (bind_Ok _ _ _ _ _ (file_exists_eq self month w)).
  by rewrite bool_decide_eq_true_2.
Qed.

Lemma download_month_total self month w :
  ∃ o w', download_month self month w = (Ok o, w').
Proof.
  destruct (fs w !! get_file_path self month) eqn:Hp.
  - rewrite download_month_present by eauto. eauto.
  - rewrite download_month_absent by done.
    destruct (download_month_try _ _ _ w) as [[o|e] w1]; eauto.
Qed.



(** C5. When the file is not there yet and the download fails -- the [try]
    block of [download_month] raises, whatever the exception: connection
    error, HTTP error status, a stream that breaks off, an error opening or
    writing the local file -- the call returns [False]; and whenever the call
    does not return [True] the file system is what it was before the call, so
    the partial file is gone and [file_exists] answers [False] afterwards. *)
Theorem failed_download_leaves_no_partial_file
    (self : NYCTaxiDataDownloader) (month : Z) (w w' : World)
    (r : result (option bool)) :
  fs w !! get_file_path self month = None →
  download_month self month w = (r, w') →
  (∀ e w1,
     download_month_try self (get_file_name self month)
       (get_file_path self month) w = (Raise e, w1) →
     r = Ok (Some false))
  ∧ (r ≠ Ok (Some true) →
     fs w' = fs w ∧ file_exists self month w' = (Ok false, w')).
Proof.
  intros Hp Hd. rewrite download_month_absent in Hd by done.
  destruct (download_month_try _ _ _ w) as [[o|e] w1] eqn:Htry.
  - inversion Hd; subst. split; [by intros|].
    intros Hne. apply download_month_try_spec in Htry as (_&_&_&Hnone&Hnf).
    assert (o = None) as ->.
    { destruct o as [[]|]; congruence. }
    rewrite file_exists_eq, Hnone by done. split; [done|].
    by rewrite Hp, bool_decide_eq_false_2 by (by intros [? ?]).
  - apply download_month_try_spec in Htry as (Hag&_).
    destruct (unlink_if_exists_spec (get_file_path self month) w1) as (w2&Hu&Hfs&_).
    rewrite Hu in Hd. inversion Hd; subst. simpl.
    split; [done|]. intros _.
    rewrite file_exists_eq, Hfs, (agree_off_delete _ _ _ Hag Hp).
    split; [done|].
    by rewrite Hp, bool_decide_eq_false_2 by (by intros [? ?]).
Qed.

Lemma failed_download_leaves_no_partial_file_witness :
  let out := download_month example.fetcher 1 example.broken_stream in
  out.1 = Ok (Some false) ∧ fs out.2 = fs example.broken_stream.
Proof.
  intros out.
  destruct (failed_download_leaves_no_partial_file example.fetcher 1
              example.broken_stream out.2 out.1) as [Hfalse Hfs].
  - vm_compute. reflexivity.
  - subst out. by destruct (download_month _ _ _).
  - assert (out.1 = Ok (Some false)) as Hr.
    { eapply Hfalse. vm_compute. reflexivity. }
    split; [done|]. apply Hfs. by rewrite Hr.
Defined.

(** C6. If the local file exists, [download_month] returns [True] and leaves the
    world as it is: no request is issued.  Hence, starting without the file,
    when a first call returns [True] a second call returns [True] in the very
    same world: over the two calls exactly one request went out (the request
    log grew by the one URL of the month) and the local file is the same
    after either call. *)
Theorem download_month_idempotent
    (self : NYCTaxiDataDownloader) (month : Z) (w : World) :
  (is_Some (fs w !! get_file_path self month) →
   download_month self month w = (Ok (Some true), w))
  ∧ (∀ w1,
       fs w !! get_file_path self month = None →
       download_month self month w = (Ok (Some true), w1) →
       download_month self month w1 = (Ok (Some true), w1)
       ∧ requests w1
         = requests w ++ [base_url self +:+ "/" +:+ get_file_name self month]).
Proof.
  split; [apply download_month_present|].
  intros w1 Hp Hd. rewrite download_month_absent in Hd by done.
  destruct (download_month_try _ _ _ w) as [[o|e] w0] eqn:Htry; [|done].
  inversion Hd; subst.
  apply download_month_try_spec in Htry as (_&Hrq&Hsome&_).
  split; [|done]. apply download_month_present. by apply Hsome.
Qed.

Lemma download_month_idempotent_witness :
  let first := download_month example.fetcher 1 example.healthy_archive in
  first.1 = Ok (Some true)
  ∧ download_month example.fetcher 1 first.2 = (Ok (Some true), first.2)
  ∧ requests first.2
    = ["https://d37ci6vzurychx.cloudfront.net/trip-data/yellow_tripdata_2025-01.parquet"].
Proof.
  intros first.
  assert (first = (Ok (Some true), first.2)) as Hfirst by (vm_compute; reflexivity).
  split; [by rewrite Hfirst|].
  destruct (download_month_idempotent example.fetcher 1 example.healthy_archive)
    as [_ Hsecond].
  destruct (Hsecond first.2) as [Hagain Hrq].
  - vm_compute. reflexivity.
  - exact Hfirst.
  - split; [exact Hagain|]. rewrite Hrq. vm_compute. reflexivity.
Defined.

Lemma for_month_eq self month_list : ∀ liste_fichiers w,
  for_month self month_list liste_fichiers w
  = (Ok (liste_fichiers ++ month_list),
     foldl (λ w month, (download_month self month w).2) w month_list).
Proof.
  induction month_list as [|month rest IH]; intros acc w; simpl.
  - unfold ret. by rewrite app_nil_r.
  - destruct (download_month_total self month w) as (o&w'&Hd).
    rewrite (bind_Ok _ _ _ _ _ Hd), IH, Hd. simpl.
    by rewrite <-app_assoc.
Qed.

(** C7. [download_all_available] returns the months 1 to the upper bound in
    ascending order -- the current month when the configured year is the
    current year, 12 otherwise -- and the world it leaves is the one reached
    by calling [download_month] on each of these months in that order,
    whatever each call returned. *)
Theorem download_all_available_attempts_every_month
    (self : NYCTaxiDataDownloader) (w : World) :
  let upper :=
    if decide (year self = clock_year (env w)) then clock_month (env w) else 12 in
  download_all_available self w
  = (Ok (seqZ 1 upper),
     foldl (λ w month, (download_month self month w).2) w (seqZ 1 upper)).
Proof.
  intros upper. unfold download_all_available, bind, ask.
  rewrite for_month_eq. simpl.
  assert ((if decide
             ((if decide (year self ≠ clock_year (env w)) then 12
               else clock_month (env w)) ≠ 1)
           then py_range 1
                  ((if decide (year self ≠ clock_year (env w)) then 12
                    else clock_month (env w)) + 1)
           else [1]) = seqZ 1 upper) as ->; [|done].
  subst upper. unfold py_range.
  destruct (decide (year self = clock_year (env w))) as [Heq|Hne];
    destruct (decide (year self ≠ clock_year (env w))) as [Hne'|Heq'];
    try (exfalso; tauto).
  - destruct (decide (clock_month (env w) ≠ 1)) as [H1|H1].
    + f_equal. lia.
    + apply dec_stable in H1. by rewrite H1.
  - destruct (decide (12 ≠ 1)) as [_|H1]; [reflexivity|by destruct H1].
Qed.

(** In March 2025, with an archive that serves January only: the three months
    are returned, and they were requested in ascending order. *)
Example download_all_available_march :
  let out := download_all_available example.fetcher example.healthy_archive in
  out.1 = Ok [1; 2; 3]
  ∧ requests out.2
    = [ "https://d37ci6vzurychx.cloudfront.net/trip-data/yellow_tripdata_2025-01.parquet";
        "https://d37ci6vzurychx.cloudfront.net/trip-data/yellow_tripdata_2025-02.parquet";
        "https://d37ci6vzurychx.cloudfront.net/trip-data/yellow_tripdata_2025-03.parquet" ]
  ∧ dom (fs out.2) = {[ "/app/data/raw/yellow_tripdata_2025-01.parquet" ]}.
Proof. vm_compute. by repeat split. Qed.

End fetcher_props.

(** ** pandas *)

Module pandas_props.
Import pandas.

Lemma row_get_row_set_eq cols : ∀ r c v,
  is_Some (row_get cols r c) → row_get cols (row_set cols r c v) c = v.
Proof.
  induction cols as [|k cols IH]; intros [|x r] c v; cbn [row_get row_set];
    try (by intros [? ?]).
  destruct (decide (k = c)) as [->|Hne]; cbn [row_get].
  - by rewrite ?decide_True.
  - rewrite ?decide_False by done. apply IH.
Qed.

Lemma row_get_row_set_ne cols : ∀ r c c' v,
  c ≠ c' → row_get cols (row_set cols r c v) c' = row_get cols r c'.
Proof.
  induction cols as [|k cols IH]; intros [|x r] c c' v Hne;
    cbn [row_get row_set]; try done.
  destruct (decide (k = c)) as [->|Hk]; cbn [row_get].
  - by rewrite ?decide_False.
  - destruct (decide (k = c')); [done|]. by apply IH.
Qed.

Lemma tz_localize_Some ok x v :
  tz_localize ok (Some x) = Ok v →
  ∃ t, v = Some (CTimestamp t (Some "America/New_York")).
Proof.
  destruct x as [| | |t [z|]]; simpl; try done.
  destruct (ok t); [|done]. intros [= <-]. eauto.
Qed.

(** Localizing column [c] keeps the number of rows, anchors the values of
    [c] that are present, and leaves the other columns as they are. *)
Lemma localize_rows_spec ok cols c : ∀ rs rs',
  localize_rows ok cols c rs = Ok rs' →
  Forall2 (λ r r',
    (is_Some (row_get cols r c) →
     ∃ t, row_get cols r' c = Some (CTimestamp t (Some "America/New_York")))
    ∧ ∀ c', c' ≠ c → row_get cols r' c' = row_get cols r c') rs rs'.
Proof.
  induction rs as [|r rs IH]; intros rs'; simpl.
  - intros [= <-]. constructor.
  - destruct (tz_localize ok (row_get cols r c)) as [v|] eqn:Hv; [|done].
    destruct (localize_rows ok cols c rs) as [rs''|]; [|done].
    intros [= <-]. constructor; [|by apply IH].
    split.
    + intros [x Hx]. rewrite row_get_row_set_eq by (rewrite Hx; eauto).
      rewrite Hx in Hv. exact (tz_localize_Some ok x v Hv).
    + intros c' Hne. by apply row_get_row_set_ne.
Qed.

Lemma select_all_nil {A} (d : A) c : ∀ cols (xs : list A),
  select_all cols xs d c = [] ↔ c ∉ cols.
Proof.
  induction cols as [|k cols IH]; intros ys; simpl.
  - split; [intros _; apply not_elem_of_nil|done].
  - destruct (decide (k = c)) as [->|Hne].
    + split; [done|]. intros Hout. exfalso. apply Hout. by left.
    + rewrite IH. split.
      * intros Hout [->|Hin]%elem_of_cons; done.
      * intros Hout Hin. apply Hout. by right.
Qed.

(** The first of the values under the label [c] is the one that [row_get]
    reads. *)
Lemma select_all_row_get c : ∀ cols r,
  c ∈ cols → head (select_all cols r None c) = Some (row_get cols r c).
Proof.
  induction cols as [|k cols IH]; intros r Hin; [by apply elem_of_nil in Hin|].
  cbn [select_all]. destruct (decide (k = c)) as [->|Hne].
  - destruct r as [|x r]; cbn [row_get head tail default]; [done|].
    by rewrite ?decide_True.
  - apply elem_of_cons in Hin as [->|Hin]; [done|].
    rewrite IH by done. destruct r as [|x r]; cbn [row_get tail].
    + by destruct cols.
    + by rewrite ?decide_False.
Qed.

Lemma select_all_length {A B} (d : A) (d' : B) c : ∀ cols (xs : list A) (ys : list B),
  length (select_all cols xs d c) = length (select_all cols ys d' c).
Proof.
  induction cols as [|k cols IH]; intros xs ys; [done|].
  cbn [select_all]. destruct (decide (k = c)); simpl; by rewrite (IH _ (tail ys)).
Qed.

(** A label that names one column only. *)
Lemma select_all_single c : ∀ cols (r : row),
  length (select_all cols cols c c) = 1%nat →
  select_all cols r None c = [row_get cols r c].
Proof.
  intros cols r Hlen.
  assert (c ∈ cols) as Hin.
  { destruct (decide (c ∈ cols)) as [|Hout]; [done|].
    apply (select_all_nil c c cols cols) in Hout. by rewrite Hout in Hlen. }
  pose proof (select_all_row_get c cols r Hin) as Hhead.
  rewrite (select_all_length c None c cols cols r) in Hlen.
  destruct (select_all cols r None c) as [|v [|v' l]]; simpl in *; try done.
  by inversion Hhead.
Qed.



Lemma localize_column_spec ok c df df' :
  localize_column ok c df = Ok df' →
  columns df' = columns df
  ∧ c ∈ columns df
  ∧ select_all (columns df) (dtypes df) DtObject c = [DtDatetime None]
  ∧ localize_rows ok (columns df) c (rows df) = Ok (rows df')
  ∧ Forall2 (λ r r',
      (is_Some (row_get (columns df) r c) →
       ∃ t, row_get (columns df) r' c = Some (CTimestamp t (Some "America/New_York")))
      ∧ ∀ c', c' ≠ c → row_get (columns df) r' c' = row_get (columns df) r c')
      (rows df) (rows df').
Proof.
  unfold localize_column.
  destruct (select_all (columns df) (dtypes df) DtObject c)
    as [|[| | |[z|]] [|t2 l]] eqn:Hsel; try done.
  destruct (localize_rows _ _ _ _) as [rs|] eqn:Hl; [|done].
  intros [= <-]. simpl. split_and!; [done| |done|done|].
  - destruct (decide (c ∈ columns df)) as [|Hout]; [done|].
    apply (select_all_nil DtObject c (columns df) (dtypes df)) in Hout.
    by rewrite Hout in Hsel.
  - exact (localize_rows_spec ok _ _ _ _ Hl).
Qed.

Lemma dropna_spec subset df df' :
  dropna subset df = Ok df' →
  columns df' = columns df
  ∧ rows df' = filter (notna (columns df) subset) (rows df)
  ∧ Forall (λ c, c ∈ columns df) subset
  ∧ dtypes df' = dtypes df.
Proof.
  unfold dropna. destruct (list_find _ subset) as [[i c]|] eqn:Hfind; [done|].
  intros [= <-]. split_and!; try done.
  apply list_find_None in Hfind.
  eapply Forall_impl; [exact Hfind|]. intros c Hc. simpl in Hc.
  by apply dec_stable.
Qed.

End pandas_props.

(** ** The transform and the COPY import *)

Module importer_props.
Import import_to_postgres.
Import pandas_props.

Lemma same_but_faults_extended w w' :
  same_but_faults w w' → trips_extended_by [] w w'.
Proof.
  intros (?&?&?&?&Hpg&?). unfold trips_extended_by.
  rewrite Hpg, app_nil_r. by split_and!.
Qed.

Lemma trips_extended_by_trans s1 s2 w1 w2 w3 :
  trips_extended_by s1 w1 w2 → trips_extended_by s2 w2 w3 →
  trips_extended_by (s1 ++ s2) w1 w3.
Proof.
  intros (?&?&?&?&?&?&Ht1) (?&?&?&?&?&?&Ht2). unfold trips_extended_by.
  rewrite Ht2, Ht1, app_assoc. split_and!; congruence.
Qed.

Lemma try_finally_close {A} (m : M A) w : try_finally m close w = m w.
Proof. unfold try_finally, close, ret. by destruct (m w). Qed.

Lemma read_parquet_frame f w r w' :
  read_parquet f w = (r, w') → same_but_faults w w'.
Proof.
  unfold read_parquet. intros H.
  apply bind_inv in H as [([]&w1&Hio&H)|(e&Hio&->)];
    apply io_call_frame in Hio; [|done].
  destruct (fs w1 !! f); [destruct (parquet_codec _ _)|];
    by inversion H; subst.
Qed.

Lemma read_parquet_no_fault f w :
  io_faults w = [] →
  read_parquet f w =
    (match fs w !! f with
     | None => Raise FileNotFoundError
     | Some bytes =>
         match parquet_codec (env w) bytes with
         | None => Raise ArrowInvalid
         | Some df => Ok df
         end
     end, w).
Proof.
  intros Hf. unfold read_parquet.
  rewrite (bind_Ok _ _ _ _ _ (io_call_no_fault _ _ Hf)).
  destruct (fs w !! f); [destruct (parquet_codec _ _)|]; done.
Qed.

Lemma clean_df_frame f w r w' :
  clean_df f w = (r, w') → same_but_faults w w'.
Proof.
  unfold clean_df, lift, ask, ret. intros H.
  apply bind_inv in H as [(raw&w1&Hrd&H)|(e&Hrd&->)];
    apply read_parquet_frame in Hrd; [|done].
  unfold bind in H.
  destruct (pandas.dropna _ _); [|by inversion H; subst].
  destruct (pandas.localize_column _ _ _); [|by inversion H; subst].
  destruct (pandas.localize_column _ _ _); by inversion H; subst.
Qed.

Lemma clean_df_no_fault f w :
  io_faults w = [] → clean_df f w = (transform (env w) (fs w !! f), w).
Proof.
  intros Hf. unfold clean_df, transform.
  unfold bind at 1. rewrite read_parquet_no_fault by done.
  destruct (fs w !! f) as [bytes|]; [|done].
  destruct (parquet_codec (env w) bytes) as [raw|]; [|done].
  unfold bind, lift, ask, ret.
  destruct (pandas.dropna _ _); [|done].
  destruct (pandas.localize_column _ _ _); [|done].
  by destruct (pandas.localize_column _ _ _).
Qed.

Lemma clean_df_transform f w df w' :
  clean_df f w = (Ok df, w') → transform (env w) (fs w !! f) = Ok df.
Proof.
  unfold clean_df, transform, read_parquet. intros H.
  apply bind_inv in H as [(raw&w1&Hrd&H)|(e&Hrd&?)]; [|done].
  apply bind_inv in Hrd as [([]&w0&Hio&Hrd)|(e&Hio&?)]; [|done].
  apply io_call_frame in Hio as (He&Hfs&_). rewrite He, Hfs in Hrd.
  destruct (fs w !! f) as [bytes|]; [|done].
  destruct (parquet_codec (env w) bytes) as [raw'|]; [|done].
  inversion Hrd; subst.
  unfold bind, lift, ask, ret in H. rewrite ?He in H.
  destruct (pandas.dropna _ _); [|done].
  destruct (pandas.localize_column _ _ _); [|done].
  destruct (pandas.localize_column _ _ _); by inversion H.
Qed.

Lemma copy_line_spec e cols line r :
  copy_line e cols line = Ok r → not_null_ok r ∧ length line = length cols.
Proof.
  unfold copy_line. case_decide as Hlen; [|done].
  destruct (mapM _ _) as [fields|]; [|done].
  case_decide as Hnn; [|done]. by intros [= <-].
Qed.

Lemma copy_lines_spec e cols : ∀ buf staged,
  copy_lines e cols buf = Ok staged →
  Forall not_null_ok staged ∧ length staged = length buf
  ∧ Forall2 (λ line r, copy_line e cols line = Ok r) buf staged.
Proof.
  induction buf as [|line rest IH]; intros staged; simpl.
  - intros [= <-]. by split_and!.
  - destruct (copy_line e cols line) as [r|] eqn:Hline; [|done].
    destruct (copy_lines e cols rest) as [rs|] eqn:Hrest; [|done].
    intros [= <-]. destruct (IH rs eq_refl) as (Hnn&Hlen&Hall).
    apply copy_line_spec in Hline as Hr. destruct Hr as [Hr _].
    split_and!; [by constructor|by simpl; rewrite Hlen|by constructor].
Qed.

Lemma copy_expert_spec cols buf w r w' :
  copy_expert cols buf w = (r, w') →
  same_but_faults w w'
  ∧ ∀ staged, r = Ok staged →
      copy_lines (env w) cols buf = Ok staged
      ∧ Forall not_null_ok staged ∧ length staged = length buf.
Proof.
  unfold copy_expert. intros H.
  apply bind_inv in H as [([]&w1&Hio&H)|(e&Hio&->)];
    apply io_call_frame in Hio; [|done].
  unfold ask, lift in H. unfold bind in H.
  destruct Hio as (He&Hrest). rewrite He in H.
  inversion H; subst. split; [by split|].
  intros staged Hst. split; [done|].
  by destruct (copy_lines_spec _ _ _ _ Hst) as (?&?&_).
Qed.

Lemma commit_spec staged w r w' :
  commit staged w = (r, w') →
  (r = Ok tt ∧ trips_extended_by staged w w')
  ∨ ((∃ e, r = Raise e) ∧ same_but_faults w w').
Proof.
  unfold commit. intros H.
  apply bind_inv in H as [([]&w1&Hio&H)|(e&Hio&->)];
    apply io_call_frame in Hio as Hfr.
  - left. inversion H; subst. split; [done|].
    destruct Hfr as (?&?&?&?&Hpg&?). unfold trips_extended_by. simpl.
    rewrite Hpg. by split_and!.
  - right. eauto.
Qed.

(** What one call of [import_parquet_copy] does: it never raises, it leaves
    the ledger alone, and the rows it adds to the trip table are those it
    reports. *)
Lemma import_parquet_copy_effect file_path w r w' :
  import_parquet_copy file_path w = (r, w') →
  ∃ o staged,
    r = Ok o ∧ trips_extended_by staged w w' ∧ Forall not_null_ok staged
    ∧ (o = None → staged = [])
    ∧ (∀ n, o = Some n → n = Z.of_nat (length staged)).
Proof.
  unfold import_parquet_copy, try_except.
  destruct (import_parquet_copy_try file_path w) as [[o|e] w1] eqn:Hbody;
    unfold import_parquet_copy_try in Hbody.
  2:{ intros [= <- <-]. exists None, [].
      assert (same_but_faults w w1) as Hfr.
      2:{ split_and!; try done. by apply same_but_faults_extended. }
      apply bind_inv in Hbody as [(df&w2&Hc&H)|(e'&Hc&_)];
        apply clean_df_frame in Hc; [|done].
      destruct (pandas.empty df); [by unfold ret in H|].
      apply bind_inv in H as [([]&w3&Hrc&H)|(e'&Hrc&_)];
        apply io_call_frame in Hrc; [|by eauto using same_but_faults_trans].
      apply bind_inv in H as [([]&w4&Htf&H)|(e'&Htf&_)]; [by unfold ret in H|].
      rewrite !try_finally_close in Htf.
      apply bind_inv in Htf as [(staged&w5&Hcp&Hcm)|(e''&Hcp&_)];
        apply copy_expert_spec in Hcp as [Hcp _];
        [|by eauto using same_but_faults_trans].
      apply commit_spec in Hcm as [[? _]|[_ Hcm]]; [done|].
      eauto using same_but_faults_trans. }
  intros [= Hr Hw]. subst r w'.
  apply bind_inv in Hbody as [(df&w2&Hc&H)|(e'&Hc&?)];
    apply clean_df_frame in Hc; [|done].
  destruct (pandas.empty df).
  { unfold ret in H. inversion H; subst. exists (Some 0), [].
    split_and!; auto using same_but_faults_extended.
    by intros n [= <-]. }
  apply bind_inv in H as [([]&w3&Hrc&H)|(e'&Hrc&?)];
    apply io_call_frame in Hrc; [|done].
  apply bind_inv in H as [([]&w4&Htf&H)|(e'&Htf&?)]; [|done].
  rewrite !try_finally_close in Htf.
  apply bind_inv in Htf as [(staged&w5&Hcp&Hcm)|(e''&Hcp&?)]; [|done].
  apply copy_expert_spec in Hcp as [Hcp Hst].
  destruct (Hst staged eq_refl) as (Hstaged&Hnn&Hlen).
  apply commit_spec in Hcm as [[_ Hcm]|[[? ?] _]]; [|done].
  unfold ret in H. inversion H; subst o w4.
  exists (Some (pandas.len (pandas.project
            (filter (λ c, c ∈ columns df) target_cols) df))), staged.
  split_and!; try done.
  - apply (trips_extended_by_trans [] staged w w5 w1); [|done].
    apply same_but_faults_extended. eauto using same_but_faults_trans.
  - intros n [= <-]. unfold pandas.len. by rewrite Hlen.
Qed.

Lemma import_parquet_copy_no_fault file_path w :
  io_faults w = [] →
  import_parquet_copy file_path w =
    match transform (env w) (fs w !! file_path) with
    | Raise _ => (Ok None, w)
    | Ok df =>
        if pandas.empty df then (Ok (Some 0), w)
        else
          match staged_rows (env w) df with
          | Ok staged =>
              (Ok (Some (Z.of_nat (length staged))), with_trips staged w)
          | Raise _ => (Ok None, w)
          end
    end.
Proof.
  intros Hf. unfold import_parquet_copy, import_parquet_copy_try, try_except.
  unfold bind at 1. rewrite clean_df_no_fault by done.
  destruct (transform _ _) as [df|e]; [|done].
  destruct (pandas.empty df); [done|].
  unfold raw_connection.
  rewrite (bind_Ok _ _ _ _ _ (io_call_no_fault _ _ Hf)).
  unfold bind at 1. rewrite !try_finally_close.
  unfold copy_expert.
  unfold bind at 1. rewrite (bind_Ok _ _ _ _ _ (io_call_no_fault _ _ Hf)).
  unfold ask, lift. unfold bind.
  fold (staged_rows (env w) df).
  destruct (staged_rows (env w) df) as [staged|x] eqn:Hst; [|done].
  unfold commit.
  rewrite (bind_Ok _ _ _ _ _ (io_call_no_fault _ _ Hf)).
  unfold ret, pandas.len.
  apply copy_lines_spec in Hst as (_&Hlen&_). by rewrite Hlen.
Qed.

Lemma has_timestamps_iff cols r :
  has_timestamps cols r ↔
  is_Some (pandas.row_get cols r "tpep_pickup_datetime")
  ∧ is_Some (pandas.row_get cols r "tpep_dropoff_datetime").
Proof.
  unfold has_timestamps, pandas.notna.
  rewrite !Forall_cons, Forall_nil. tauto.
Qed.

Lemma Forall2_transfer {A} (P Q : A → Prop) (R : A → A → Prop) l l' :
  (∀ x y, P x → R x y → Q y) → Forall P l → Forall2 R l l' → Forall Q l'.
Proof.
  intros HPQ HP HR. induction HR as [|x y l l' Hxy _ IH]; [constructor|].
  apply Forall_cons in HP as [Hx HP]. constructor; eauto.
Qed.

(** The transform keeps exactly the rows whose two timestamps are present, and
    anchors both to America/New_York. *)
Lemma transform_spec e content df :
  transform e content = Ok df →
  ∃ bytes raw,
    content = Some bytes ∧ parquet_codec e bytes = Some raw
    ∧ columns df = columns (pandas.rename column_mapping raw)
    ∧ length (rows df)
      = length (filter (has_timestamps (columns (pandas.rename column_mapping raw)))
                  (rows raw))
    ∧ Forall (has_ny_timestamps (columns df)) (rows df).
Proof.
  unfold transform. destruct content as [bytes|]; [|done].
  destruct (parquet_codec e bytes) as [raw|] eqn:Hraw; [|done].
  destruct (pandas.dropna _ _) as [df1|] eqn:H1; [|done].
  destruct (pandas.localize_column _ _ df1) as [df2|] eqn:H2; [|done].
  intros H3. exists bytes, raw.
  apply dropna_spec in H1 as (Hc1&Hr1&_).
  apply localize_column_spec in H2 as (Hc2&_&_&_&Hf2).
  apply localize_column_spec in H3 as (Hc3&_&_&_&Hf3).
  rewrite Hc2 in Hf3. rewrite Hc3, Hc2, Hc1. simpl in *.
  split_and!; try done.
  - rewrite <-(Forall2_length _ _ _ Hf3), <-(Forall2_length _ _ _ Hf2), Hr1.
    done.
  - assert (Forall (has_timestamps (columns df1)) (rows df1)) as Hall.
    { rewrite Hr1, Hc1. apply Forall_forall. intros r Hr.
      by apply list_elem_of_filter in Hr as [Hr _]. }
    rewrite <-Hc1.
    eapply (Forall2_transfer
              (λ r, (∃ t, pandas.row_get (columns df1) r "tpep_pickup_datetime"
                          = Some (CTimestamp t (Some "America/New_York")))
                    ∧ is_Some (pandas.row_get (columns df1) r "tpep_dropoff_datetime")));
      [| |exact Hf3].
    + intros r2 r3 [[t Hp] Hd] [Hloc Hother]. split.
      * exists t. by rewrite Hother.
      * by apply Hloc.
    + eapply (Forall2_transfer (has_timestamps (columns df1))); [|exact Hall|exact Hf2].
      intros r1 r2 Hts [Hloc Hother]. apply has_timestamps_iff in Hts as [Hp Hd].
      split; [by apply Hloc|]. by rewrite Hother.
Qed.


Lemma log_import_spec name n w r w' :
  log_import name n w = (r, w') →
  (r = Ok tt ∧ (name ∉ file_name <$> import_log (postgres w))
   ∧ ∃ w0, same_but_faults w w0 ∧ w' = with_log_entry name n w0)
  ∨ ((∃ e, r = Raise e) ∧ same_but_faults w w').
Proof.
  unfold log_import, ask. intros H. unfold bind at 1 in H.
  apply bind_inv in H as [([]&w1&Hio&H)|(e&Hio&->)];
    apply io_call_frame in Hio as Hfr; [|right; eauto].
  destruct Hfr as (He&Hfs&Hrm&Hrq&Hpg&Hdk).
  case_decide as Hin; inversion H; subst.
  - right. split; [eauto|]. by repeat split.
  - left. split_and!; [done|by rewrite <-Hpg|].
    exists w1. split; [by repeat split|].
    unfold with_log_entry. by rewrite He.
Qed.


Lemma batch_effect_trans s1 a1 s2 a2 w1 w2 w3 :
  batch_effect s1 a1 w1 w2 → batch_effect s2 a2 w2 w3 →
  batch_effect (s1 ++ s2) (a1 ++ a2) w1 w3.
Proof.
  intros (?&?&?&?&?&Ht1&Hl1) (?&?&?&?&?&Ht2&Hl2). unfold batch_effect.
  rewrite Ht2, Ht1, Hl2, Hl1, !app_assoc. split_and!; congruence.
Qed.

Lemma trips_extended_batch staged w w' :
  trips_extended_by staged w w' → batch_effect staged [] w w'.
Proof.
  intros (?&?&?&?&?&Hl&?). unfold batch_effect.
  rewrite Hl, app_nil_r. by split_and!.
Qed.

Lemma same_but_faults_batch w w' :
  same_but_faults w w' → batch_effect [] [] w w'.
Proof.
  intros H. by apply trips_extended_batch, same_but_faults_extended.
Qed.

Lemma with_log_entry_batch name n w :
  batch_effect [] [{| file_name := name; import_date := clock_utc (env w);
                      rows_imported := n |}] w (with_log_entry name n w).
Proof. unfold batch_effect. simpl. rewrite app_nil_r. by split_and!. Qed.

Lemma collect_cons fpath rest total ok w :
  collect (fpath :: rest) total ok w
  = bind (collect_one fpath total ok) (λ c, collect rest (fst c) (snd c)) w.
Proof.
  simpl. unfold collect_one, bind.
  by destruct (import_parquet_copy fpath w) as [[o|e] w1].
Qed.

(** One turn of the loop never raises; it adds to the trip table the rows the
    import reported, and to the ledger at most one entry, which is then
    counted. *)
Lemma collect_one_spec fpath total ok w :
  ∃ total' ok' w' staged added,
    collect_one fpath total ok w = (Ok (total', ok'), w')
    ∧ batch_effect staged added w w'
    ∧ Forall not_null_ok staged
    ∧ ok' = ok + Z.of_nat (length added)
    ∧ total' = total + logged_rows added
    ∧ (added = []
       ∨ added = [{| file_name := pathlib.name fpath;
                     import_date := clock_utc (env w);
                     rows_imported := Z.of_nat (length staged) |}]).
Proof.
  unfold collect_one.
  destruct (import_parquet_copy fpath w) as [r w1] eqn:Himp.
  destruct (import_parquet_copy_effect _ _ _ _ Himp)
    as (o&staged&->&Hext&Hnn&Hnone&Hsome).
  rewrite (bind_Ok _ _ _ _ _ Himp). unfold try_except.
  assert (∀ w', batch_effect [] [] w1 w' →
    ∃ total' ok' w'0 staged0 added,
      (Ok (total, ok), w') = (Ok (total', ok'), w'0)
      ∧ batch_effect staged0 added w w'0 ∧ Forall not_null_ok staged0
      ∧ ok' = ok + Z.of_nat (length added)
      ∧ total' = total + logged_rows added
      ∧ (added = []
         ∨ added = [{| file_name := pathlib.name fpath;
                       import_date := clock_utc (env w);
                       rows_imported := Z.of_nat (length staged0) |}]))
    as Hskip.
  { intros w' Hw'. exists total, ok, w', staged, [].
    split_and!; try done; [|simpl; lia|simpl; lia|by left].
    pose proof (batch_effect_trans _ _ _ _ _ _ _
                  (trips_extended_batch _ _ _ Hext) Hw') as Hb.
    by rewrite !app_nil_r in Hb. }
  destruct o as [n|].
  2:{ unfold ret. apply Hskip. by apply same_but_faults_batch, same_but_faults_refl. }
  rewrite (Hsome n eq_refl). rewrite decide_True by lia.
  destruct (log_import (pathlib.name fpath) (Z.of_nat (length staged)) w1)
    as [r2 w2] eqn:Hlog.
  destruct (log_import_spec _ _ _ _ _ Hlog)
    as [(->&Hfresh&w0&Hfr&->)|([e ->]&Hfr)].
  - rewrite (bind_Ok _ _ _ _ _ Hlog). unfold ret.
    exists (total + Z.of_nat (length staged)), (ok + 1),
      (with_log_entry (pathlib.name fpath) (Z.of_nat (length staged)) w0), staged,
      [{| file_name := pathlib.name fpath; import_date := clock_utc (env w);
          rows_imported := Z.of_nat (length staged) |}].
    split_and!; [done| |done|simpl; lia| |by right].
    + pose proof (batch_effect_trans _ _ _ _ _ _ _
        (batch_effect_trans _ _ _ _ _ _ _
           (trips_extended_batch _ _ _ Hext) (same_but_faults_batch _ _ Hfr))
        (with_log_entry_batch (pathlib.name fpath) (Z.of_nat (length staged)) w0))
        as Hb.
      rewrite !app_nil_r in Hb. simpl in Hb.
      destruct Hext as (He1&_). destruct Hfr as (He0&_).
      by rewrite He0, He1 in Hb.
    + unfold logged_rows. simpl. lia.
  - rewrite (bind_Raise _ _ _ _ _ Hlog). apply Hskip.
    by apply same_but_faults_batch.
Qed.


Lemma glob_parquet_eq dir w :
  pathlib.glob_parquet dir w = (Ok (listing dir (fs w)), w).
Proof. reflexivity. Qed.








Lemma logged_rows_app l1 l2 :
  logged_rows (l1 ++ l2) = logged_rows l1 + logged_rows l2.
Proof.
  unfold logged_rows. induction l1 as [|x l1 IH]; simpl; [done|].
  rewrite IH. lia.
Qed.



Lemma has_slash_app pre entry :
  pathlib.has_slash (pre +:+ "/" +:+ entry) = true.
Proof.
  induction pre as [|c pre IH]; [done|].
  change (String c pre +:+ "/" +:+ entry) with (String c (pre +:+ "/" +:+ entry)).
  cbn [pathlib.has_slash]. rewrite IH. by destruct (decide (c = "/"%char)).
Qed.

Lemma name_of_entry pre entry :
  pathlib.has_slash entry = false →
  pathlib.name (pre +:+ "/" +:+ entry) = entry.
Proof.
  intros Hns. induction pre as [|c pre IH].
  - change ("" +:+ "/" +:+ entry) with (String "/" entry).
    cbn [pathlib.name]. by rewrite Hns.
  - change (String c pre +:+ "/" +:+ entry) with (String c (pre +:+ "/" +:+ entry)).
    cbn [pathlib.name]. by rewrite has_slash_app.
Qed.

Lemma strip_prefix_Some pre : ∀ s rest,
  pathlib.strip_prefix pre s = Some rest → s = pre +:+ rest.
Proof.
  induction pre as [|a pre IH]; intros [|b s] rest; simpl; try done.
  - by intros [= <-].
  - by intros [= <-].
  - destruct (decide (a = b)) as [->|]; [|done].
    intros H. by rewrite (IH _ _ H).
Qed.

Lemma string_app_assoc (a b c : string) : (a +:+ b) +:+ c = a +:+ (b +:+ c).
Proof.
  induction a as [|x a IH]; [done|].
  change (String x ((a +:+ b) +:+ c) = String x (a +:+ b +:+ c)).
  by rewrite IH.
Qed.

(** A path found by the glob is the directory, a slash, and its name. *)
Lemma listing_path dir files p :
  p ∈ listing dir files → p = dir +:+ "/" +:+ pathlib.name p.
Proof.
  unfold listing. intros Hp. apply list_elem_of_filter in Hp as [Hm _].
  unfold pathlib.matches_parquet in Hm.
  destruct (pathlib.strip_prefix _ p) as [entry|] eqn:Hs; [|done].
  apply strip_prefix_Some in Hs. rewrite string_app_assoc in Hs.
  apply andb_prop_elim in Hm as [Hns _]. apply negb_prop_elim in Hns.
  assert (pathlib.has_slash entry = false) as Hns'.
  { destruct (pathlib.has_slash entry); [by destruct Hns|done]. }
  rewrite Hs at 2. by rewrite name_of_entry.
Qed.

Lemma listing_names_NoDup dir files :
  NoDup (pathlib.name <$> listing dir files).
Proof.
  apply NoDup_fmap_2_strong.
  - intros p q Hp Hq Hname.
    rewrite (listing_path _ _ _ Hp), (listing_path _ _ _ Hq). by rewrite Hname.
  - unfold listing. apply NoDup_filter, NoDup_fst_map_to_list.
Qed.

Lemma sorted_Permutation l : pathlib.sorted l ≡ₚ l.
Proof. apply merge_sort_Permutation. Qed.


End importer_props.

(** ** The DuckDB importer *)

Module duckdb_props.
Import import_to_duckdb.

Lemma same_but_duckdb_refl w : same_but_duckdb w w.
Proof. by repeat split. Qed.

Lemma same_but_duckdb_trans w1 w2 w3 :
  same_but_duckdb w1 w2 → same_but_duckdb w2 w3 → same_but_duckdb w1 w3.
Proof. intros (?&?&?&?&?) (?&?&?&?&?). repeat split; congruence. Qed.

Lemma filter_nonempty_iff {A} (P : A → Prop) `{∀ x, Decision (P x)} (l : list A) :
  Z.of_nat (length (filter P l)) > 0 ↔ ∃ x, x ∈ l ∧ P x.
Proof.
  split.
  - destruct (filter P l) as [|x l'] eqn:Hf; simpl; [lia|]. intros _.
    assert (x ∈ filter P l) as Hx by (rewrite Hf; by left).
    apply list_elem_of_filter in Hx as [? ?]. eauto.
  - intros (x&Hx&HP).
    assert (x ∈ filter P l) as Hin by (by apply list_elem_of_filter).
    destruct (filter P l); [by apply not_elem_of_nil in Hin|]. simpl. lia.
Qed.

Lemma is_file_imported_eq name w :
  is_file_imported name w
  = (Ok (bool_decide (name ∈ file_name <$> duck_log (view (duckdb w)))), w).
Proof.
  unfold is_file_imported. do 2 f_equal. apply bool_decide_ext.
  rewrite filter_nonempty_iff, list_elem_of_fmap. split.
  - intros (entry&Hin&Hname). by exists entry.
  - intros (entry&Hname&Hin). by exists entry.
Qed.

Lemma conn_begin_spec w :
  txn (duckdb w) = None →
  ∃ w', conn_begin w = (Ok tt, w') ∧ same_but_duckdb w w'
        ∧ io_faults w' = io_faults w
        ∧ in_txn (committed (duckdb w)) w'
        ∧ view (duckdb w') = committed (duckdb w).
Proof.
  intros Hn. unfold conn_begin. rewrite Hn. eexists. split; [done|].
  unfold in_txn. simpl. split_and!; by eauto.
Qed.

Lemma insert_select_parquet_spec path base w r w' :
  in_txn base w →
  insert_select_parquet path w = (r, w') →
  same_but_duckdb w w' ∧ in_txn base w'
  ∧ (r = Ok tt →
     ∃ rs,
       duck_loadable (env w) (fs w) path rs
       ∧ view (duckdb w')
         = {| duck_trips := duck_trips (view (duckdb w)) ++ rs;
              duck_log := duck_log (view (duckdb w)) |}).
Proof.
  intros [Hb [t Ht]]. unfold insert_select_parquet. intros H.
  destruct (has_quote path) eqn:Hq.
  { unfold raise in H. inversion H; subst.
    split_and!; [apply same_but_duckdb_refl|by split; eauto|done]. }
  apply bind_inv in H as [([]&w1&Hio&H)|(e&Hio&->)];
    apply io_call_frame in Hio as Hfr.
  2:{ destruct Hfr as (?&?&?&?&?&Hd). unfold in_txn. rewrite Hd.
      split_and!; by eauto. }
  destruct Hfr as (He&Hfs&Hrm&Hrq&Hpg&Hd).
  assert (same_but_duckdb w w1 ∧ in_txn base w1) as [Hs1 Hi1].
  { unfold in_txn. rewrite Hd. split; [by repeat split|by eauto]. }
  rewrite Hfs, He in H.
  destruct (fs w !! path) as [bytes|] eqn:Hfile; [|by inversion H; subst].
  destruct (parquet_codec (env w) bytes) as [df|] eqn:Hcodec;
    [|by inversion H; subst].
  case_decide as Hlen; [|by inversion H; subst].
  destruct (duck_rows (env w) df) as [rs|] eqn:Hrows; [|by inversion H; subst].
  inversion H; subst.
  unfold in_txn, view, write. simpl. rewrite Hd, Ht. simpl.
  split_and!; try done. intros _. exists rs. split; [|done].
  split; [done|]. by exists bytes, df.
Qed.

Lemma insert_import_log_spec name n base w r w' :
  in_txn base w →
  insert_import_log name n w = (r, w') →
  same_but_duckdb w w' ∧ in_txn base w'
  ∧ (r = Ok tt →
     (name ∉ file_name <$> duck_log (view (duckdb w)))
     ∧ view (duckdb w')
       = {| duck_trips := duck_trips (view (duckdb w));
            duck_log := duck_log (view (duckdb w))
              ++ [{| file_name := name; import_date := clock_utc (env w);
                     rows_imported := n |}] |}).
Proof.
  intros [Hb [t Ht]]. unfold insert_import_log, ask. intros H.
  unfold bind at 1 in H.
  apply bind_inv in H as [([]&w1&Hio&H)|(e&Hio&->)];
    apply io_call_frame in Hio as Hfr.
  2:{ destruct Hfr as (?&?&?&?&?&Hd). unfold in_txn. rewrite Hd.
      split_and!; by eauto. }
  destruct Hfr as (He&Hfs&Hrm&Hrq&Hpg&Hd).
  rewrite Hd in H.
  case_decide as Hin; inversion H; subst.
  - unfold in_txn. rewrite Hd. split_and!; by eauto.
  - unfold in_txn, view, write in *. simpl. rewrite Hd, Ht in *. simpl.
    split_and!; by eauto.
Qed.

Lemma conn_commit_spec base w r w' :
  in_txn base w →
  conn_commit w = (r, w') →
  same_but_duckdb w w' ∧ txn (duckdb w') = None
  ∧ ((r = Ok tt ∧ committed (duckdb w') = view (duckdb w))
     ∨ ((∃ e, r = Raise e) ∧ committed (duckdb w') = base)).
Proof.
  intros [Hb [t Ht]]. unfold conn_commit. rewrite Ht.
  destruct (io_call OSError w) as [[[]|e] w1] eqn:Hio;
    apply io_call_frame in Hio as (He&Hfs&Hrm&Hrq&Hpg&Hd);
    intros [= <- <-]; simpl.
  - split_and!; [by repeat split|done|]. left. unfold view. by rewrite Ht.
  - split_and!; [by repeat split|done|]. right. rewrite Hd. by eauto.
Qed.

Lemma conn_rollback_spec base w :
  in_txn base w →
  ∃ w', conn_rollback w = (Ok tt, w') ∧ same_but_duckdb w w'
        ∧ io_faults w' = io_faults w
        ∧ duckdb w' = {| committed := base; txn := None |}.
Proof.
  intros [Hb [t Ht]]. unfold conn_rollback. rewrite Ht. eexists.
  split; [done|]. simpl. rewrite Hb. by split_and!.
Qed.

Lemma conn_rollback_outside w :
  txn (duckdb w) = None → conn_rollback w = (Raise TransactionException, w).
Proof. intros Hn. unfold conn_rollback. by rewrite Hn. Qed.

(** The [try] block either commits the rows of the file together with its
    ledger entry, or raises inside the transaction it opened, the committed
    tables untouched, or raises in the commit, which ends the transaction
    with the committed tables untouched. *)
Lemma import_parquet_try_spec file_path name w r w1 :
  txn (duckdb w) = None →
  import_parquet_try file_path name w = (r, w1) →
  same_but_duckdb w w1
  ∧ ((r = Ok true ∧ txn (duckdb w1) = None
      ∧ (name ∉ file_name <$> duck_log (committed (duckdb w)))
      ∧ ∃ rs,
          duck_loadable (env w) (fs w) file_path rs
          ∧ committed (duckdb w1)
            = duck_imported name (clock_utc (env w)) rs (committed (duckdb w)))
     ∨ ((∃ e, r = Raise e) ∧ in_txn (committed (duckdb w)) w1)
     ∨ ((∃ e, r = Raise e) ∧ txn (duckdb w1) = None
        ∧ committed (duckdb w1) = committed (duckdb w)
        ∧ ∃ rs, duck_loadable (env w) (fs w) file_path rs)).
Proof.
  intros Hn. unfold import_parquet_try. intros H.
  destruct (conn_begin_spec w Hn) as (wb&Hbegin&Hsb&_&Hin&Hview).
  rewrite (bind_Ok _ _ _ _ _ Hbegin) in H.
  unfold count_trips at 1 in H. unfold bind at 1 in H.
  apply bind_inv in H as [([]&w2&Hins&H)|(e&Hins&->)];
    apply (insert_select_parquet_spec _ _ _ _ _ Hin) in Hins as (Hs2&Hin2&Hok2).
  2:{ split; [by eauto using same_but_duckdb_trans|]. right. left. by eauto. }
  destruct (Hok2 eq_refl) as (rs&Hload&Hview2).
  unfold count_trips at 1 in H. unfold bind at 1 in H.
  apply bind_inv in H as [([]&w3&Hlog&H)|(e&Hlog&->)];
    apply (insert_import_log_spec _ _ _ _ _ _ Hin2) in Hlog as (Hs3&Hin3&Hok3).
  2:{ split; [by eauto using same_but_duckdb_trans|]. right. left. by eauto. }
  destruct (Hok3 eq_refl) as (Hfresh&Hview3).
  apply bind_inv in H as [([]&w4&Hcm&H)|(e&Hcm&->)];
    apply (conn_commit_spec _ _ _ _ Hin3) in Hcm as (Hs4&Hn4&Hcm).
  2:{ split; [by eauto using same_but_duckdb_trans|]. right. right.
      destruct Hcm as [(?&_)|(_&?)]; [done|].
      destruct Hsb as (Heb&Hfsb&_). rewrite <-Hfsb, <-Heb. by eauto 10. }
  destruct Hcm as [(_&Hcommitted)|([? ?]&_)]; [|done].
  unfold ret in H. inversion H; subst r w4.
  split; [by eauto using same_but_duckdb_trans|]. left.
  destruct Hsb as (Heb&Hfsb&_). destruct Hs2 as (He2&_).
  rewrite Hview2, Hview in Hfresh. simpl in Hfresh.
  split_and!; try done.
  exists rs. rewrite <-Hfsb, <-Heb. split; [done|].
  rewrite Hcommitted, Hview3, Hview2, Hview, He2. unfold duck_imported. simpl.
  do 4 f_equal. rewrite length_app. lia.
Qed.

(** All or nothing: when [import_parquet] does not return [True] the
    committed tables are what they were, and when it returns [True] the file
    either was in the ledger already, nothing changing, or is now there
    together with the rows of the file.  It raises only when the commit
    failed: the rollback of the handler then finds no transaction. *)
Lemma import_parquet_spec file_path w :
  txn (duckdb w) = None →
  ∃ r w',
    import_parquet file_path w = (r, w')
    ∧ same_but_duckdb w w' ∧ txn (duckdb w') = None
    ∧ match r with
      | Ok true =>
          (pathlib.name file_path ∈ file_name <$> duck_log (committed (duckdb w))
           ∧ w' = w)
          ∨ ((pathlib.name file_path ∉ file_name <$> duck_log (committed (duckdb w)))
             ∧ ∃ rs,
                 duck_loadable (env w) (fs w) file_path rs
                 ∧ committed (duckdb w')
                   = duck_imported (pathlib.name file_path) (clock_utc (env w)) rs
                       (committed (duckdb w)))
      | Ok false => committed (duckdb w') = committed (duckdb w)
      | Raise e =>
          e = TransactionException
          ∧ committed (duckdb w') = committed (duckdb w)
          ∧ ∃ rs, duck_loadable (env w) (fs w) file_path rs
      end.
Proof.
  intros Hn. unfold import_parquet.
  rewrite (bind_Ok _ _ _ _ _ (is_file_imported_eq _ w)).
  assert (view (duckdb w) = committed (duckdb w)) as Hview.
  { unfold view. by rewrite Hn. }
  rewrite Hview. case_bool_decide as Hin.
  { exists (Ok true), w. unfold ret.
    split_and!; [done|apply same_but_duckdb_refl|done|]. by left. }
  unfold try_except.
  destruct (import_parquet_try _ _ w) as [r w1] eqn:Htry.
  apply import_parquet_try_spec in Htry
    as (Hs1&[(->&Htxn&_&Hdone)|[([e ->]&Hopen)|([e ->]&Hn1&Hcm&Hload)]]);
    try done.
  - exists (Ok true), w1. split_and!; [done|done|done|].
    right. split; [done|exact Hdone].
  - destruct (conn_rollback_spec _ _ Hopen) as (w2&Hrb&Hs2&_&Hd2).
    rewrite (bind_Ok _ _ _ _ _ Hrb). unfold ret. exists (Ok false), w2.
    rewrite Hd2. simpl.
    split_and!; [done|by eauto using same_but_duckdb_trans|done|done].
  - rewrite (bind_Raise _ _ _ _ _ (conn_rollback_outside _ Hn1)).
    exists (Raise TransactionException), w1. by split_and!.
Qed.

Lemma import_parquet_skips file_path w :
  pathlib.name file_path ∈ file_name <$> duck_log (view (duckdb w)) →
  import_parquet file_path w = (Ok true, w).
Proof.
  intros Hin. unfold import_parquet.
  rewrite (bind_Ok _ _ _ _ _ (is_file_imported_eq _ w)).
  by rewrite bool_decide_eq_true_2.
Qed.


Lemma for_file_all_skipped parquet_files : ∀ imported_count w,
  Forall (λ f, pathlib.name f ∈ file_name <$> duck_log (view (duckdb w)))
    parquet_files →
  for_file parquet_files imported_count w
  = (Ok (imported_count + Z.of_nat (length parquet_files)), w).
Proof.
  induction parquet_files as [|f rest IH]; intros c w Hall; simpl.
  - unfold ret. do 2 f_equal. lia.
  - apply Forall_cons in Hall as [Hf Hrest].
    rewrite (bind_Ok _ _ _ _ _ (import_parquet_skips f w Hf)).
    rewrite IH by done. do 2 f_equal. lia.
Qed.

Lemma duck_loadable_dec e files file_path :
  (∃ rs, duck_loadable e files file_path rs)
  ∨ ¬ (∃ rs, duck_loadable e files file_path rs).
Proof.
  unfold duck_loadable.
  destruct (has_quote file_path) eqn:Hq; [right; by intros (?&?&_)|].
  destruct (files !! file_path) as [bytes|] eqn:Hfile;
    [|right; by intros (?&_&?&?&?&_)].
  destruct (parquet_codec e bytes) as [df|] eqn:Hcodec.
  2:{ right. intros (?&_&b&d&Hb&Hd&_). congruence. }
  destruct (decide (length (columns df) = length duck_columns)) as [Hlen|Hlen].
  2:{ right. intros (?&_&b&d&Hb&Hd&?&_). congruence. }
  destruct (duck_rows e df) as [rs|] eqn:Hrows.
  - left. exists rs. split; [done|]. by exists bytes, df.
  - right. intros (?&_&b&d&Hb&Hd&?&?). congruence.
Qed.


Lemma import_parquet_try_no_fault file_path name w rs :
  io_faults w = [] →
  txn (duckdb w) = None →
  duck_loadable (env w) (fs w) file_path rs →
  (name ∉ file_name <$> duck_log (committed (duckdb w))) →
  ∃ w', import_parquet_try file_path name w = (Ok true, w')
        ∧ io_faults w' = [].
Proof.
  intros Hf Hn (Hq&bytes&df&Hfile&Hcodec&Hcols&Hrows) Hfresh.
  destruct w as [e files rm rq io pg [cm tx]]. simpl in *. subst io tx.
  unfold import_parquet_try, conn_begin, count_trips, insert_select_parquet,
    insert_import_log, conn_commit, ask, io_call, bind, ret. rewrite Hq. simpl.
  rewrite Hfile, Hcodec. rewrite decide_True by done. rewrite Hrows. simpl.
  rewrite decide_False by done. simpl. eauto.
Qed.

Lemma import_parquet_not_loadable file_path w :
  io_faults w = [] →
  txn (duckdb w) = None →
  (pathlib.name file_path ∉ file_name <$> duck_log (committed (duckdb w))) →
  ¬ (∃ rs, duck_loadable (env w) (fs w) file_path rs) →
  import_parquet file_path w = (Ok false, w).
Proof.
  intros Hf Hn Hfresh Hbad. unfold import_parquet.
  rewrite (bind_Ok _ _ _ _ _ (is_file_imported_eq _ w)).
  assert (view (duckdb w) = committed (duckdb w)) as Hview
    by (unfold view; by rewrite Hn).
  rewrite Hview, bool_decide_eq_false_2 by done.
  destruct w as [e files rm rq io pg [cm tx]]. simpl in *. subst io tx.
  unfold try_except, import_parquet_try, conn_begin, count_trips,
    insert_select_parquet, conn_rollback, io_call, bind, ret, raise.
  destruct (has_quote file_path) eqn:Hq; [done|]. simpl.
  destruct (files !! file_path) as [bytes|] eqn:Hfile; [|done].
  destruct (parquet_codec e bytes) as [df|] eqn:Hcodec; [|done].
  case_decide as Hc; [|done].
  destruct (duck_rows e df) as [rs|] eqn:Hrows; [|done].
  exfalso. apply Hbad. exists rs. split; [done|]. by exists bytes, df.
Qed.

(** One call of [import_parquet] when nothing outside the program fails. *)
Lemma import_parquet_no_fault_cases file_path w :
  io_faults w = [] →
  txn (duckdb w) = None →
  ∃ b w',
    import_parquet file_path w = (Ok b, w')
    ∧ io_faults w' = [] ∧ txn (duckdb w') = None
    ∧ env w' = env w ∧ fs w' = fs w
    ∧ (∀ x, x ∈ file_name <$> duck_log (committed (duckdb w)) →
            x ∈ file_name <$> duck_log (committed (duckdb w')))
    ∧ (∀ x, x ∈ file_name <$> duck_log (committed (duckdb w')) →
            x = pathlib.name file_path
            ∨ x ∈ file_name <$> duck_log (committed (duckdb w)))
    ∧ (b = true →
       pathlib.name file_path ∈ file_name <$> duck_log (committed (duckdb w'))
       ∧ (pathlib.name file_path ∈ file_name <$> duck_log (committed (duckdb w))
          ∨ ∃ rs, duck_loadable (env w) (fs w) file_path rs))
    ∧ (b = false →
       w' = w
       ∧ (pathlib.name file_path ∉ file_name <$> duck_log (committed (duckdb w)))
       ∧ ¬ (∃ rs, duck_loadable (env w) (fs w) file_path rs)).
Proof.
  intros Hf Hn.
  destruct (decide (pathlib.name file_path
                    ∈ file_name <$> duck_log (committed (duckdb w)))) as [Hin|Hout].
  { exists true, w. rewrite import_parquet_skips
      by (unfold view; by rewrite Hn).
    split_and!; try done; [|by auto]. intros x Hx. by right. }
  destruct (duck_loadable_dec (env w) (fs w) file_path) as [[rs Hload]|Hbad].
  2:{ exists false, w. rewrite import_parquet_not_loadable by done.
      split_and!; try done. intros x Hx. by right. }
  destruct (import_parquet_try_no_fault file_path (pathlib.name file_path)
              w rs Hf Hn Hload Hout) as (w'&Htry&Hf').
  assert (import_parquet file_path w = (Ok true, w')) as Himp.
  { unfold import_parquet.
    rewrite (bind_Ok _ _ _ _ _ (is_file_imported_eq _ w)).
    assert (view (duckdb w) = committed (duckdb w)) as Hview
      by (unfold view; by rewrite Hn).
    rewrite Hview, bool_decide_eq_false_2 by done.
    unfold try_except. by rewrite Htry. }
  destruct (import_parquet_spec file_path w Hn) as (r&w1&H1&Hsame&Hn1&Hr).
  rewrite Himp in H1. inversion H1; subst r w1.
  destruct Hr as [[? _]|(_&rs'&_&Hcm)]; [done|].
  destruct Hsame as (He&Hfs&_).
  exists true, w'. rewrite Hcm. unfold duck_imported. simpl.
  split_and!; try done.
  - intros x Hx. rewrite fmap_app. apply elem_of_app. by left.
  - intros x Hx. rewrite fmap_app in Hx. apply elem_of_app in Hx as [Hx|Hx];
      [by right|]. left. simpl in Hx.
    apply elem_of_cons in Hx as [->|Hx]; [done|by apply elem_of_nil in Hx].
  - intros _. split; [|by eauto]. rewrite fmap_app. apply elem_of_app. right.
    simpl. by left.
Qed.





End duckdb_props.

(** ** The import engine and the pipeline *)

Module pipeline_props.
Import pandas_props importer_props duckdb_props.

(** C1. The COPY path never consults the ledger: with no outside fault, when
    [import_parquet_copy] has imported the [n] rows of a file, a second call
    on the same file succeeds again with the same count and appends the same
    rows again, so that the trip table holds every row of the file twice. *)
Theorem import_parquet_copy_twice_duplicates_rows
    (file_path : string) (w w1 : World) (n : Z) :
  io_faults w = [] →
  import_to_postgres.import_parquet_copy file_path w = (Ok (Some n), w1) →
  ∃ staged w2,
    n = Z.of_nat (length staged)
    ∧ yellow_taxi_trips (postgres w1) = yellow_taxi_trips (postgres w) ++ staged
    ∧ import_to_postgres.import_parquet_copy file_path w1 = (Ok (Some n), w2)
    ∧ yellow_taxi_trips (postgres w2)
      = yellow_taxi_trips (postgres w) ++ staged ++ staged.
Proof.
  intros Hf H. rewrite import_parquet_copy_no_fault in H by done.
  destruct (transform (env w) (fs w !! file_path)) as [df|e] eqn:Ht; [|done].
  destruct (pandas.empty df) eqn:Hempty.
  - inversion H; subst. exists [], w1.
    rewrite import_parquet_copy_no_fault, Ht, Hempty by done.
    by rewrite !app_nil_r.
  - destruct (staged_rows (env w) df) as [staged|x] eqn:Hst; [|done].
    inversion H; subst.
    exists staged, (with_trips staged (with_trips staged w)).
    split_and!; [done|done| |by simpl; rewrite app_assoc].
    rewrite import_parquet_copy_no_fault by done. simpl.
    by rewrite Ht, Hempty, Hst.
Qed.

Lemma import_parquet_copy_twice_duplicates_rows_witness :
  let first :=
    import_to_postgres.import_parquet_copy example.january example.january_only in
  let second := import_to_postgres.import_parquet_copy example.january first.2 in
  first.1 = Ok (Some 2) ∧ second.1 = Ok (Some 2)
  ∧ length (yellow_taxi_trips (postgres second.2)) = 4%nat.
Proof.
  intros first second.
  assert (first = (Ok (Some 2), first.2)) as Hfirst by (vm_compute; reflexivity).
  destruct (import_parquet_copy_twice_duplicates_rows example.january
              example.january_only first.2 2 eq_refl Hfirst)
    as (staged&w2&Hlen&_&Hsecond&Htrips).
  assert (second = (Ok (Some 2), w2)) as -> by exact Hsecond.
  split; [by rewrite Hfirst|]. split; [done|].
  simpl. rewrite Htrips, !length_app. simpl.
  apply Nat2Z.inj. rewrite !Nat2Z.inj_add, <-Hlen. reflexivity.
Defined.

(** Two runs of [main] over the same directory: the second run copies the
    rows again, its ledger insert is refused by the primary key, and it
    reports no file at all. *)
Example main_twice_duplicates_rows :
  let first := import_to_postgres.main example.january_only in
  let second := import_to_postgres.main first.2 in
  length (yellow_taxi_trips (postgres first.2)) = 2%nat
  ∧ length (yellow_taxi_trips (postgres second.2)) = 4%nat
  ∧ length (import_log (postgres second.2)) = 1%nat
  ∧ second.1 = Ok (Some {| import_to_postgres.files_imported := 0;
                           import_to_postgres.total_rows := 0 |}).
Proof. vm_compute. by repeat split. Qed.

(** A file that DuckDB imported is not imported again. *)
Lemma duckdb_import_twice file_path w w1 :
  txn (duckdb w) = None →
  import_to_duckdb.import_parquet file_path w = (Ok true, w1) →
  import_to_duckdb.import_parquet file_path w1 = (Ok true, w1).
Proof.
  intros Hn H.
  destruct (import_parquet_spec file_path w Hn) as (r&w'&H'&_&Hn'&Hr).
  rewrite H in H'. inversion H'; subst r w'.
  apply import_parquet_skips. unfold import_to_duckdb.view. rewrite Hn'. simpl.
  destruct Hr as [[Hin ->]|(_&rs&_&->)]; [done|].
  unfold duck_imported. simpl. rewrite fmap_app. apply elem_of_app.
  right. simpl. by left.
Qed.

Lemma download_main_returns_None w r w' :
  download_data.main w = (Ok r, w') → r = PyNone.
Proof.
  unfold download_data.main, ask. unfold bind at 1. intros H.
  apply bind_inv in H as [(l&w1&_&H)|(e&_&?)]; [|done].
  unfold ret in H. by inversion H.
Qed.

(** C3. [run_pipeline] never returns a response: [download_data.main] has no
    return value, so the field [downloaded] is given [None] and the
    construction of [PipelineResponse] is refused (and with an empty
    directory the subscript of the [None] that [import_to_postgres.main]
    returns fails before that). *)
Theorem run_pipeline_never_returns (w : World) :
  ∃ e w', services.run_pipeline w = (Raise e, w').
Proof.
  unfold services.run_pipeline.
  destruct (database.init_db w) as [[[]|e0] w0] eqn:H0.
  2:{ rewrite (bind_Raise _ _ _ _ _ H0). eauto. }
  rewrite (bind_Ok _ _ _ _ _ H0).
  destruct (download_data.main w0) as [[d|e1] w1] eqn:H1.
  2:{ rewrite (bind_Raise _ _ _ _ _ H1). eauto. }
  rewrite (bind_Ok _ _ _ _ _ H1).
  apply download_main_returns_None in H1 as ->.
  destruct (import_to_postgres.main w1) as [[stats|e2] w2] eqn:H2.
  2:{ rewrite (bind_Raise _ _ _ _ _ H2). eauto. }
  rewrite (bind_Ok _ _ _ _ _ H2).
  destruct stats as [s|]; [|by eauto].
  unfold services.subscript. simpl. unfold bind, ret.
  unfold services.new_PipelineResponse, services.validate_status. simpl.
  unfold bind, ret, services.validate_int, raise. eauto.
Qed.

(** On a run where everything else goes well -- the three months are
    downloaded and imported -- the exception is the validation error on
    [downloaded]. *)
Example run_pipeline_normal_run :
  let out := services.run_pipeline example.three_months_served in
  out.1 = Raise (ValidationError "downloaded")
  ∧ length (requests out.2) = 3%nat
  ∧ rows_imported <$> import_log (postgres out.2) = [2; 0; 1].
Proof. vm_compute. by repeat split. Qed.




(** Nor is it one the second time: the file of February, whose only row is
    dropped, is logged with 0 rows by a first run of [main]; a second run
    finds its name in the ledger, the insert is refused, and the file is not
    counted. *)
Example empty_file_again_is_not_counted :
  let first := import_to_postgres.main example.february_only in
  let second := import_to_postgres.main first.2 in
  first.1 = Ok (Some {| import_to_postgres.files_imported := 1;
                        import_to_postgres.total_rows := 0 |})
  ∧ second.1 = Ok (Some {| import_to_postgres.files_imported := 0;
                           import_to_postgres.total_rows := 0 |})
  ∧ rows_imported <$> import_log (postgres second.2) = [0].
Proof. vm_compute. by repeat split. Qed.



(** C10. A file whose name is in the ledger: [import_parquet] returns [True]
    and leaves the world, hence the trip table and the ledger, as it is; the
    loop of [import_all_parquet] counts it; and a directory of such files
    yields the number of its files while nothing changes. *)
Theorem already_imported_file_is_skipped_and_counted
    (file_path : string) (rest : list string) (imported_count : Z) (w : World) :
  pathlib.name file_path
    ∈ file_name <$> duck_log (import_to_duckdb.view (duckdb w)) →
  import_to_duckdb.import_parquet file_path w = (Ok true, w)
  ∧ import_to_duckdb.for_file (file_path :: rest) imported_count w
    = import_to_duckdb.for_file rest (imported_count + 1) w
  ∧ (∀ data_dir,
       Forall (λ f, pathlib.name f
                      ∈ file_name <$> duck_log (import_to_duckdb.view (duckdb w)))
         (listing data_dir (fs w)) →
       import_to_duckdb.import_all_parquet data_dir w
       = (Ok (Z.of_nat (length (listing data_dir (fs w)))), w)).
Proof.
  intros Hin. pose proof (import_parquet_skips file_path w Hin) as Hskip.
  split_and!; [done| |].
  - simpl. by rewrite (bind_Ok _ _ _ _ _ Hskip).
  - intros data_dir Hall. unfold import_to_duckdb.import_all_parquet.
    rewrite (bind_Ok _ _ _ _ _ (glob_parquet_eq data_dir w)).
    rewrite for_file_all_skipped.
    + by rewrite (Permutation_length (sorted_Permutation _)).
    + by rewrite sorted_Permutation.
Qed.

Lemma already_imported_file_is_skipped_and_counted_witness :
  import_to_duckdb.import_parquet example.january example.january_in_duckdb
  = (Ok true, example.january_in_duckdb)
  ∧ import_to_duckdb.import_all_parquet "/app/data/raw" example.january_in_duckdb
    = (Ok 1, example.january_in_duckdb).
Proof.
  destruct (already_imported_file_is_skipped_and_counted example.january [] 0
              example.january_in_duckdb) as (Hskip&_&Hall); [by_evaluation|].
  split; [exact Hskip|].
  rewrite Hall by by_evaluation. vm_compute. reflexivity.
Defined.


(** The commit of DuckDB fails: the transaction is over, the rollback of the
    handler finds none and raises, and [import_parquet] raises instead of
    returning [False]; trip table and ledger are what they were. *)
Example failed_commit_makes_import_parquet_raise :
  let w := example.january_commit_fault in
  let out := import_to_duckdb.import_parquet example.january w in
  out.1 = Raise TransactionException
  ∧ duckdb out.2 = duckdb w.
Proof. vm_compute. by split. Qed.









End pipeline_props.

(** ** Further properties of the fetcher *)

Module fetcher_more.
Import download_data fetcher_props.

Lemma string_length_app (s t : string) :
  String.length (s +:+ t) = (String.length s + String.length t)%nat.
Proof.
  induction s as [|c s IH]; [done|].
  change (String c s +:+ t) with (String c (s +:+ t)). simpl. by rewrite IH.
Qed.

Lemma string_app_inj_r (t : string) : ∀ s1 s2 : string,
  s1 +:+ t = s2 +:+ t → s1 = s2.
Proof.
  induction s1 as [|c s1 IH]; intros [|d s2] H.
  - done.
  - apply (f_equal String.length) in H. rewrite !string_length_app in H.
    simpl in H. lia.
  - apply (f_equal String.length) in H. rewrite !string_length_app in H.
    simpl in H. lia.
  - change (String c (s1 +:+ t) = String d (s2 +:+ t)) in H.
    inversion H; subst. f_equal. by apply IH.
Qed.

(** The decimal numeral of a positive number does not start with a zero. *)
Lemma pretty_N_go_head (x : N) : ∀ s,
  (0 < x)%N → ∃ c rest, pretty_N_go x s = String c rest ∧ c ≠ "0"%char.
Proof.
  induction (N.lt_wf_0 x) as [x _ IH]. intros s Hx.
  rewrite pretty_N_go_step by done.
  destruct (decide (x < 10)%N) as [Hlt|Hge].
  - rewrite N.div_small by done. rewrite pretty_N_go_0.
    rewrite N.mod_small by done. eexists _, _. split; [done|].
    assert (x = 1 ∨ x = 2 ∨ x = 3 ∨ x = 4 ∨ x = 5 ∨ x = 6 ∨ x = 7 ∨ x = 8
            ∨ x = 9)%N as Hcases by lia.
    destruct Hcases as [->|[->|[->|[->|[->|[->|[->|[->| ->]]]]]]]]; done.
  - apply IH.
    + apply N.div_lt; lia.
    + apply N.div_str_pos. lia.
Qed.

Lemma pretty_Z_head (n : Z) :
  n ≠ 0 → ∃ c rest, pretty n = String c rest ∧ c ≠ "0"%char.
Proof.
  destruct n as [|p|p]; intros Hn; [done| |].
  - unfold pretty, pretty_Z, pretty, pretty_positive, pretty, pretty_N.
    rewrite decide_False by done. by apply pretty_N_go_head.
  - unfold pretty, pretty_Z. eexists _, _. split; [reflexivity|done].
Qed.

Lemma format_02d_inj (a b : Z) : format_02d a = format_02d b → a = b.
Proof.
  unfold format_02d.
  destruct (decide (0 ≤ a < 10)) as [Ha|Ha], (decide (0 ≤ b < 10)) as [Hb|Hb].
  - intros H. apply (inj _) in H. by apply (inj pretty).
  - intros H. destruct (pretty_Z_head b) as (c&rest&Hp&Hc); [lia|].
    rewrite Hp in H. inversion H. congruence.
  - intros H. destruct (pretty_Z_head a) as (c&rest&Hp&Hc); [lia|].
    rewrite Hp in H. inversion H. congruence.
  - apply (inj pretty).
Qed.

Lemma get_file_name_inj self (m1 m2 : Z) :
  get_file_name self m1 = get_file_name self m2 → m1 = m2.
Proof.
  unfold get_file_name. intros H.
  do 3 apply (inj (String.append _)) in H.
  by apply string_app_inj_r, format_02d_inj in H.
Qed.

Lemma get_file_path_inj self (m1 m2 : Z) :
  get_file_path self m1 = get_file_path self m2 → m1 = m2.
Proof.
  unfold get_file_path. intros H.
  do 2 apply (inj (String.append _)) in H.
  by apply (get_file_name_inj self).
Qed.

(** X1. Two different months never share a local file. *)
Theorem distinct_months_have_distinct_files
    (self : NYCTaxiDataDownloader) (m1 m2 : Z) :
  m1 ≠ m2 →
  get_file_name self m1 ≠ get_file_name self m2
  ∧ get_file_path self m1 ≠ get_file_path self m2.
Proof.
  intros Hne. split.
  - intros H. by apply Hne, (get_file_name_inj self).
  - intros H. by apply Hne, (get_file_path_inj self).
Qed.

Lemma distinct_months_have_distinct_files_witness :
  get_file_name example.fetcher 1 ≠ get_file_name example.fetcher 11
  ∧ get_file_path example.fetcher 1 ≠ get_file_path example.fetcher 11.
Proof. apply distinct_months_have_distinct_files. lia. Defined.

Lemma stores_untouched_refl w : stores_untouched w w.
Proof. by repeat split. Qed.

Lemma stores_untouched_trans w1 w2 w3 :
  stores_untouched w1 w2 → stores_untouched w2 w3 → stores_untouched w1 w3.
Proof. intros (?&?&?) (?&?&?). repeat split; congruence. Qed.

Lemma io_call_stores e w r w' : io_call e w = (r, w') → stores_untouched w w'.
Proof. intros H. apply io_call_frame in H as (?&?&?&?&?&?). by repeat split. Qed.

Lemma write_chunks_stores p stream : ∀ w r w',
  write_chunks p stream w = (r, w') → stores_untouched w w'.
Proof.
  induction stream as [|[data|] rest IH]; intros w r w'; simpl.
  - intros [= <- <-]. apply stores_untouched_refl.
  - unfold f_write. intros H.
    apply bind_inv in H as [([]&w1&Hw&Hk)|(e&Hw&->)].
    + apply bind_inv in Hw as [([]&w0&Hio&Hw)|(e&Hio&?)]; [|done].
      apply io_call_stores in Hio. inversion Hw; subst.
      apply IH in Hk. eapply stores_untouched_trans; [|exact Hk].
      destruct Hio as (?&?&?). by repeat split.
    + apply bind_inv in Hw as [([]&w0&Hio&Hw)|(e'&Hio&?)].
      * by inversion Hw.
      * by apply io_call_stores in Hio.
  - intros [= <- <-]. apply stores_untouched_refl.
Qed.

Lemma download_month_try_stores self file_name file_path w r w' :
  download_month_try self file_name file_path w = (r, w') →
  stores_untouched w w'.
Proof.
  unfold download_month_try. intros H.
  assert (∀ url w r w', requests_get url w = (r, w') → stores_untouched w w')
    as Hget.
  { intros url w0 r0 w0'. unfold requests_get.
    destruct (remote w0) as [|[|resp] l]; by intros [= <- <-]. }
  apply bind_inv in H as [(resp&w1&Hg&H)|(e&Hg&->)]; apply Hget in Hg; [|done].
  apply bind_inv in H as [([]&w2&Hst&H)|(e&Hst&->)];
    apply raise_for_status_frame in Hst as ->; [|done].
  case_decide; [|by inversion H; subst].
  apply bind_inv in H as [([]&w3&Hop&H)|(e&Hop&->)].
  2:{ unfold open_wb in Hop.
      apply bind_inv in Hop as [([]&w0&Hio&Hop)|(e'&Hio&?)]; [by inversion Hop|].
      apply io_call_stores in Hio. eauto using stores_untouched_trans. }
  assert (stores_untouched w1 w3) as H13.
  { unfold open_wb in Hop.
    apply bind_inv in Hop as [([]&w0&Hio&Hop)|(e'&Hio&?)]; [|done].
    apply io_call_stores in Hio as (?&?&?). inversion Hop; subst.
    by repeat split. }
  apply bind_inv in H as [([]&w4&Hwr&H)|(e&Hwr&->)];
    apply write_chunks_stores in Hwr.
  - inversion H; subst. eauto using stores_untouched_trans.
  - eauto using stores_untouched_trans.
Qed.

(** What [download_month] leaves alone, whatever happens. *)
Lemma download_month_frame self month w r w' :
  download_month self month w = (r, w') →
  stores_untouched w w'
  ∧ agree_off (get_file_path self month) (fs w') (fs w)
  ∧ (is_Some (fs w !! get_file_path self month) → w' = w)
  ∧ (fs w !! get_file_path self month = None →
     requests w'
     = requests w ++ [base_url self +:+ "/" +:+ get_file_name self month]).
Proof.
  destruct (fs w !! get_file_path self month) as [content|] eqn:Hp.
  - rewrite download_month_present by (rewrite Hp; eauto).
    intros [= <- <-]. split_and!; [apply stores_untouched_refl|done|done|done].
  - rewrite download_month_absent by done.
    destruct (download_month_try _ _ _ w) as [[o|e] w1] eqn:Htry;
      pose proof (download_month_try_stores _ _ _ _ _ _ Htry) as Hst;
      apply download_month_try_spec in Htry as (Hag&Hrq&_).
    + intros [= <- <-]. split_and!; [done|done|by intros [? ?]|done].
    + destruct (unlink_if_exists_spec (get_file_path self month) w1)
        as (w2&Hu&Hfs&Hrq2).
      assert (stores_untouched w1 w2) as Hst2.
      { unfold unlink_if_exists, bind, path_exists in Hu.
        destruct (bool_decide _); inversion Hu; subst; by repeat split. }
      rewrite Hu. intros [= <- <-]. simpl.
      split_and!; [by eauto using stores_untouched_trans| |by intros [? ?]|congruence].
      intros q Hq. rewrite Hfs, lookup_delete_ne by done. by apply Hag.
Qed.

(** X2. A download that goes through writes the streamed bytes, and nothing
    else, to the file of the month: with the file not there yet, a response of
    status 200 whose body arrives whole and no local fault, [download_month]
    returns [True], the file holds the chunks in order, and one request went
    out. *)
Theorem download_month_writes_the_body
    (self : NYCTaxiDataDownloader) (month : Z) (w : World)
    (resp : Response) (rest : list get_outcome) (content : list Byte.byte) :
  fs w !! get_file_path self month = None →
  io_faults w = [] →
  remote w = Responds resp :: rest →
  status_code resp = 200 →
  chunks_of (body resp) = Some content →
  ∃ w',
    download_month self month w = (Ok (Some true), w')
    ∧ fs w' = <[get_file_path self month := content]> (fs w)
    ∧ remote w' = rest
    ∧ requests w'
      = requests w ++ [base_url self +:+ "/" +:+ get_file_name self month].
Proof.
  intros Hp Hf Hrem Hst Hbody.
  assert (∀ stream content w0,
    io_faults w0 = [] → chunks_of stream = Some content →
    ∃ w', write_chunks (get_file_path self month) stream w0 = (Ok tt, w')
          ∧ fs w' = alter (λ old, old ++ content) (get_file_path self month) (fs w0)
          ∧ remote w' = remote w0 ∧ requests w' = requests w0) as Hwrite.
  { induction stream as [|[data|] tail IH]; intros c w0 Hf0; simpl.
    - intros [= <-]. exists w0. split_and!; try done.
      symmetry. apply alter_id. intros x _. by rewrite app_nil_r.
    - destruct (chunks_of tail) as [c'|] eqn:Htail; [|done]. intros [= <-].
      unfold f_write.
      rewrite (bind_Ok _ _ _ _ _
                 (bind_Ok _ _ _ _ _ (io_call_no_fault OSError w0 Hf0))).
      destruct (IH c' (set_fs (alter (λ old, old ++ data)
                                 (get_file_path self month)) w0))
        as (w'&Hw'&Hfs'&Hrm'&Hrq'); [done|done|].
      exists w'. split_and!; try done. rewrite Hfs'. simpl.
      rewrite alter_alter_eq. apply alter_ext. intros x _. simpl.
      by rewrite app_assoc.
    - done. }
  rewrite download_month_absent by done. unfold download_month_try.
  assert (requests_get
            (base_url self +:+ "/" +:+ get_file_name self month) w
          = (Ok resp,
             set_remote rest
               (requests w ++ [base_url self +:+ "/" +:+ get_file_name self month])
               w)) as Hget.
  { unfold requests_get. by rewrite Hrem. }
  rewrite (bind_Ok _ _ _ _ _ Hget).
  set (w1 := set_remote rest
               (requests w ++ [base_url self +:+ "/" +:+ get_file_name self month]) w).
  assert (io_faults w1 = []) as Hf1 by exact Hf.
  unfold raise_for_status at 1. rewrite decide_False by lia.
  unfold bind at 1. unfold ret at 1. rewrite decide_True by done.
  unfold open_wb.
  rewrite (bind_Ok _ _ _ _ _
             (bind_Ok _ _ _ _ _ (io_call_no_fault OSError w1 Hf1))).
  destruct (Hwrite (body resp) content
              (set_fs (<[get_file_path self month := []]>) w1))
    as (w'&Hw'&Hfs'&Hrm'&Hrq'); [done|done|].
  cbn beta. rewrite (bind_Ok _ _ _ _ _ Hw'). unfold ret. exists w'.
  split_and!; [done| |done|done].
  rewrite Hfs'. simpl. by rewrite alter_insert_eq.
Qed.

Lemma download_month_writes_the_body_witness :
  ∃ w',
    download_month example.fetcher 1 example.healthy_archive = (Ok (Some true), w')
    ∧ fs w' = {[ "/app/data/raw/yellow_tripdata_2025-01.parquet"
                 := [Byte.x50; Byte.x41; Byte.x52] ]}.
Proof.
  destruct (download_month_writes_the_body example.fetcher 1 example.healthy_archive
              {| status_code := 200;
                 body := [Chunk [Byte.x50; Byte.x41]; Chunk [Byte.x52]] |} []
              [Byte.x50; Byte.x41; Byte.x52])
    as (w'&Hd&Hfs&_); try reflexivity.
  exists w'. split; [exact Hd|]. rewrite Hfs. vm_compute. reflexivity.
Defined.

Lemma download_month_keeps_existing_files_aux self month w w' r :
  download_month self month w = (r, w') →
  ∀ p, is_Some (fs w !! p) → fs w' !! p = fs w !! p.
Proof.
  intros H. apply download_month_frame in H as (_&Hag&Hpresent&_).
  intros p Hp. destruct (decide (p = get_file_path self month)) as [->|Hne].
  - by rewrite (Hpresent Hp).
  - by apply Hag.
Qed.

(** X3. Whatever happens, [download_month] leaves every file that is already
    on disk byte for byte as it is, touches no path but the file of its
    month, and leaves the environment and both stores alone. *)
Theorem download_month_keeps_existing_files
    (self : NYCTaxiDataDownloader) (month : Z) (w w' : World)
    (r : result (option bool)) :
  download_month self month w = (r, w') →
  (∀ p, is_Some (fs w !! p) → fs w' !! p = fs w !! p)
  ∧ (∀ q, q ≠ get_file_path self month → fs w' !! q = fs w !! q)
  ∧ stores_untouched w w'.
Proof.
  intros H. pose proof (download_month_keeps_existing_files_aux _ _ _ _ _ H).
  apply download_month_frame in H as (Hst&Hag&_&_). by split_and!.
Qed.

Lemma download_month_keeps_existing_files_witness :
  let w := example.four_months in
  let out := download_month example.fetcher 5 w in
  fs out.2 !! example.january = Some [Byte.x01].
Proof.
  intros w out.
  destruct (download_month_keeps_existing_files example.fetcher 5 w out.2 out.1)
    as (Hkeep&_&_).
  - subst out. by destruct (download_month _ _ _).
  - rewrite Hkeep; [vm_compute; reflexivity|]. vm_compute. eauto.
Defined.

(** X4. With the file not there yet, [download_month] falls off its end and
    returns [None] -- neither [True] nor [False] -- exactly when a response
    arrives whose status is not 200 and is no HTTP error (below 400, or 600
    and above). *)
Theorem download_month_returns_None_iff
    (self : NYCTaxiDataDownloader) (month : Z) (w : World) :
  fs w !! get_file_path self month = None →
  (download_month self month w).1 = Ok None
  ↔ ∃ resp rest,
      remote w = Responds resp :: rest
      ∧ status_code resp ≠ 200 ∧ ¬ (400 ≤ status_code resp < 600).
Proof.
  intros Hp. rewrite download_month_absent by done.
  unfold download_month_try.
  destruct (requests_get (base_url self +:+ "/" +:+ get_file_name self month) w)
    as [got w0] eqn:Hget.
  pose proof Hget as Hgot. unfold requests_get in Hgot.
  destruct (remote w) as [|[|resp] rest] eqn:Hrem; inversion Hgot; subst got w0;
    clear Hgot.
  - rewrite (bind_Raise _ _ _ _ _ Hget). simpl.
    split; [done|]. by intros (?&?&?&_).
  - rewrite (bind_Raise _ _ _ _ _ Hget). simpl.
    split; [done|]. by intros (?&?&?&_).
  - rewrite (bind_Ok _ _ _ _ _ Hget). unfold raise_for_status.
    destruct (decide (400 ≤ status_code resp < 600)) as [Herr|Herr].
    { unfold bind, raise. simpl. split; [done|].
      intros (?&?&[= <- <-]&_&Hno). by destruct Hno. }
    unfold bind at 1. unfold ret at 1.
    destruct (decide (status_code resp = 200)) as [H200|H200].
    + split.
      * match goal with |- context [bind ?m ?k ?w0] =>
          destruct (bind m k w0) as [[o|e] w1] eqn:Hb end; simpl; [|done].
        apply bind_inv in Hb as [([]&w2&_&Hb)|(e&_&?)]; [|done].
        apply bind_inv in Hb as [([]&w3&_&Hb)|(e&_&?)]; [|done].
        unfold ret in Hb. by inversion Hb.
      * intros (?&?&[= <- <-]&Hno&_). by destruct Hno.
    + unfold ret. simpl. split; [|done]. intros _. by exists resp, rest.
Qed.

Lemma download_month_returns_None_iff_witness :
  (download_month example.fetcher 1
     {| env := example.env_march_2025 (λ _, None); fs := ∅;
        remote := [Responds {| status_code := 204; body := [] |}];
        requests := []; io_faults := [];
        postgres := example.no_db; duckdb := example.no_duck |}).1 = Ok None.
Proof.
  apply download_month_returns_None_iff; [reflexivity|].
  eexists _, _. split; [reflexivity|]. simpl. split; [done|lia].
Defined.

Lemma filter_ext_Forall {A} (P1 P2 : A → Prop)
    `{!∀ x, Decision (P1 x), !∀ x, Decision (P2 x)} (l : list A) :
  Forall (λ x, P1 x ↔ P2 x) l → filter P1 l = filter P2 l.
Proof.
  induction 1 as [|x l Hx _ IH]; [done|].
  destruct (decide (P1 x)) as [H1|H1].
  - rewrite !filter_cons_True by tauto. by rewrite IH.
  - rewrite !filter_cons_False by tauto. by rewrite IH.
Qed.

Lemma fold_download_months self months : ∀ w,
  let w' := foldl (λ w month, (download_month self month w).2) w months in
  (∀ p, is_Some (fs w !! p) → fs w' !! p = fs w !! p)
  ∧ (∀ q, (∀ month, month ∈ months → q ≠ get_file_path self month) →
       fs w' !! q = fs w !! q)
  ∧ stores_untouched w w'
  ∧ (NoDup months →
     requests w'
     = requests w
       ++ ((λ month, base_url self +:+ "/" +:+ get_file_name self month)
             <$> filter (λ month, fs w !! get_file_path self month = None) months)).
Proof.
  induction months as [|month rest IH]; intros w; simpl.
  - split_and!; [done|done|apply stores_untouched_refl|].
    intros _. by rewrite app_nil_r.
  - destruct (download_month self month w) as [r w1] eqn:Hd. simpl.
    pose proof (download_month_frame _ _ _ _ _ Hd) as (Hst1&Hag1&Hpres1&Hrq1).
    pose proof (download_month_keeps_existing_files_aux self month w w1 r Hd)
      as Hkeep1.
    destruct (IH w1) as (Hkeep&Hoff&Hst&Hrq).
    split_and!.
    + intros p Hp. rewrite Hkeep; [by apply Hkeep1|].
      rewrite Hkeep1; done.
    + intros q Hq. rewrite Hoff.
      * apply Hag1, Hq. by left.
      * intros m Hm. apply Hq. by right.
    + eauto using stores_untouched_trans.
    + intros Hnd. apply NoDup_cons in Hnd as [Hnotin Hnd].
      rewrite (Hrq Hnd).
      assert (filter (λ m, fs w1 !! get_file_path self m = None) rest
              = filter (λ m, fs w !! get_file_path self m = None) rest) as ->.
      { apply filter_ext_Forall. apply Forall_forall. intros m Hm.
        rewrite Hag1; [done|].
        intros Heq. apply get_file_path_inj in Heq. by subst. }
      destruct (fs w !! get_file_path self month) as [content|] eqn:Hp.
      * rewrite (Hpres1 (mk_is_Some _ _ eq_refl)).
        by rewrite filter_cons_False by (by rewrite Hp).
      * rewrite filter_cons_True by done. rewrite (Hrq1 eq_refl).
        by rewrite fmap_cons, <-app_assoc.
Qed.

Lemma download_all_available_fold self w :
  download_all_available self w
  = (Ok (seqZ 1 (if decide (year self = clock_year (env w))
                 then clock_month (env w) else 12)),
     foldl (λ w month, (download_month self month w).2) w
       (seqZ 1 (if decide (year self = clock_year (env w))
                then clock_month (env w) else 12))).
Proof.
  unfold download_all_available, bind, ask. rewrite for_month_eq. simpl.
  assert ((if decide
             ((if decide (year self ≠ clock_year (env w)) then 12
               else clock_month (env w)) ≠ 1)
           then py_range 1
                  ((if decide (year self ≠ clock_year (env w)) then 12
                    else clock_month (env w)) + 1)
           else [1])
          = seqZ 1 (if decide (year self = clock_year (env w))
                    then clock_month (env w) else 12)) as ->; [|done].
  unfold py_range.
  destruct (decide (year self = clock_year (env w))) as [Heq|Hne];
    destruct (decide (year self ≠ clock_year (env w))) as [Hne'|Heq'];
    try (exfalso; tauto).
  - destruct (decide (clock_month (env w) ≠ 1)) as [H1|H1].
    + f_equal. lia.
    + apply dec_stable in H1. by rewrite H1.
  - destruct (decide (12 ≠ 1)) as [_|H1]; [reflexivity|by destruct H1].
Qed.

(** X5. [download_all_available] never changes a file that is already on
    disk: whatever the archive answers, the only paths that can differ
    afterwards are files of the attempted months that were missing, and the
    environment and both stores are untouched. *)
Theorem download_all_available_keeps_existing_files
    (self : NYCTaxiDataDownloader) (w : World) :
  let upper :=
    if decide (year self = clock_year (env w)) then clock_month (env w) else 12 in
  let w' := (download_all_available self w).2 in
  (∀ p, is_Some (fs w !! p) → fs w' !! p = fs w !! p)
  ∧ (∀ q, (∀ month, 1 ≤ month ≤ upper → q ≠ get_file_path self month) →
       fs w' !! q = fs w !! q)
  ∧ stores_untouched w w'.
Proof.
  intros upper w'. subst w'. rewrite download_all_available_fold. simpl.
  destruct (fold_download_months self (seqZ 1 upper) w) as (Hkeep&Hoff&Hst&_).
  split_and!; [exact Hkeep| |exact Hst].
  intros q Hq. apply Hoff. intros month Hm. apply Hq.
  apply elem_of_seqZ in Hm. lia.
Qed.

Lemma download_all_available_keeps_existing_files_witness :
  let w' := (download_all_available example.fetcher example.four_months).2 in
  fs w' !! example.april = Some [Byte.xff]
  ∧ fs w' !! "/app/data/raw/README.txt" = Some [Byte.x00].
Proof.
  intros w'.
  destruct (download_all_available_keeps_existing_files example.fetcher
              example.four_months) as (Hkeep&_&_).
  split; (rewrite Hkeep; [vm_compute; reflexivity|vm_compute; eauto]).
Defined.

(** X6. [download_all_available] sends exactly one request for each attempted
    month whose file is missing at the start, in ascending month order, and
    none for a month whose file is there -- whether or not the requests
    succeed. *)
Theorem download_all_available_requests_missing_months
    (self : NYCTaxiDataDownloader) (w : World) :
  let upper :=
    if decide (year self = clock_year (env w)) then clock_month (env w) else 12 in
  requests (download_all_available self w).2
  = requests w
    ++ ((λ month, base_url self +:+ "/" +:+ get_file_name self month)
          <$> filter (λ month, fs w !! get_file_path self month = None)
                (seqZ 1 upper)).
Proof.
  intros upper. rewrite download_all_available_fold. simpl.
  destruct (fold_download_months self (seqZ 1 upper) w) as (_&_&_&Hrq).
  apply Hrq, NoDup_seqZ.
Qed.

(** January and February are on disk, March 2025 is not: one request, for
    March. *)
Example download_all_available_requests_march_only :
  requests (download_all_available example.fetcher
              (example.on_disk (<[ example.january := [Byte.x01] ]>
                                  {[ example.february := [Byte.x02] ]}) [])).2
  = ["https://d37ci6vzurychx.cloudfront.net/trip-data/yellow_tripdata_2025-03.parquet"].
Proof. vm_compute. reflexivity. Qed.

End fetcher_more.

(** ** Further properties of the transform and of the COPY import *)

Module transform_more.
Import import_to_postgres pandas_props importer_props.

Lemma tz_localize_exact ok x v :
  pandas.tz_localize ok (Some x) = Ok v →
  ∃ t, x = CTimestamp t None ∧ ok t = true
       ∧ v = Some (CTimestamp t (Some "America/New_York")).
Proof.
  destruct x as [| | |t [z|]]; simpl; try done.
  destruct (ok t) eqn:Hok; [|done]. intros [= <-]. eauto.
Qed.

Lemma localize_rows_exact ok cols c : ∀ rs rs',
  pandas.localize_rows ok cols c rs = Ok rs' →
  Forall2 (λ r r', ∃ v, pandas.tz_localize ok (pandas.row_get cols r c) = Ok v
                        ∧ r' = pandas.row_set cols r c v) rs rs'.
Proof.
  induction rs as [|r rs IH]; intros rs'; simpl.
  - intros [= <-]. constructor.
  - destruct (pandas.tz_localize ok (pandas.row_get cols r c)) as [v|] eqn:Hv;
      [|done].
    destruct (pandas.localize_rows ok cols c rs) as [rs''|]; [|done].
    intros [= <-]. constructor; [by eauto|by apply IH].
Qed.

Lemma Forall2_compose {A} (R1 R2 R3 : A → A → Prop) l1 l2 : ∀ l3,
  (∀ x y z, R1 x y → R2 y z → R3 x z) →
  Forall2 R1 l1 l2 → Forall2 R2 l2 l3 → Forall2 R3 l1 l3.
Proof.
  intros l3 Hc H12. revert l3.
  induction H12 as [|x y l1 l2 Hxy _ IH]; intros l3 H23.
  - apply Forall2_nil_inv_l in H23 as ->. constructor.
  - apply Forall2_cons_inv_l in H23 as (z&l3'&Hyz&H23&->).
    constructor; eauto.
Qed.

Lemma Forall2_with_Forall {A} (P : A → Prop) (R : A → A → Prop) l1 l2 :
  Forall P l1 → Forall2 R l1 l2 → Forall2 (λ x y, P x ∧ R x y) l1 l2.
Proof.
  intros HP HR. induction HR as [|x y l1 l2 Hxy _ IH]; [constructor|].
  apply Forall_cons in HP as [Hx HP]. constructor; auto.
Qed.

Lemma Forall2_split_left {A} (P : A → Prop) (R : A → A → Prop) l1 l2 :
  Forall2 (λ x y, P x ∧ R x y) l1 l2 → Forall P l1 ∧ Forall2 R l1 l2.
Proof.
  induction 1 as [|x y l1 l2 [Hx Hxy] _ [IH1 IH2]]; split; constructor; auto.
Qed.

Lemma transform_rows e content df :
  transform e content = Ok df →
  ∃ bytes raw,
    content = Some bytes ∧ parquet_codec e bytes = Some raw
    ∧ columns df = columns (pandas.rename column_mapping raw)
    ∧ "tpep_pickup_datetime" ∈ columns df
    ∧ "tpep_dropoff_datetime" ∈ columns df
    ∧ Forall (localizable e (columns df))
        (filter (has_timestamps (columns (pandas.rename column_mapping raw)))
           (rows raw))
    ∧ Forall2 (cleaned (columns df))
        (filter (has_timestamps (columns (pandas.rename column_mapping raw)))
           (rows raw))
        (rows df).
Proof.
  unfold transform. destruct content as [bytes|]; [|done].
  destruct (parquet_codec e bytes) as [raw|] eqn:Hraw; [|done].
  destruct (pandas.dropna _ _) as [df1|] eqn:H1; [|done].
  destruct (pandas.localize_column _ _ df1) as [df2|] eqn:H2; [|done].
  intros H3. exists bytes, raw.
  apply dropna_spec in H1 as (Hc1&Hr1&Hin&_).
  apply localize_column_spec in H2 as (Hc2&Hp&_&Hl2&_).
  apply localize_column_spec in H3 as (Hc3&Hd&_&Hl3&_).
  apply localize_rows_exact in Hl2, Hl3.
  rewrite Hc2 in *. rewrite Hc1 in *. rewrite Hc3.
  change (rows (pandas.rename column_mapping raw)) with (rows raw) in Hr1.
  rewrite Hr1 in Hl2.
  assert (Forall (has_timestamps (columns (pandas.rename column_mapping raw)))
            (filter (has_timestamps (columns (pandas.rename column_mapping raw)))
               (rows raw))) as Hall.
  { apply Forall_forall. intros r Hr.
    by apply list_elem_of_filter in Hr as [Hr _]. }
  assert (Forall2
            (λ r r', localizable e (columns (pandas.rename column_mapping raw)) r
                     ∧ cleaned (columns (pandas.rename column_mapping raw)) r r')
            (filter (has_timestamps (columns (pandas.rename column_mapping raw)))
               (rows raw)) (rows df)) as Hboth.
  { eapply Forall2_compose;
      [|exact (Forall2_with_Forall _ _ _ _ Hall Hl2)|exact Hl3].
    intros r1 r2 r3 [Hts (v1&Hv1&->)] (v2&Hv2&->).
    apply has_timestamps_iff in Hts as [[x1 Hx1] [y1 Hy1]].
    rewrite Hx1 in Hv1. apply tz_localize_exact in Hv1 as (t1&->&Hok1&->).
    rewrite row_get_row_set_ne, Hy1 in Hv2 by done.
    apply tz_localize_exact in Hv2 as (t2&->&Hok2&->).
    split; [|split_and!].
    - intros c t Hc Hget.
      apply elem_of_cons in Hc as [->|Hc];
        [|apply elem_of_cons in Hc as [->|Hc]; [|by apply elem_of_nil in Hc]];
        congruence.
    - intros c Hcp Hcd. by rewrite !row_get_row_set_ne by done.
    - exists t1. split; [done|].
      rewrite row_get_row_set_ne by done.
      by rewrite row_get_row_set_eq by (rewrite Hx1; eauto).
    - exists t2. split; [done|].
      rewrite row_get_row_set_eq; [done|].
      rewrite row_get_row_set_ne, Hy1 by done. eauto. }
  apply Forall2_split_left in Hboth as [Hloc Hclean].
  by split_and!.
Qed.

(** X7. [clean_df] keeps the rows that have both timestamps, in their order,
    and changes nothing in them but the zone of the two timestamps: the
    instant is kept, America/New_York is assigned, and every other column
    holds the value it held in the file. *)
Theorem clean_df_touches_only_the_timestamps
    (file_path : string) (w w' : World) (df : DataFrame) :
  clean_df file_path w = (Ok df, w') →
  ∃ bytes raw,
    fs w !! file_path = Some bytes
    ∧ parquet_codec (env w) bytes = Some raw
    ∧ columns df = columns (pandas.rename column_mapping raw)
    ∧ Forall2 (cleaned (columns df))
        (filter (has_timestamps (columns (pandas.rename column_mapping raw)))
           (rows raw))
        (rows df).
Proof.
  intros H. apply clean_df_transform, transform_rows in H
    as (bytes&raw&Hfile&Hcodec&Hcols&_&_&_&Hrows).
  by exists bytes, raw.
Qed.

Lemma clean_df_touches_only_the_timestamps_witness :
  ∃ df,
    (clean_df example.january example.january_only).1 = Ok df
    ∧ Forall2 (cleaned (columns df))
        [example.good_trip 1735700000; example.good_trip 1735703600] (rows df).
Proof.
  destruct (clean_df example.january example.january_only) as [[df|e] w'] eqn:H;
    [|by vm_compute in H].
  exists df. split; [done|].
  destruct (clean_df_touches_only_the_timestamps _ _ _ _ H)
    as (bytes&raw&Hfile&Hcodec&_&Hrows).
  vm_compute in Hfile. inversion Hfile; subst bytes.
  vm_compute in Hcodec. inversion Hcodec; subst raw.
  exact Hrows.
Defined.

End transform_more.

(** ** Further properties of [import_parquet_copy] *)

Module copy_more.
Import import_to_postgres pandas_props importer_props transform_more.

Lemma transform_empty_rows e content df :
  transform e content = Ok df → pandas.empty df = true → rows df = [].
Proof.
  intros (bytes&raw&_&_&_&Hp&_)%transform_rows. unfold pandas.empty.
  destruct (rows df); [done|].
  destruct (columns df); [by apply elem_of_nil in Hp|done].
Qed.

(** Once [clean_df] returned a frame, the import either commits the rows the
    COPY made of its lines and returns the number of rows of the frame, or
    returns [None] and leaves the store as it is. *)
Lemma import_parquet_copy_after_clean f w df w1 r w' :
  clean_df f w = (Ok df, w1) →
  import_parquet_copy f w = (r, w') →
  (∃ staged,
     r = Ok (Some (Z.of_nat (length (rows df))))
     ∧ staged_rows (env w) df = Ok staged
     ∧ trips_extended_by staged w w')
  ∨ (r = Ok None ∧ same_but_faults w w' ∧ pandas.empty df = false).
Proof.
  intros Hc H. pose proof (clean_df_transform _ _ _ _ Hc) as Htr.
  pose proof (clean_df_frame _ _ _ _ Hc) as Hfr.
  unfold import_parquet_copy, try_except in H.
  destruct (import_parquet_copy_try f w) as [[o|e] w2] eqn:Hbody;
    unfold import_parquet_copy_try in Hbody;
    rewrite (bind_Ok _ _ _ _ _ Hc) in Hbody.
  2:{ unfold ret in H. inversion H; subst r w'. right.
      destruct (pandas.empty df) eqn:Hemp; [by unfold ret in Hbody|].
      split; [done|]. split; [|done].
      apply bind_inv in Hbody as [([]&w3&Hrc&Hb)|(e'&Hrc&_)];
        apply io_call_frame in Hrc; [|by eauto using same_but_faults_trans].
      apply bind_inv in Hb as [([]&w4&Htf&Hb)|(e'&Htf&_)]; [by unfold ret in Hb|].
      rewrite !try_finally_close in Htf.
      apply bind_inv in Htf as [(staged&w5&Hcp&Hcm)|(e''&Hcp&_)];
        apply copy_expert_spec in Hcp as [Hcp _];
        [|by eauto using same_but_faults_trans].
      apply commit_spec in Hcm as [[? _]|[_ Hcm]]; [done|].
      eauto using same_but_faults_trans. }
  inversion H; subst r w'. left.
  destruct (pandas.empty df) eqn:Hemp.
  { unfold ret in Hbody. inversion Hbody; subst.
    pose proof (transform_empty_rows _ _ _ Htr Hemp) as Hrows.
    exists []. unfold staged_rows, pandas.project. simpl. rewrite Hrows. simpl.
    split_and!; [done|done|by apply same_but_faults_extended]. }
  apply bind_inv in Hbody as [([]&w3&Hrc&Hb)|(e'&Hrc&?)];
    apply io_call_frame in Hrc; [|done].
  apply bind_inv in Hb as [([]&w4&Htf&Hb)|(e'&Htf&?)]; [|done].
  rewrite !try_finally_close in Htf.
  apply bind_inv in Htf as [(staged&w5&Hcp&Hcm)|(e''&Hcp&?)]; [|done].
  apply copy_expert_spec in Hcp as [Hcp Hst].
  destruct (Hst staged eq_refl) as (Hstaged&_&_).
  apply commit_spec in Hcm as [[_ Hcm]|[[? ?] _]]; [|done].
  unfold ret in Hb. inversion Hb; subst o w4.
  assert (env w3 = env w) as He.
  { destruct Hfr as (He1&_). destruct Hrc as (He3&_). congruence. }
  rewrite He in Hstaged.
  exists staged. split_and!; [|exact Hstaged|].
  - unfold pandas.len, pandas.project. simpl. by rewrite length_fmap.
  - apply (trips_extended_by_trans [] staged w w5 w2); [|done].
    apply same_but_faults_extended. eauto using same_but_faults_trans.
Qed.

(** When [clean_df] cannot return a frame for the file, the import returns
    [None] and leaves the store as it is. *)
Lemma import_parquet_copy_needs_clean f w r w' :
  (∀ df, transform (env w) (fs w !! f) ≠ Ok df) →
  import_parquet_copy f w = (r, w') →
  r = Ok None ∧ same_but_faults w w'.
Proof.
  intros Hno H.
  destruct (clean_df f w) as [[df|e] w1] eqn:Hc.
  { by apply clean_df_transform, Hno in Hc. }
  unfold import_parquet_copy, try_except, import_parquet_copy_try in H.
  rewrite (bind_Raise _ _ _ _ _ Hc) in H. unfold ret in H.
  inversion H; subst. split; [done|]. by apply clean_df_frame in Hc.
Qed.

Lemma row_get_fmap (g : string → option cell) (c : string) : ∀ cols,
  pandas.row_get cols (g <$> cols) c = if decide (c ∈ cols) then g c else None.
Proof.
  induction cols as [|k cols IH].
  - simpl. destruct (decide (c ∈ [])) as [Hin|]; [by apply elem_of_nil in Hin|done].
  - cbn [fmap list_fmap pandas.row_get]. fold (fmap g cols).
    destruct (decide (k = c)) as [->|Hne].
    + destruct (decide (c ∈ c :: cols)) as [|Hout]; [done|].
      exfalso. apply Hout, elem_of_cons. by left.
    + rewrite IH. destruct (decide (c ∈ cols)) as [Hin|Hout];
        destruct (decide (c ∈ k :: cols)) as [Hin'|Hout']; try done.
      * exfalso. apply Hout', elem_of_cons. by right.
      * by apply elem_of_cons in Hin' as [->|?].
Qed.

Lemma row_get_outside (c : string) : ∀ cols (r : row),
  c ∉ cols → pandas.row_get cols r c = None.
Proof.
  induction cols as [|k cols IH]; intros [|x r] Hout; cbn [pandas.row_get];
    try done.
  rewrite decide_False by (intros ->; apply Hout; by left).
  apply IH. intros Hin. apply Hout. by right.
Qed.

Lemma row_get_Forall2 (P : string → option cell → Prop) (c : string) :
  ∀ cols (fields : row),
    Forall2 P cols fields → c ∈ cols → P c (pandas.row_get cols fields c).
Proof.
  induction 1 as [|k x cols fields Hkx _ IH]; intros Hin;
    [by apply elem_of_nil in Hin|].
  cbn [pandas.row_get]. destruct (decide (k = c)) as [<-|Hne]; [done|].
  apply elem_of_cons in Hin as [->|Hin]; [done|]. by apply IH.
Qed.

Lemma project_line_length (header : list string) (r : row) : ∀ cols,
  Forall (λ c, c ∈ header) cols →
  (length cols ≤ length (cols ≫= (λ c, pandas.select_all header r None c)))%nat.
Proof.
  induction 1 as [|k cols Hk _ IH]; [done|].
  rewrite bind_cons, length_app. simpl.
  destruct (pandas.select_all header r None k) as [|v l] eqn:Hsel; [|simpl; lia].
  exfalso. by apply (select_all_nil None k header r) in Hsel.
Qed.

(** A line of the buffer that has one field for each listed column: every
    listed label names one column of the frame, and the fields are the
    values of the row under these labels. *)
Lemma project_line (header : list string) (r : row) : ∀ cols,
  Forall (λ c, c ∈ header) cols →
  length (cols ≫= (λ c, pandas.select_all header r None c)) = length cols →
  cols ≫= (λ c, pandas.select_all header r None c)
  = (λ c, pandas.row_get header r c) <$> cols.
Proof.
  induction 1 as [|k cols Hk Hcols IH]; [done|].
  rewrite bind_cons, length_app, fmap_cons. simpl. intros Hlen.
  pose proof (project_line_length header r cols Hcols) as Hrest.
  pose proof (select_all_row_get k header r Hk) as Hhead.
  destruct (pandas.select_all header r None k) as [|v [|v' l]];
    simpl in *; [done| |lia].
  inversion Hhead; subst v. simpl. f_equal. apply IH. lia.
Qed.

(** What the COPY makes of one line of the buffer: each value lands in the
    table column of its name, as the input function of the column type
    reads it, and a table column that the frame does not have is NULL. *)
Lemma copy_line_values e df r r' :
  copy_line e (filter (λ c, c ∈ columns df) target_cols)
    (filter (λ c, c ∈ columns df) target_cols
       ≫= (λ c, pandas.select_all (columns df) r None c)) = Ok r' →
  ∀ c, c ∈ table_columns →
    Some (pandas.row_get table_columns r' c)
    = if decide (c ∈ columns df)
      then pg_field e (column_type c) (pandas.row_get (columns df) r c)
      else Some None.
Proof.
  set (cols := filter (λ c, c ∈ columns df) target_cols).
  assert (Forall (λ c, c ∈ columns df) cols) as Hcols.
  { apply Forall_forall. intros c Hc. by apply list_elem_of_filter in Hc as [? _]. }
  unfold copy_line. case_decide as Hlen; [|done].
  rewrite (project_line _ _ _ Hcols Hlen).
  destruct (mapM _ _) as [fields|] eqn:Hfields; [|done].
  case_decide; [|done]. intros [= <-] c Hc.
  unfold copy_row. rewrite row_get_fmap, decide_True by done.
  apply mapM_Some in Hfields.
  assert (Forall2 (λ c fld, pg_field e (column_type c)
                              (pandas.row_get (columns df) r c) = Some fld)
            cols fields) as Hall.
  { clear -Hfields. revert fields Hfields.
    induction cols as [|k cols IH]; intros fields Hfields; simpl in Hfields.
    - apply Forall2_nil_inv_l in Hfields as ->. constructor.
    - apply Forall2_cons_inv_l in Hfields as (fld&fields'&Hfld&Hrest&->).
      constructor; [exact Hfld|by apply IH]. }
  destruct (decide (c ∈ columns df)) as [Hin|Hout].
  - symmetry. apply (row_get_Forall2 _ c cols fields Hall).
    apply list_elem_of_filter. by split.
  - f_equal. apply row_get_outside.
    by intros [? _]%list_elem_of_filter.
Qed.

(** The table rows that the COPY makes of the rows of a cleaned frame. *)
Lemma staged_rows_Forall2 e df staged :
  staged_rows e df = Ok staged →
  Forall2 (λ r r', ∀ c, c ∈ table_columns →
             Some (pandas.row_get table_columns r' c)
             = if decide (c ∈ columns df)
               then pg_field e (column_type c) (pandas.row_get (columns df) r c)
               else Some None)
    (rows df) staged.
Proof.
  unfold staged_rows, pandas.project. simpl.
  intros (_&_&Hlines)%copy_lines_spec.
  apply Forall2_fmap_l in Hlines.
  eapply Forall2_impl; [exact Hlines|].
  intros r r' Hline. by apply copy_line_values.
Qed.

Lemma staged_rows_not_null e df staged :
  staged_rows e df = Ok staged → Forall not_null_ok staged.
Proof. unfold staged_rows. by intros (?&_)%copy_lines_spec. Qed.



(** X9. A row of the cleaned frame with no value in a column that the trip
    table declares NOT NULL -- the column is empty in that row, or the file
    does not have it -- makes the COPY fail: the import returns [None] and
    no row of the file reaches the table. *)
Theorem null_in_required_column_rejects_the_file
    (file_path : string) (w w1 w' : World) (df : DataFrame)
    (r : row) (c : string) (res : result (option Z)) :
  clean_df file_path w = (Ok df, w1) →
  r ∈ rows df →
  c ∈ not_null_columns →
  pandas.row_get (columns df) r c = None →
  import_parquet_copy file_path w = (res, w') →
  res = Ok None ∧ postgres w' = postgres w.
Proof.
  intros Hc Hr Hnn Hnull H.
  destruct (import_parquet_copy_after_clean _ _ _ _ _ _ Hc H)
    as [(staged&_&Hst&_)|(->&Hfr&_)].
  2:{ split; [done|]. by destruct Hfr as (_&_&_&_&?&_). }
  exfalso.
  assert (c ∈ table_columns) as Htc.
  { revert Hnn. generalize c. apply Forall_forall. by_evaluation. }
  pose proof (staged_rows_Forall2 _ _ _ Hst) as Hrows.
  pose proof (staged_rows_not_null _ _ _ Hst) as Hok.
  apply list_elem_of_lookup in Hr as [i Hi].
  destruct (Forall2_lookup_l _ _ _ _ _ Hrows Hi) as (r'&Hi'&Hget).
  apply (Forall_lookup_1 _ _ _ _ Hok) in Hi'.
  unfold not_null_ok, pandas.notna in Hi'.
  apply (proj1 (Forall_forall _ _)) with (x := c) in Hi'; [|done].
  destruct Hi' as [x Hx]. pose proof (Hget c Htc) as Hv.
  rewrite Hx, Hnull in Hv. by case_decide.
Qed.

Lemma null_in_required_column_rejects_the_file_witness :
  let w := example.on_disk_more {[ example.january := [Byte.x04] ]} [] in
  (import_parquet_copy example.january w).1 = Ok None
  ∧ postgres (import_parquet_copy example.january w).2 = postgres w.
Proof.
  intros w.
  assert (clean_df example.january w = (Ok example.fare_missing_cleaned, w))
    as Hc by (vm_compute; reflexivity).
  apply (null_in_required_column_rejects_the_file example.january w w _
           example.fare_missing_cleaned
           (<[10%nat := None]> (example.ny_trip 1735703600))
           "fare_amount" _ Hc).
  - apply elem_of_cons. right. apply elem_of_cons. by left.
  - by_evaluation.
  - reflexivity.
  - by destruct (import_parquet_copy _ _).
Defined.

Lemma import_parquet_copy_clean_raises f w e w1 :
  clean_df f w = (Raise e, w1) → import_parquet_copy f w = (Ok None, w1).
Proof.
  intros Hc. unfold import_parquet_copy, try_except, import_parquet_copy_try.
  by rewrite (bind_Raise _ _ _ _ _ Hc).
Qed.

(** X10. A file that lacks one of the two timestamp columns is rejected
    whole: [dropna] raises for the missing label, the import returns [None],
    and the store is as it was. *)
Theorem file_without_timestamp_column_is_rejected
    (file_path : string) (w w' : World) (bytes : list Byte.byte)
    (raw : DataFrame) (c : string) (res : result (option Z)) :
  fs w !! file_path = Some bytes →
  parquet_codec (env w) bytes = Some raw →
  c ∈ ["tpep_pickup_datetime"; "tpep_dropoff_datetime"] →
  c ∉ columns (pandas.rename column_mapping raw) →
  import_parquet_copy file_path w = (res, w') →
  res = Ok None ∧ same_but_faults w w'
  ∧ (io_faults w = [] → ∃ missing, clean_df file_path w = (Raise (KeyError missing), w)).
Proof.
  intros Hfile Hcodec Hc Hout H.
  assert (∀ df, transform (env w) (fs w !! file_path) ≠ Ok df) as Hno.
  { intros df (b&raw'&Hb&Hraw'&Hcols&Hp&Hd&_)%transform_rows.
    rewrite Hfile in Hb. inversion Hb; subst b.
    rewrite Hcodec in Hraw'. inversion Hraw'; subst raw'.
    rewrite Hcols in Hp, Hd.
    apply elem_of_cons in Hc as [->|Hc]; [done|].
    apply elem_of_cons in Hc as [->|Hc]; [done|]. by apply elem_of_nil in Hc. }
  destruct (import_parquet_copy_needs_clean _ _ _ _ Hno H) as [-> Hfr].
  split_and!; [done|done|]. intros Hf.
  rewrite (clean_df_no_fault _ _ Hf). unfold transform. rewrite Hfile, Hcodec.
  unfold pandas.dropna.
  destruct (list_find _ _) as [[i missing]|] eqn:Hfind; [by eauto|].
  exfalso. apply list_find_None in Hfind.
  apply (proj1 (Forall_forall _ _) Hfind c Hc). exact Hout.
Qed.

Lemma file_without_timestamp_column_is_rejected_witness :
  let w := example.on_disk_more {[ example.january := [Byte.x05] ]} [] in
  (import_parquet_copy example.january w).1 = Ok None
  ∧ clean_df example.january w = (Raise (KeyError "tpep_dropoff_datetime"), w).
Proof.
  intros w.
  destruct (file_without_timestamp_column_is_rejected example.january w
              (import_parquet_copy example.january w).2 [Byte.x05]
              {| columns := ["VendorID"; "tpep_pickup_datetime"];
                 dtypes := [DtInt; DtDatetime None];
                 rows := [[Some (CInt 2); Some (CTimestamp 1735700000 None)]] |}
              "tpep_dropoff_datetime" (import_parquet_copy example.january w).1)
    as (Hres&_&Hclean).
  - reflexivity.
  - reflexivity.
  - by_evaluation.
  - by_evaluation.
  - by destruct (import_parquet_copy _ _).
  - split; [exact Hres|]. vm_compute. reflexivity.
Defined.

(** X11. One row with both timestamps of which one is a wall-clock time that
    New York does not have rejects the whole file: [tz_localize] raises, the
    import returns [None], and no row of the file -- not even a good one --
    reaches the table. *)
Theorem unlocalizable_time_rejects_the_file
    (file_path : string) (w w' : World) (bytes : list Byte.byte)
    (raw : DataFrame) (r : row) (c : string) (t : Z)
    (res : result (option Z)) :
  fs w !! file_path = Some bytes →
  parquet_codec (env w) bytes = Some raw →
  r ∈ rows raw →
  has_timestamps (columns (pandas.rename column_mapping raw)) r →
  c ∈ ["tpep_pickup_datetime"; "tpep_dropoff_datetime"] →
  pandas.row_get (columns (pandas.rename column_mapping raw)) r c
    = Some (CTimestamp t None) →
  ny_wall_time_ok (env w) t = false →
  import_parquet_copy file_path w = (res, w') →
  res = Ok None ∧ same_but_faults w w'.
Proof.
  intros Hfile Hcodec Hr Hts Hc Hget Hbad H.
  apply (import_parquet_copy_needs_clean file_path); [|done].
  intros df (b&raw'&Hb&Hraw'&Hcols&_&_&Hloc&_)%transform_rows.
  rewrite Hfile in Hb. inversion Hb; subst b.
  rewrite Hcodec in Hraw'. inversion Hraw'; subst raw'.
  rewrite Hcols in Hloc.
  assert (r ∈ filter (has_timestamps (columns (pandas.rename column_mapping raw)))
                (rows raw)) as Hkept by (by apply list_elem_of_filter).
  pose proof (proj1 (Forall_forall _ _) Hloc r Hkept c t Hc Hget) as Hok.
  congruence.
Qed.

Lemma unlocalizable_time_rejects_the_file_witness :
  let w := example.on_disk_more {[ example.january := [Byte.x06] ]} [] in
  (import_parquet_copy example.january w).1 = Ok None
  ∧ yellow_taxi_trips (postgres (import_parquet_copy example.january w).2) = [].
Proof.
  intros w.
  destruct (unlocalizable_time_rejects_the_file example.january w
              (import_parquet_copy example.january w).2 [Byte.x06]
              {| columns := example.raw_columns; dtypes := example.raw_dtypes;
                 rows := [example.good_trip 1735700000;
                          example.good_trip 1741487400] |}
              (example.good_trip 1741487400) "tpep_pickup_datetime" 1741487400
              (import_parquet_copy example.january w).1)
    as (Hres&Hfr).
  - reflexivity.
  - reflexivity.
  - apply elem_of_cons. right. apply elem_of_cons. by left.
  - by_evaluation.
  - by_evaluation.
  - reflexivity.
  - reflexivity.
  - by destruct (import_parquet_copy _ _).
  - split; [exact Hres|]. destruct Hfr as (_&_&_&_&Hpg&_). by rewrite Hpg.
Defined.

(** X12. The number that a successful COPY import returns is the number of
    rows of the file that have both timestamps, and exactly that many rows
    were appended to the trip table; the ledger is not written. *)
Theorem copy_import_returns_the_rows_it_appended
    (file_path : string) (w w' : World) (n : Z) :
  import_parquet_copy file_path w = (Ok (Some n), w') →
  ∃ bytes raw added,
    fs w !! file_path = Some bytes
    ∧ parquet_codec (env w) bytes = Some raw
    ∧ n = Z.of_nat (length (filter
            (has_timestamps (columns (pandas.rename column_mapping raw)))
            (rows raw)))
    ∧ yellow_taxi_trips (postgres w') = yellow_taxi_trips (postgres w) ++ added
    ∧ Z.of_nat (length added) = n
    ∧ import_log (postgres w') = import_log (postgres w).
Proof.
  intros H.
  destruct (clean_df file_path w) as [[df|e] w1] eqn:Hc.
  2:{ by rewrite (import_parquet_copy_clean_raises _ _ _ _ Hc) in H. }
  destruct (import_parquet_copy_after_clean _ _ _ _ _ _ Hc H)
    as [(staged&Hn&Hst&Hext)|(?&_)]; [|done].
  inversion Hn as [Hn'].
  apply clean_df_transform, transform_spec in Hc
    as (bytes&raw&Hfile&Hcodec&_&Hlen&_).
  destruct Hext as (_&_&_&_&_&Hlog&Htrips).
  exists bytes, raw, staged.
  split_and!; [done|done|by rewrite <-Hlen|done| |done].
  unfold staged_rows in Hst. apply copy_lines_spec in Hst as (_&->&_).
  unfold pandas.project. simpl. by rewrite length_fmap.
Qed.

Lemma copy_import_returns_the_rows_it_appended_witness :
  let out := import_parquet_copy example.january example.january_only in
  out.1 = Ok (Some 2)
  ∧ length (yellow_taxi_trips (postgres out.2)) = 2%nat.
Proof.
  intros out.
  assert (out = (Ok (Some 2), out.2)) as Himp by (vm_compute; reflexivity).
  destruct (copy_import_returns_the_rows_it_appended _ _ _ _ Himp)
    as (bytes&raw&added&_&_&_&Htrips&Hlen&_).
  split; [by rewrite Himp|].
  rewrite Htrips. simpl. lia.
Defined.

End copy_more.

(** ** Further properties of the batch of [import_to_postgres.main] *)

Module batch_more.
Import import_to_postgres pandas_props importer_props.

(** A turn of the loop writes the ledger only for a name that was not in
    it. *)
Lemma collect_one_fresh fpath total ok w r w' :
  collect_one fpath total ok w = (r, w') →
  import_log (postgres w') = import_log (postgres w)
  ∨ (pathlib.name fpath ∉ file_name <$> import_log (postgres w)).
Proof.
  unfold collect_one. intros H.
  destruct (import_parquet_copy fpath w) as [r1 w1] eqn:Himp.
  destruct (import_parquet_copy_effect _ _ _ _ Himp)
    as (o&staged&->&Hext&_).
  destruct Hext as (_&_&_&_&_&Hlog1&_).
  rewrite (bind_Ok _ _ _ _ _ Himp) in H. unfold try_except in H.
  destruct o as [n|]; [|unfold ret in H; inversion H; subst; by left].
  case_decide; [|unfold ret in H; inversion H; subst; by left].
  destruct (log_import (pathlib.name fpath) n w1) as [r2 w2] eqn:Hlog.
  destruct (log_import_spec _ _ _ _ _ Hlog)
    as [(->&Hfresh&_)|([e ->]&Hfr)].
  - right. by rewrite <-Hlog1.
  - rewrite (bind_Raise _ _ _ _ _ Hlog) in H. unfold ret in H.
    inversion H; subst. left. destruct Hfr as (_&_&_&_&Hpg&_).
    by rewrite Hpg.
Qed.

Lemma logged_rows_nil : logged_rows [] = 0.
Proof. reflexivity. Qed.

(** What the loop keeps true, whatever fails: the ledger entries it adds
    have new, distinct names, and their row counts sum to no more than the
    rows appended to the trip table. *)
Lemma collect_ledger completed : ∀ total ok w r w',
  collect completed total ok w = (r, w') →
  ∃ total' ok' staged added,
    r = Ok (total', ok')
    ∧ batch_effect staged added w w'
    ∧ total' = total + logged_rows added
    ∧ ok' = ok + Z.of_nat (length added)
    ∧ 0 ≤ logged_rows added ≤ Z.of_nat (length staged)
    ∧ (NoDup (file_name <$> import_log (postgres w)) →
       NoDup (file_name <$> import_log (postgres w) ++ added)).
Proof.
  induction completed as [|fpath rest IH]; intros total ok w r w' H.
  - simpl in H. unfold ret in H. inversion H; subst.
    exists total, ok, [], []. rewrite logged_rows_nil, app_nil_r. simpl.
    split_and!; try done; try lia.
    unfold batch_effect. rewrite !app_nil_r. by split_and!.
  - rewrite collect_cons in H.
    destruct (collect_one_spec fpath total ok w)
      as (t1&o1&w1&s1&a1&Hone&Hb1&_&Ho1&Ht1&Ha1).
    pose proof (collect_one_fresh _ _ _ _ _ _ Hone) as Hfresh.
    rewrite (bind_Ok _ _ _ _ _ Hone) in H. simpl in H.
    destruct (IH _ _ _ _ _ H) as (t2&o2&s2&a2&->&Hb2&Ht2&Ho2&Hle2&Hnd2).
    exists t2, o2, (s1 ++ s2), (a1 ++ a2).
    assert (0 ≤ logged_rows a1 ≤ Z.of_nat (length s1)) as Hle1.
    { destruct Ha1 as [->| ->]; unfold logged_rows; simpl; lia. }
    split_and!; [done| | | | | |].
    + eauto using batch_effect_trans.
    + rewrite logged_rows_app. lia.
    + rewrite length_app. lia.
    + rewrite logged_rows_app. lia.
    + rewrite logged_rows_app, length_app. lia.
    + intros Hnd. destruct Hb1 as (_&_&_&_&_&_&Hlog1).
      rewrite app_assoc, <-Hlog1. apply Hnd2. rewrite Hlog1.
      destruct Ha1 as [->| ->]; [by rewrite app_nil_r|].
      rewrite fmap_app. simpl. apply NoDup_app. split_and!; [done| |].
      * intros name Hin Hin'. apply elem_of_cons in Hin' as [->|Hin']; [|by apply elem_of_nil in Hin']. simpl in Hin.
        destruct Hfresh as [Hsame|Hnew]; [|done].
        rewrite Hlog1 in Hsame.
        apply (f_equal length) in Hsame. rewrite length_app in Hsame.
        simpl in Hsame. lia.
      * apply NoDup_singleton.
Qed.


Lemma sorted_nil_iff l : pathlib.sorted l = [] ↔ l = [].
Proof.
  split; [|by intros ->].
  intros H. apply Permutation_nil_r. by rewrite <-H, sorted_Permutation.
Qed.

(** What [main] does in each of its three outcomes. *)
Lemma main_cases w r w' :
  main w = (r, w') →
  (r = Raise OperationalError ∧ hd false (io_faults w) = true
   ∧ same_but_faults w w')
  ∨ (r = Ok None ∧ hd false (io_faults w) = false
     ∧ listing (cwd (env w) +:+ "/data/raw") (fs w) = []
     ∧ same_but_faults w w')
  ∨ (∃ stats staged added,
       r = Ok (Some stats) ∧ hd false (io_faults w) = false
       ∧ listing (cwd (env w) +:+ "/data/raw") (fs w) ≠ []
       ∧ batch_effect staged added w w'
       ∧ total_rows stats = logged_rows added
       ∧ files_imported stats = Z.of_nat (length added)
       ∧ 0 ≤ logged_rows added ≤ Z.of_nat (length staged)
       ∧ (NoDup (file_name <$> import_log (postgres w)) →
          NoDup (file_name <$> import_log (postgres w) ++ added))).
Proof.
  unfold main, database.init_db. intros H.
  destruct (io_call OperationalError w) as [[[]|e] w0] eqn:Hio.
  2:{ rewrite (bind_Raise _ _ _ _ _ Hio) in H. inversion H; subst. left.
      pose proof (io_call_frame _ _ _ _ Hio) as Hfr.
      unfold io_call in Hio. destruct (io_faults w) as [|[] l]; by inversion Hio. }
  right. rewrite (bind_Ok _ _ _ _ _ Hio) in H.
  assert (hd false (io_faults w) = false) as Hhd.
  { unfold io_call in Hio. destruct (io_faults w) as [|[] l]; by inversion Hio. }
  apply io_call_frame in Hio as Hfr.
  unfold ask in H. unfold bind at 1 in H. unfold bind at 1 in H.
  rewrite glob_parquet_eq in H.
  pose proof Hfr as (He&Hfs&_). rewrite He, Hfs in H.
  destruct (pathlib.sorted _) as [|f files] eqn:Hs.
  { apply (proj1 (sorted_nil_iff _)) in Hs. unfold ret in H. inversion H; subst. by left. }
  right.
  destruct (collect (completion_order (env w) (f :: files)) 0 0 w0)
    as [rc wc] eqn:Hc.
  destruct (collect_ledger _ _ _ _ _ _ Hc)
    as (t&o&staged&added&->&Hb&Ht&Ho&Hle&Hnd).
  rewrite (bind_Ok _ _ _ _ _ Hc) in H. unfold ret in H. inversion H; subst.
  exists {| files_imported := 0 + Z.of_nat (length added);
            total_rows := 0 + logged_rows added |}, staged, added.
  simpl. split_and!; [done|done| | |lia|lia|lia|lia|].
  - intros Hnil. rewrite Hnil in Hs. by vm_compute in Hs.
  - apply (batch_effect_trans [] [] staged added w w0 w'); [|done].
    by apply same_but_faults_batch.
  - destruct Hfr as (_&_&_&_&Hpg&_). rewrite <-Hpg. exact Hnd.
Qed.

(** X13. The primary key of the ledger holds through a run of [main]: when
    the file names of the ledger are distinct before, they are distinct
    after, whatever fails on the way. *)
Theorem main_keeps_ledger_names_distinct (w w' : World)
    (r : result (option ImportStats)) :
  NoDup (file_name <$> import_log (postgres w)) →
  main w = (r, w') →
  NoDup (file_name <$> import_log (postgres w')).
Proof.
  intros Hnd H.
  destruct (main_cases _ _ _ H)
    as [(_&_&Hfr)|[(_&_&_&Hfr)|(stats&staged&added&_&_&_&Hb&_&_&_&Hkeep)]].
  - destruct Hfr as (_&_&_&_&Hpg&_). by rewrite Hpg.
  - destruct Hfr as (_&_&_&_&Hpg&_). by rewrite Hpg.
  - destruct Hb as (_&_&_&_&_&_&Hlog). rewrite Hlog. by apply Hkeep.
Qed.

Lemma main_keeps_ledger_names_distinct_witness :
  NoDup (file_name <$> import_log (postgres (main example.four_months).2)).
Proof.
  apply (main_keeps_ledger_names_distinct example.four_months _
           (main example.four_months).1).
  - apply NoDup_nil_2.
  - by destruct (main example.four_months).
Defined.

(** X14. The aggregate that [main] returns never claims more than the run
    did: [total_rows] is the sum of the row counts of the ledger entries the
    run added, it is not negative, and it is at most the number of rows the
    run appended to the trip table. *)
Theorem main_reports_no_more_rows_than_it_appended (w w' : World)
    (stats : ImportStats) :
  main w = (Ok (Some stats), w') →
  ∃ staged added,
    yellow_taxi_trips (postgres w') = yellow_taxi_trips (postgres w) ++ staged
    ∧ import_log (postgres w') = import_log (postgres w) ++ added
    ∧ files_imported stats = Z.of_nat (length added)
    ∧ total_rows stats = logged_rows added
    ∧ 0 ≤ total_rows stats ≤ Z.of_nat (length staged).
Proof.
  intros H.
  destruct (main_cases _ _ _ H)
    as [(?&_)|[(?&_)|(s&staged&added&Hs&_&_&Hb&Ht&Ho&Hle&_)]]; [done|done|].
  inversion Hs; subst s. destruct Hb as (_&_&_&_&_&Htrips&Hlog).
  exists staged, added. split_and!; try done; lia.
Qed.

Lemma main_reports_no_more_rows_than_it_appended_witness :
  let out := main example.january_ledger_fault in
  out.1 = Ok (Some {| files_imported := 0; total_rows := 0 |})
  ∧ ∃ staged,
      yellow_taxi_trips (postgres out.2) = staged
      ∧ 0 ≤ 0 ≤ Z.of_nat (length staged).
Proof.
  intros out.
  assert (out = (Ok (Some {| files_imported := 0; total_rows := 0 |}), out.2))
    as Hout by (vm_compute; reflexivity).
  destruct (main_reports_no_more_rows_than_it_appended _ _ _ Hout)
    as (staged&added&Htrips&_&_&_&Hle).
  split; [by rewrite Hout|]. exists staged. split; [exact Htrips|exact Hle].
Defined.

(** X15. The three outcomes of [main]: it raises only when the schema
    initialization at its start fails, and then it raises that error with
    the store untouched; it returns [None] only when the directory holds no
    Parquet file, the store untouched as well; in every other run it returns
    an aggregate, whatever fails during the imports. *)
Theorem main_raises_only_when_init_db_fails (w w' : World)
    (r : result (option ImportStats)) :
  main w = (r, w') →
  match r with
  | Raise e =>
      e = OperationalError ∧ hd false (io_faults w) = true
      ∧ postgres w' = postgres w
  | Ok None =>
      hd false (io_faults w) = false
      ∧ listing (cwd (env w) +:+ "/data/raw") (fs w) = []
      ∧ postgres w' = postgres w
  | Ok (Some stats) =>
      hd false (io_faults w) = false
      ∧ listing (cwd (env w) +:+ "/data/raw") (fs w) ≠ []
  end.
Proof.
  intros H.
  destruct (main_cases _ _ _ H)
    as [(->&?&Hfr)|[(->&?&?&Hfr)|(s&staged&added&->&?&?&_)]].
  - destruct Hfr as (_&_&_&_&Hpg&_). by split_and!.
  - destruct Hfr as (_&_&_&_&Hpg&_). by split_and!.
  - by split.
Qed.

Lemma main_raises_only_when_init_db_fails_witness :
  let w := example.on_disk {[ example.january := [Byte.x01] ]} [true] in
  (main w).1 = Raise OperationalError ∧ postgres (main w).2 = postgres w.
Proof.
  intros w.
  assert (main w = (Raise OperationalError, (main w).2)) as Hout
    by (vm_compute; reflexivity).
  destruct (main_raises_only_when_init_db_fails _ _ _ Hout) as (_&_&Hpg).
  split; [by rewrite Hout|exact Hpg].
Defined.

End batch_more.

(** ** Further properties of the DuckDB importer *)

Module duckdb_more.
Import import_to_duckdb duckdb_props.

(** A property of the committed tables that holds when an import is
    committed holds through [import_parquet] and through the loop. *)
Lemma import_parquet_invariant (P : DuckTables → Prop) file_path w r w' :
  (∀ t name stamp df, P t → (name ∉ file_name <$> duck_log t) →
     P (duck_imported name stamp df t)) →
  txn (duckdb w) = None →
  P (committed (duckdb w)) →
  import_parquet file_path w = (r, w') →
  txn (duckdb w') = None ∧ P (committed (duckdb w')).
Proof.
  intros Hstep Hn HP H.
  destruct (import_parquet_spec file_path w Hn) as (r1&w1&H1&_&Hn1&Hr).
  rewrite H in H1. inversion H1; subst r1 w1. split; [done|].
  destruct r as [[|]|e].
  - destruct Hr as [[_ ->]|(Hfresh&rs&_&->)]; [done|]. by apply Hstep.
  - by rewrite Hr.
  - destruct Hr as (_&->&_). done.
Qed.

Lemma for_file_invariant (P : DuckTables → Prop) :
  (∀ t name stamp df, P t → (name ∉ file_name <$> duck_log t) →
     P (duck_imported name stamp df t)) →
  ∀ parquet_files imported_count w r w',
    txn (duckdb w) = None →
    P (committed (duckdb w)) →
    for_file parquet_files imported_count w = (r, w') →
    txn (duckdb w') = None ∧ P (committed (duckdb w')).
Proof.
  intros Hstep. induction parquet_files as [|f rest IH]; intros c w r w' Hn HP H.
  - simpl in H. unfold ret in H. by inversion H; subst.
  - simpl in H.
    destruct (import_parquet f w) as [r1 w1] eqn:H1.
    destruct (import_parquet_invariant P _ _ _ _ Hstep Hn HP H1) as [Hn1 HP1].
    destruct r1 as [b|e].
    + rewrite (bind_Ok _ _ _ _ _ H1) in H. destruct b; by apply IH in H.
    + rewrite (bind_Raise _ _ _ _ _ H1) in H. by inversion H; subst.
Qed.

Lemma import_all_parquet_invariant (P : DuckTables → Prop) data_dir w r w' :
  (∀ t name stamp df, P t → (name ∉ file_name <$> duck_log t) →
     P (duck_imported name stamp df t)) →
  txn (duckdb w) = None →
  P (committed (duckdb w)) →
  import_all_parquet data_dir w = (r, w') →
  txn (duckdb w') = None ∧ P (committed (duckdb w')).
Proof.
  intros Hstep Hn HP H. unfold import_all_parquet in H.
  unfold bind at 1 in H. rewrite importer_props.glob_parquet_eq in H.
  by apply (for_file_invariant P Hstep) in H.
Qed.

(** X16. In DuckDB the ledger accounts for every row: when the trip table
    has as many rows as the ledger entries count together, this is still so
    after [import_parquet] and after [import_all_parquet], whatever fails on
    the way. *)
Theorem duckdb_ledger_accounts_for_every_row :
  let in_step (t : DuckTables) :=
    Z.of_nat (length (duck_trips t)) = logged_rows (duck_log t) in
  (∀ file_path w r w',
     txn (duckdb w) = None → in_step (committed (duckdb w)) →
     import_parquet file_path w = (r, w') →
     txn (duckdb w') = None ∧ in_step (committed (duckdb w')))
  ∧ (∀ data_dir w r w',
       txn (duckdb w) = None → in_step (committed (duckdb w)) →
       import_all_parquet data_dir w = (r, w') →
       txn (duckdb w') = None ∧ in_step (committed (duckdb w'))).
Proof.
  intros in_step.
  assert (∀ t name stamp df, in_step t → (name ∉ file_name <$> duck_log t) →
            in_step (duck_imported name stamp df t)) as Hstep.
  { intros t name stamp df Ht _. unfold in_step, duck_imported in *. simpl.
    rewrite length_app, importer_props.logged_rows_app. unfold logged_rows at 2.
    simpl. lia. }
  split.
  - intros f w r w'. by apply import_parquet_invariant.
  - intros d w r w'. by apply import_all_parquet_invariant.
Qed.

Lemma duckdb_ledger_accounts_for_every_row_witness :
  let w' := (import_all_parquet "/app/data/raw" example.four_months).2 in
  Z.of_nat (length (duck_trips (committed (duckdb w'))))
  = logged_rows (duck_log (committed (duckdb w'))).
Proof.
  intros w'.
  destruct duckdb_ledger_accounts_for_every_row as [_ Hall].
  apply (Hall "/app/data/raw" example.four_months
           (import_all_parquet "/app/data/raw" example.four_months).1 w').
  - reflexivity.
  - reflexivity.
  - subst w'. by destruct (import_all_parquet _ _).
Defined.

(** X17. The primary key of the DuckDB ledger holds through the imports: file
    names that are distinct before [import_parquet] or [import_all_parquet]
    are distinct after, whatever fails on the way. *)
Theorem duckdb_ledger_names_stay_distinct :
  let distinct (t : DuckTables) := NoDup (file_name <$> duck_log t) in
  (∀ file_path w r w',
     txn (duckdb w) = None → distinct (committed (duckdb w)) →
     import_parquet file_path w = (r, w') →
     distinct (committed (duckdb w')))
  ∧ (∀ data_dir w r w',
       txn (duckdb w) = None → distinct (committed (duckdb w)) →
       import_all_parquet data_dir w = (r, w') →
       distinct (committed (duckdb w'))).
Proof.
  intros distinct.
  assert (∀ t name stamp df, distinct t → (name ∉ file_name <$> duck_log t) →
            distinct (duck_imported name stamp df t)) as Hstep.
  { intros t name stamp df Ht Hfresh. unfold distinct, duck_imported in *.
    simpl. rewrite fmap_app. simpl. apply NoDup_app. split_and!; [done| |].
    - intros x Hx Hx'. apply elem_of_cons in Hx' as [->|Hx'];
        [done|by apply elem_of_nil in Hx'].
    - apply NoDup_singleton. }
  split.
  - intros f w r w' Hn Hd H.
    by destruct (import_parquet_invariant distinct _ _ _ _ Hstep Hn Hd H).
  - intros d w r w' Hn Hd H.
    by destruct (import_all_parquet_invariant distinct _ _ _ _ Hstep Hn Hd H).
Qed.

Lemma duckdb_ledger_names_stay_distinct_witness :
  let w' := (import_all_parquet "/app/data/raw" example.four_months).2 in
  NoDup (file_name <$> duck_log (committed (duckdb w'))).
Proof.
  intros w'.
  destruct duckdb_ledger_names_stay_distinct as [_ Hall].
  apply (Hall "/app/data/raw" example.four_months
           (import_all_parquet "/app/data/raw" example.four_months).1 w').
  - reflexivity.
  - apply NoDup_nil_2.
  - subst w'. by destruct (import_all_parquet _ _).
Defined.






(** A run of the loop with no outside fault, and the same loop run again in
    the world it reached. *)
Lemma for_file_again parquet_files : ∀ imported_count w,
  io_faults w = [] →
  txn (duckdb w) = None →
  NoDup (pathlib.name <$> parquet_files) →
  ∃ k w',
    for_file parquet_files imported_count w = (Ok (imported_count + k), w')
    ∧ io_faults w' = [] ∧ txn (duckdb w') = None
    ∧ env w' = env w ∧ fs w' = fs w
    ∧ (∀ x, x ∈ file_name <$> duck_log (committed (duckdb w)) →
            x ∈ file_name <$> duck_log (committed (duckdb w')))
    ∧ (∀ x, x ∈ file_name <$> duck_log (committed (duckdb w')) →
            x ∈ pathlib.name <$> parquet_files
            ∨ x ∈ file_name <$> duck_log (committed (duckdb w)))
    ∧ ∀ c, for_file parquet_files c w' = (Ok (c + k), w').
Proof.
  induction parquet_files as [|f rest IH]; intros c w Hf Hn Hnd.
  - exists 0, w. simpl. unfold ret. rewrite Z.add_0_r.
    split_and!; try done; [by right|]. intros c'. by rewrite Z.add_0_r.
  - rewrite fmap_cons in Hnd. apply NoDup_cons in Hnd as [Hfresh Hnd].
    destruct (import_parquet_no_fault_cases f w Hf Hn)
      as (b&wa&Himp&Hfa&Hna&Hea&Hfsa&Hup&Hdown&Htrue&Hfalse).
    assert (∀ n, ∃ k w',
      for_file rest n wa = (Ok (n + k), w')
      ∧ io_faults w' = [] ∧ txn (duckdb w') = None
      ∧ env w' = env wa ∧ fs w' = fs wa
      ∧ (∀ x, x ∈ file_name <$> duck_log (committed (duckdb wa)) →
              x ∈ file_name <$> duck_log (committed (duckdb w')))
      ∧ (∀ x, x ∈ file_name <$> duck_log (committed (duckdb w')) →
              x ∈ pathlib.name <$> rest
              ∨ x ∈ file_name <$> duck_log (committed (duckdb wa)))
      ∧ ∀ c, for_file rest c w' = (Ok (c + k), w')) as Hrest
      by (intros n; by apply IH).
    cbn [for_file]. rewrite (bind_Ok _ _ _ _ _ Himp).
    destruct b.
    + destruct (Hrest (c + 1))
        as (k&w'&Hrun&Hf'&Hn'&He'&Hfs'&Hup'&Hdown'&Hagain).
      exists (1 + k), w'. rewrite Hrun.
      split_and!; [f_equal; f_equal; lia|done|done|congruence|congruence
                   |by auto| |].
      * intros x Hx. destruct (Hdown' x Hx) as [Hx'|Hx'].
        -- left. rewrite fmap_cons. apply elem_of_cons. by right.
        -- destruct (Hdown x Hx') as [->|Hx'']; [|by right].
           left. rewrite fmap_cons. apply elem_of_cons. by left.
      * intros c'. cbn [for_file].
        rewrite (bind_Ok _ _ _ _ _ (import_parquet_skips f w'
          ltac:(unfold view; rewrite Hn'; simpl; apply Hup', Htrue; done))).
        rewrite Hagain. f_equal. f_equal. lia.
    + destruct (Hfalse eq_refl) as (->&Hout&Hbad).
      destruct (Hrest c)
        as (k&w'&Hrun&Hf'&Hn'&He'&Hfs'&Hup'&Hdown'&Hagain).
      exists k, w'. rewrite Hrun.
      split_and!; [done|done|done|done|done|done| |].
      * intros x Hx. destruct (Hdown' x Hx) as [Hx'|Hx']; [|by right].
        left. rewrite fmap_cons. apply elem_of_cons. by right.
      * intros c'. cbn [for_file].
        rewrite (bind_Ok _ _ _ _ _ (import_parquet_not_loadable f w' Hf' Hn'
          ltac:(intros Hx; destruct (Hdown' _ Hx); done)
          ltac:(by rewrite He', Hfs'))).
        apply Hagain.
Qed.

(** X20. With no outside fault [import_all_parquet] is idempotent: run again
    on the same directory, it changes nothing -- no row and no ledger entry
    is added -- and it returns the same count. *)
Theorem import_all_parquet_is_idempotent
    (data_dir : string) (w w' : World) (n : Z) :
  io_faults w = [] →
  txn (duckdb w) = None →
  import_all_parquet data_dir w = (Ok n, w') →
  import_all_parquet data_dir w' = (Ok n, w').
Proof.
  intros Hf Hn H. unfold import_all_parquet in *.
  unfold bind at 1 in H. unfold bind at 1.
  rewrite importer_props.glob_parquet_eq in *.
  destruct (for_file_again (pathlib.sorted (listing data_dir (fs w))) 0 w Hf Hn)
    as (k&w1&Hrun&_&_&_&Hfs&_&_&Hagain).
  { rewrite importer_props.sorted_Permutation.
    apply importer_props.listing_names_NoDup. }
  rewrite H in Hrun. inversion Hrun; subst. by rewrite Hfs.
Qed.

Lemma import_all_parquet_is_idempotent_witness :
  let first := import_all_parquet "/app/data/raw" example.four_months in
  first.1 = Ok 3 ∧ import_all_parquet "/app/data/raw" first.2 = (Ok 3, first.2).
Proof.
  intros first.
  assert (first = (Ok 3, first.2)) as Hfirst by (vm_compute; reflexivity).
  split; [by rewrite Hfirst|].
  by apply (import_all_parquet_is_idempotent "/app/data/raw" example.four_months).
Defined.

(** The ledger after the loop: the names of some of the files, in the order
    of the loop, were added. *)
Lemma for_file_order parquet_files : ∀ imported_count w r w',
  txn (duckdb w) = None →
  for_file parquet_files imported_count w = (r, w') →
  ∃ recorded,
    sublist recorded parquet_files
    ∧ file_name <$> duck_log (committed (duckdb w'))
      = (file_name <$> duck_log (committed (duckdb w)))
        ++ (pathlib.name <$> recorded).
Proof.
  induction parquet_files as [|f rest IH]; intros c w r w' Hn H.
  - simpl in H. unfold ret in H. inversion H; subst. exists [].
    by rewrite app_nil_r.
  - cbn [for_file] in H.
    destruct (import_parquet_spec f w Hn) as (r1&w1&H1&_&Hn1&Hr).
    destruct r1 as [b|e].
    2:{ rewrite (bind_Raise _ _ _ _ _ H1) in H. inversion H; subst.
        destruct Hr as (_&->&_). exists []. split; [apply sublist_nil_l|].
        by rewrite app_nil_r. }
    rewrite (bind_Ok _ _ _ _ _ H1) in H.
    assert (∃ recorded,
      sublist recorded rest
      ∧ file_name <$> duck_log (committed (duckdb w'))
        = (file_name <$> duck_log (committed (duckdb w1)))
          ++ (pathlib.name <$> recorded)) as (recorded&Hsub&Hlog)
      by (destruct b; by apply IH in H).
    destruct b.
    + destruct Hr as [[_ ->]|(_&rs&_&Hcm)].
      * exists recorded. split; [by apply sublist_cons|done].
      * exists (f :: recorded). split; [by apply sublist_skip|].
        rewrite Hlog, Hcm. unfold duck_imported. simpl.
        by rewrite fmap_app, <-app_assoc.
    + exists recorded. split; [by apply sublist_cons|].
      by rewrite Hlog, Hr.
Qed.

(** X21. [import_all_parquet] records the files in the order of their
    paths: whatever fails, the entries that a run adds to the ledger are
    those of some of the Parquet files of the directory, each once, in
    ascending order of the path. *)
Theorem import_all_parquet_records_in_path_order
    (data_dir : string) (w w' : World) (r : result Z) :
  txn (duckdb w) = None →
  import_all_parquet data_dir w = (r, w') →
  ∃ recorded,
    file_name <$> duck_log (committed (duckdb w'))
    = (file_name <$> duck_log (committed (duckdb w)))
      ++ (pathlib.name <$> recorded)
    ∧ recorded ⊆+ listing data_dir (fs w)
    ∧ StronglySorted String.le recorded.
Proof.
  intros Hn H. unfold import_all_parquet in H.
  unfold bind at 1 in H. rewrite importer_props.glob_parquet_eq in H.
  destruct (for_file_order _ _ _ _ _ Hn H) as (recorded&Hsub&Hlog).
  exists recorded. split_and!; [done| |].
  - rewrite <-(importer_props.sorted_Permutation (listing data_dir (fs w))).
    by apply sublist_submseteq.
  - assert (StronglySorted String.le
              (pathlib.sorted (listing data_dir (fs w)))) as Hsorted
      by apply (StronglySorted_merge_sort String.le).
    clear Hlog H. revert Hsub Hsorted.
    generalize (pathlib.sorted (listing data_dir (fs w))).
    intros l Hsub. induction Hsub as [|x l1 l2 Hsub IH|x l1 l2 _ IH].
    + done.
    + intros [Hall Hs]%StronglySorted_cons. apply StronglySorted_cons.
      split; [|by apply IH].
      apply Forall_forall. intros y Hy.
      apply (proj1 (Forall_forall _ _) Hall).
      eapply elem_of_submseteq; [exact Hy|by apply sublist_submseteq].
    + intros [_ Hs]%StronglySorted_cons. by apply IH.
Qed.

Lemma import_all_parquet_records_in_path_order_witness :
  let w' := (import_all_parquet "/app/data/raw" example.four_months).2 in
  ∃ recorded,
    file_name <$> duck_log (committed (duckdb w')) = pathlib.name <$> recorded
    ∧ StronglySorted String.le recorded.
Proof.
  intros w'.
  destruct (import_all_parquet_records_in_path_order "/app/data/raw"
              example.four_months w'
              (import_all_parquet "/app/data/raw" example.four_months).1)
    as (recorded&Hlog&_&Hsorted).
  - reflexivity.
  - apply surjective_pairing.
  - exists recorded. split; [exact Hlog|exact Hsorted].
Defined.

End duckdb_more.

(** ** The pipeline end to end *)

Module pipeline_more.
Import fetcher_props importer_props.

Lemma download_main_total w :
  ∃ w', download_data.main w = (Ok PyNone, w').
Proof.
  unfold download_data.main, ask. unfold bind at 1.
  rewrite (bind_Ok _ _ _ _ _ (fetcher_more.download_all_available_fold _ _)).
  unfold ret. eauto.
Qed.

(** X22. What [run_pipeline] does before it raises.  It raises at once, with
    nothing done, only when the schema initialization fails.  In every other
    run the download and the import are carried out, and what they wrote
    stays: the run ends in the world that [import_to_postgres.main] left,
    with the error of [main] when it raised, with [TypeError] when [main]
    returned [None], and with the validation error on [downloaded]
    otherwise. *)
Theorem run_pipeline_raises_after_the_work (w w' : World)
    (r : result services.PipelineResponse) :
  services.run_pipeline w = (r, w') →
  (r = Raise OperationalError ∧ hd false (io_faults w) = true
   ∧ same_but_faults w w')
  ∨ ∃ w1 w2 r0,
      database.init_db w = (Ok tt, w1)
      ∧ download_data.main w1 = (Ok PyNone, w2)
      ∧ import_to_postgres.main w2 = (r0, w')
      ∧ r = match r0 with
            | Raise e => Raise e
            | Ok None => Raise TypeError
            | Ok (Some _) => Raise (ValidationError "downloaded")
            end.
Proof.
  unfold services.run_pipeline. intros H.
  destruct (database.init_db w) as [[[]|e0] w1] eqn:H0.
  2:{ rewrite (bind_Raise _ _ _ _ _ H0) in H. inversion H; subst. left.
      unfold database.init_db in H0.
      pose proof (io_call_frame _ _ _ _ H0) as Hfr.
      unfold io_call in H0. destruct (io_faults w) as [|[] l]; by inversion H0. }
  right. rewrite (bind_Ok _ _ _ _ _ H0) in H.
  destruct (download_main_total w1) as (w2&H1).
  rewrite (bind_Ok _ _ _ _ _ H1) in H.
  destruct (import_to_postgres.main w2) as [[stats|e2] w3] eqn:H2.
  2:{ rewrite (bind_Raise _ _ _ _ _ H2) in H. inversion H; subst.
      by exists w1, w2, (Raise e2). }
  rewrite (bind_Ok _ _ _ _ _ H2) in H.
  destruct stats as [s|].
  - unfold services.subscript in H. simpl in H. unfold bind, ret in H.
    unfold services.new_PipelineResponse, services.validate_status in H.
    simpl in H. unfold bind, ret, services.validate_int, raise in H.
    inversion H; subst. by exists w1, w2, (Ok (Some s)).
  - unfold services.subscript, bind, raise in H. inversion H; subst.
    by exists w1, w2, (Ok None).
Qed.

Lemma run_pipeline_raises_after_the_work_witness :
  ∃ w1 w2 r0,
    database.init_db example.three_months_served = (Ok tt, w1)
    ∧ download_data.main w1 = (Ok PyNone, w2)
    ∧ import_to_postgres.main w2
      = (r0, (services.run_pipeline example.three_months_served).2).
Proof.
  destruct (run_pipeline_raises_after_the_work example.three_months_served
              (services.run_pipeline example.three_months_served).2
              (services.run_pipeline example.three_months_served).1)
    as [(_&Hhd&_)|(w1&w2&r0&H0&H1&Hmain&_)].
  - by destruct (services.run_pipeline _).
  - discriminate Hhd.
  - by exists w1, w2, r0.
Defined.

End pipeline_more.

(** ** The layout that the fetcher and the importer share *)

Module handover.
Import download_data importer_props.

Lemma strip_prefix_app pre rest :
  pathlib.strip_prefix pre (pre +:+ rest) = Some rest.
Proof.
  induction pre as [|a pre IH]; [by destruct rest|].
  change (String a pre +:+ rest) with (String a (pre +:+ rest)).
  cbn [pathlib.strip_prefix]. by rewrite decide_True.
Qed.

Lemma has_slash_append (a b : string) :
  pathlib.has_slash (a +:+ b) = pathlib.has_slash a || pathlib.has_slash b.
Proof.
  induction a as [|c a IH]; [done|].
  change (String c a +:+ b) with (String c (a +:+ b)).
  cbn [pathlib.has_slash]. rewrite IH. by destruct (decide (c = "/"%char)).
Qed.

Lemma pretty_N_char_no_slash (x : N) : pretty_N_char x ≠ "/"%char.
Proof. unfold pretty_N_char. by repeat case_match. Qed.

Lemma has_slash_pretty_N_go (x : N) : ∀ s,
  pathlib.has_slash s = false → pathlib.has_slash (pretty_N_go x s) = false.
Proof.
  induction (N.lt_wf_0 x) as [x _ IH]. intros s Hs.
  destruct (decide (x = 0)%N) as [->|Hx]; [by rewrite pretty_N_go_0|].
  rewrite pretty_N_go_step by lia. apply IH.
  - apply N.div_lt; lia.
  - cbn [pathlib.has_slash].
    rewrite decide_False by apply pretty_N_char_no_slash. done.
Qed.

Lemma has_slash_pretty_Z (n : Z) : pathlib.has_slash (pretty n) = false.
Proof.
  assert (∀ p : positive, pathlib.has_slash (pretty p) = false) as Hpos.
  { intros p. unfold pretty, pretty_positive, pretty, pretty_N.
    rewrite decide_False by done. by apply has_slash_pretty_N_go. }
  destruct n as [|p|p]; [done|apply Hpos|].
  unfold pretty, pretty_Z. rewrite has_slash_append. by rewrite Hpos.
Qed.

Lemma has_slash_format_02d (n : Z) : pathlib.has_slash (format_02d n) = false.
Proof.
  unfold format_02d. case_decide.
  - rewrite has_slash_append. by rewrite has_slash_pretty_Z.
  - apply has_slash_pretty_Z.
Qed.

Lemma rev_app_append (s : string) : ∀ t u,
  String.rev_app s (t +:+ u) = String.rev_app s t +:+ u.
Proof.
  induction s as [|c s IH]; intros t u; [done|].
  cbn [String.rev_app]. by rewrite <-IH.
Qed.

Lemma rev_app_app (s1 : string) : ∀ s2 t,
  String.rev_app (s1 +:+ s2) t = String.rev_app s2 (String.rev_app s1 t).
Proof.
  induction s1 as [|c s1 IH]; intros s2 t; [done|].
  change (String c s1 +:+ s2) with (String c (s1 +:+ s2)).
  cbn [String.rev_app]. by rewrite IH.
Qed.

Lemma prefix_app (p : string) : ∀ x, String.prefix p (p +:+ x) = true.
Proof.
  induction p as [|c p IH]; intros x; [by destruct x|].
  change (String c p +:+ x) with (String c (p +:+ x)).
  cbn [String.prefix]. destruct (ascii_dec c c); [apply IH|done].
Qed.

Lemma ends_with_app (stem suffix : string) :
  pathlib.ends_with suffix (stem +:+ suffix) = true.
Proof.
  unfold pathlib.ends_with, String.rev.
  rewrite rev_app_app.
  pose proof (rev_app_append suffix "" (String.rev_app stem "")) as H.
  change ("" +:+ String.rev_app stem "") with (String.rev_app stem "") in H.
  rewrite H. apply prefix_app.
Qed.

Lemma listing_elem dir files p :
  p ∈ listing dir files
  ↔ is_Some (files !! p) ∧ pathlib.matches_parquet dir p = true.
Proof.
  unfold listing. rewrite list_elem_of_filter, list_elem_of_fmap.
  rewrite Is_true_true. split.
  - intros [Hm ([q v]&->&Hin)]. apply elem_of_map_to_list in Hin. simpl. eauto.
  - intros [[v Hv] Hm]. split; [done|]. exists (p, v). split; [done|].
    by apply elem_of_map_to_list.
Qed.

(** X23. The fetcher and the importer agree on the layout [data/raw]: a month
    file that the fetcher of [download_data.main] has put on disk, for any
    year and month, is among the files that [glob] finds in the directory
    that [import_to_postgres.main] scans, and the name under which the
    ledger records it is the file name of the fetcher. *)
Theorem downloaded_files_are_found_by_the_import
    (w : World) (base : string) (year month : Z) :
  let dir := cwd (env w) +:+ "/data/raw" in
  let self := init base dir year in
  is_Some (fs w !! get_file_path self month) →
  get_file_path self month ∈ listing dir (fs w)
  ∧ pathlib.glob_parquet dir w = (Ok (listing dir (fs w)), w)
  ∧ pathlib.name (get_file_path self month) = get_file_name self month.
Proof.
  intros dir self Hfile.
  assert (pathlib.has_slash (get_file_name self month) = false) as Hns.
  { unfold get_file_name. rewrite !has_slash_append.
    by rewrite has_slash_pretty_Z, has_slash_format_02d. }
  split_and!.
  - apply listing_elem. split; [done|].
    unfold pathlib.matches_parquet, get_file_path. simpl.
    rewrite <-string_app_assoc, strip_prefix_app, Hns. simpl.
    unfold get_file_name. simpl.
    rewrite <-!string_app_assoc. apply ends_with_app.
  - reflexivity.
  - unfold get_file_path. by apply name_of_entry.
Qed.

Lemma downloaded_files_are_found_by_the_import_witness :
  example.march ∈ listing "/app/data/raw" (fs example.four_months)
  ∧ pathlib.name example.march = "yellow_tripdata_2025-03.parquet".
Proof.
  destruct (downloaded_files_are_found_by_the_import example.four_months
              "https://d37ci6vzurychx.cloudfront.net/trip-data" 2025 3)
    as (Hin&_&Hname).
  - vm_compute. eauto.
  - split; [exact Hin|exact Hname].
Defined.

End handover.

(** ** [download_data.main] *)

Module fetcher_main.
Import download_data fetcher_props fetcher_more.

(** X25. [download_data.main] never raises and returns [None].  It works on
    [data/raw] under the working directory for the year of the clock, so the
    months it attempts are those from January to the current month: it sends
    one request, in month order, for each of them whose file is missing, and
    none for the others; files already on disk keep their bytes, and the
    stores are not touched. *)
Theorem download_main_fetches_the_missing_months_of_this_year (w : World) :
  let self :=
    init "https://d37ci6vzurychx.cloudfront.net/trip-data"
      (cwd (env w) +:+ "/data/raw") (clock_year (env w)) in
  ∃ w',
    main w = (Ok PyNone, w')
    ∧ requests w'
      = requests w
        ++ ((λ month, base_url self +:+ "/" +:+ get_file_name self month)
              <$> filter (λ month, fs w !! get_file_path self month = None)
                    (seqZ 1 (clock_month (env w))))
    ∧ (∀ p, is_Some (fs w !! p) → fs w' !! p = fs w !! p)
    ∧ stores_untouched w w'.
Proof.
  intros self. unfold main, ask. unfold bind at 1.
  fold self.
  rewrite (bind_Ok _ _ _ _ _ (download_all_available_fold self w)).
  unfold ret. eexists. split; [reflexivity|].
  assert ((if decide (year self = clock_year (env w))
           then clock_month (env w) else 12) = clock_month (env w)) as ->
    by (by rewrite decide_True).
  destruct (fold_download_months self (seqZ 1 (clock_month (env w))) w)
    as (Hkeep&_&Hst&Hrq).
  split_and!; [|exact Hkeep|exact Hst].
  apply Hrq, NoDup_seqZ.
Qed.

(** Nothing on disk in March 2025: three requests. *)
Example download_main_march_2025 :
  requests (main example.three_months_served).2
  = ["https://d37ci6vzurychx.cloudfront.net/trip-data/yellow_tripdata_2025-01.parquet";
     "https://d37ci6vzurychx.cloudfront.net/trip-data/yellow_tripdata_2025-02.parquet";
     "https://d37ci6vzurychx.cloudfront.net/trip-data/yellow_tripdata_2025-03.parquet"].
Proof. vm_compute. reflexivity. Qed.

End fetcher_main.
